(** * Curling slide analyzer: signal pipeline of [script.js] and the session
      aggregator of the comparison page.

    Numbers.  A JavaScript number that holds a sensor reading or a value
    computed from readings is modelled as a real number: rounding and overflow
    of IEEE doubles are outside the model.  The one non-finite value that the
    analysed code builds out of finite readings is [Math.max()] of no
    argument, which is [-Infinity]; results of [Math.max] are therefore
    [JsNumber]s.  Every division of the source is kept behind the guard the
    source puts before it.

    Arrays.  A stream is the record of four parallel arrays the source keeps
    ([x], [y], [z], [timestamps]); the motion handler pushes to the four
    together, which [wf_stream] records.  Array indices are integers, as
    [i - 5] and [i - settlePeriod + 10] are computed on them. *)

From Stdlib Require Import String DecimalString.
From Stdlib Require Import Reals Lra Lia ZArith List Bool Sorted.
Import ListNotations.

Open Scope R_scope.

(** ** JavaScript values *)

Inductive JsNumber : Type :=
| Finite (r : R)
| NegInfinity
| PosInfinity
| NaN.

Definition isFinite (n : JsNumber) : bool :=
  match n with Finite _ => true | _ => false end.

(** [Math.max(...values)]: starts from [-Infinity]. *)
Definition js_max2 (a : JsNumber) (b : R) : JsNumber :=
  match a with
  | Finite r => Finite (Rmax r b)
  | NegInfinity => Finite b
  | PosInfinity => PosInfinity
  | NaN => NaN
  end.

Definition Math_max (values : list R) : JsNumber :=
  fold_left js_max2 values NegInfinity.

(** [Math.log10] *)
Definition log10 (v : R) : R := ln v / ln 10.

(** [JSON.stringify] writes a non-finite number as [null]. *)
Definition JSON_number (n : JsNumber) : option R :=
  match n with Finite r => Some r | _ => None end.

(** [v || 0] on a value read back from JSON. *)
Definition or0 (v : option R) : R :=
  match v with Some r => r | None => 0 end.

(** [arr[i]] for an index inside the array (the reading outside is
    [undefined]; every use below is either in range or followed by [|| 0]). *)
Definition get (arr : list R) (i : Z) : R := nth (Z.to_nat i) arr 0.

Definition len {A} (arr : list A) : Z := Z.of_nat (length arr).

(** [arr.slice(start, end)] *)
Definition slice {A} (arr : list A) (start stop : Z) : list A :=
  let n := len arr in
  let k := if (start <? 0)%Z then Z.max (n + start) 0 else Z.min start n in
  let final := if (stop <? 0)%Z then Z.max (n + stop) 0 else Z.min stop n in
  firstn (Z.to_nat (Z.max (final - k) 0)) (skipn (Z.to_nat k) arr).

(** [arr.slice(start)] *)
Definition slice_from {A} (arr : list A) (start : Z) : list A :=
  slice arr start (len arr).

(** [arr.reduce((a, b) => a + b, 0)] *)
Definition sum (arr : list R) : R := fold_left Rplus arr 0.

(** ** Sensor data *)

Record Stream : Type := mkStream {
  x : list R;
  y : list R;
  z : list R;
  timestamps : list R
}.

Record Velocity : Type := mkVelocity {
  vel_x : list R;
  vel_timestamps : list R
}.

Record SensorData : Type := mkSensorData {
  acceleration : Stream;
  gyroscope : Stream;
  velocity : Velocity
}.

Definition emptyStream : Stream := mkStream [] [] [] [].

Definition emptySensorData : SensorData :=
  mkSensorData emptyStream emptyStream (mkVelocity [] []).

Definition wf_stream (s : Stream) : Prop :=
  length (y s) = length (x s) /\
  length (z s) = length (x s) /\
  length (timestamps s) = length (x s).

(** ** trimToActualThrow *)

Definition accelThreshold : R := 2.
Definition settleThreshold : R := 15 / 10.
Definition settlePeriod : Z := 20.

Definition totalAccel (accel : Stream) (i : Z) : R :=
  sqrt (get (x accel) i ^ 2 + get (y accel) i ^ 2 + get (z accel) i ^ 2).

(** The first loop: [fuel] iterations are left, [i] is the loop variable;
    leaving the loop without [break] keeps [startIndex = 0]. *)
Fixpoint findStart (accel : Stream) (fuel : nat) (i : Z) : Z :=
  match fuel with
  | O => 0%Z
  | S fuel' =>
      if Rlt_dec accelThreshold (totalAccel accel i)
      then Z.max 0 (i - 5)
      else findStart accel fuel' (i + 1)
  end.

Definition trimStartIndex (accel : Stream) : Z :=
  findStart accel (length (x accel)) 0.

(** The second loop, with its two variables [calmCount] and [endIndex]. *)
Fixpoint findEnd (accel : Stream) (fuel : nat) (i calmCount endIndex : Z) : Z :=
  match fuel with
  | O => endIndex
  | S fuel' =>
      if Rlt_dec (totalAccel accel i) settleThreshold
      then
        let calmCount' := (calmCount + 1)%Z in
        if (settlePeriod <=? calmCount')%Z
        then (i - settlePeriod + 10)%Z
        else findEnd accel fuel' (i + 1) calmCount' endIndex
      else findEnd accel fuel' (i + 1) 0 endIndex
  end.

Definition trimEndIndex (accel : Stream) : Z :=
  let startIndex := trimStartIndex accel in
  findEnd accel (Z.to_nat (len (x accel) - (startIndex + 30)))
          (startIndex + 30) 0 (len (x accel) - 1).

Definition trimToActualThrow (d : SensorData) : SensorData :=
  let accel := acceleration d in
  let gyro := gyroscope d in
  match x accel with
  | [] => d
  | _ :: _ =>
      let startIndex := trimStartIndex accel in
      let endIndex := trimEndIndex accel in
      let cut := fun arr : list R => slice arr startIndex (endIndex + 1) in
      let ts := cut (timestamps accel) in
      let startTime := get ts 0 in
      let accel' :=
        mkStream (cut (x accel)) (cut (y accel)) (cut (z accel))
                 (map (fun t => t - startTime) ts) in
      let gyro' :=
        match x gyro with
        | [] => gyro
        | _ :: _ =>
            mkStream (cut (x gyro)) (cut (y gyro)) (cut (z gyro))
                     (map (fun t => t - startTime) (cut (timestamps gyro)))
        end in
      mkSensorData accel' gyro' (velocity d)
  end.

(** ** calculateVelocity *)

(** The integration loop; [vel] is the object the loop pushes to. *)
Fixpoint integrate (accel : Stream) (fuel : nat) (i : Z) (vel : Velocity)
  : Velocity :=
  match fuel with
  | O => vel
  | S fuel' =>
      let dt := get (timestamps accel) i - get (timestamps accel) (i - 1) in
      let prevVel := get (vel_x vel) (len (vel_x vel) - 1) in
      let avgAccel := (get (x accel) i + get (x accel) (i - 1)) / 2 in
      let newVel := prevVel + avgAccel * dt in
      integrate accel fuel' (i + 1)
        (mkVelocity (vel_x vel ++ [newVel])
                    (vel_timestamps vel ++ [get (timestamps accel) i]))
  end.

Definition velocityOf (accel : Stream) : Velocity :=
  integrate accel (length (x accel) - 1) 1
            (mkVelocity [0] [get (timestamps accel) 0]).

Definition calculateVelocity (d : SensorData) : SensorData :=
  mkSensorData (acceleration d) (gyroscope d) (velocityOf (acceleration d)).

(** ** calculateVariance and calculateAnalysisMetrics *)

Definition calculateVariance (data : list R) : R :=
  match data with
  | [] => 0
  | _ :: _ =>
      let mean := sum data / IZR (len data) in
      fold_left (fun acc val => acc + (val - mean) ^ 2) data 0 / IZR (len data)
  end.

(** [arr.map((v, i) => f(v, i))] *)
Fixpoint mapi_from {A B} (f : A -> Z -> B) (i : Z) (arr : list A) : list B :=
  match arr with
  | [] => []
  | v :: rest => f v i :: mapi_from f (i + 1) rest
  end.

Definition mapi {A B} (f : A -> Z -> B) (arr : list A) : list B :=
  mapi_from f 0 arr.

Definition isNegative (a : R) : bool := if Rlt_dec a 0 then true else false.

(** [Math.floor(accel.x.length * 0.2)] *)
Definition pushoffPeriodOf (accel : Stream) : Z :=
  Int_part (IZR (len (x accel)) * (2 / 10)).

Definition pitchRollOf (gyro : Stream) : list R :=
  mapi (fun pitch i => sqrt (pitch ^ 2 + get (y gyro) i ^ 2)) (x gyro).

Definition stabilityScoreOf (stabilityVariance : R) : R :=
  Rmax 0 (Rmin 100 (100 - log10 (stabilityVariance + 1) * 20)).

(** The signed mean the source first stores in [decelRate]. *)
Definition signedDecelRate (accel : Stream) : R :=
  let slideData := slice_from (x accel) (pushoffPeriodOf accel) in
  let negativeAccel := filter isNegative slideData in
  match negativeAccel with
  | [] => 0
  | _ :: _ => sum negativeAccel / IZR (len negativeAccel)
  end.

Definition glideEfficiencyOf (decelRate : R) : string :=
  let avgDecel := Rabs decelRate in
  if Rlt_dec 2 avgDecel then "Poor (High Drag)"%string
  else if Rlt_dec avgDecel (5 / 10) then "Excellent"%string
  else if Rlt_dec avgDecel 1 then "Very Good"%string
  else "Good"%string.

Record Analysis : Type := mkAnalysis {
  pushoffStrength : JsNumber;
  peakVelocity : JsNumber;
  slideDuration : R;
  decelRate : R;
  stabilityScore : R;
  glideEfficiency : string
}.

Definition calculateAnalysisMetrics (d : SensorData) : Analysis :=
  let accel := acceleration d in
  let gyro := gyroscope d in
  let pushoffPeriod := pushoffPeriodOf accel in
  let pushoffData := slice (x accel) 0 pushoffPeriod in
  let ts := timestamps accel in
  let decel := signedDecelRate accel in
  mkAnalysis
    (Math_max (map Rabs pushoffData))
    (Math_max (map Rabs (vel_x (velocity d))))
    (match ts with
     | [] => 0
     | _ :: _ => get ts (len ts - 1) - get ts 0
     end)
    (Rabs decel)
    (stabilityScoreOf (calculateVariance (pitchRollOf gyro)))
    (glideEfficiencyOf decel).

(** ** Persistence: saveThrowToSession *)

(** A throw as [JSON.stringify] writes it to [localStorage]. *)
Record StoredThrow : Type := mkStoredThrow {
  id : Z;
  timestamp : Z;
  st_pushoffStrength : option R;
  st_peakVelocity : option R;
  st_slideDuration : option R;
  st_decelRate : option R;
  st_stabilityScore : option R;
  st_glideEfficiency : string;
  sessionId : Z
}.

Record Session : Type := mkSession {
  session_id : Z;
  session_startTime : Z
}.

(** The three keys of [localStorage] the analyzer writes; [None] is a key
    that is not set. *)
Record Storage : Type := mkStorage {
  curling_current_session : option Session;
  curling_session_throws : option (list StoredThrow);
  curling_latest_throw : option StoredThrow
}.

Definition emptyStorage : Storage := mkStorage None None None.

(** [now] is the reading of [Date.now()]. *)
Definition saveThrowToSession (now : Z) (analysis : Analysis) (ls : Storage)
  : Storage :=
  let currentSession :=
    match curling_current_session ls with
    | Some s => s
    | None => mkSession now now
    end in
  let throwData :=
    mkStoredThrow now now
      (JSON_number (pushoffStrength analysis))
      (JSON_number (peakVelocity analysis))
      (Some (slideDuration analysis))
      (Some (decelRate analysis))
      (Some (stabilityScore analysis))
      (glideEfficiency analysis)
      (session_id currentSession) in
  let throws :=
    match curling_session_throws ls with
    | Some l => l
    | None => []
    end in
  mkStorage (Some currentSession) (Some (throws ++ [throwData])) (Some throwData).

Definition storedThrows (ls : Storage) : list StoredThrow :=
  match curling_session_throws ls with
  | Some l => l
  | None => []
  end.

(** ** The analyzer object *)

Record BufferPoint : Type := mkPoint {
  pt_acceleration : R;
  pt_timestamp : R
}.

Record Analyzer : Type := mkAnalyzer {
  isRecording : bool;
  sensorData : SensorData;
  startTime : Z;
  autoStopBuffer : list BufferPoint;
  lastAutoStopCheck : R;
  listening : bool;                 (* the devicemotion listener is attached *)
  localStorage : Storage;
  alerts : list string;             (* calls of alert(), oldest first *)
  autoStopNotifications : nat       (* calls of showAutoStopNotification *)
}.

Definition autoStopThreshold : R := 15 / 10.
Definition autoStopDuration : R := 3.
Definition autoStopCheckInterval : R := 5 / 10.

Definition hasData (a : Analyzer) : bool :=
  (0 <? len (x (acceleration (sensorData a))))%Z
  || (0 <? len (x (gyroscope (sensorData a))))%Z.

Definition with_sensorData (a : Analyzer) (d : SensorData) : Analyzer :=
  mkAnalyzer (isRecording a) d (startTime a) (autoStopBuffer a)
             (lastAutoStopCheck a) (listening a) (localStorage a) (alerts a)
             (autoStopNotifications a).

Definition with_localStorage (a : Analyzer) (ls : Storage) : Analyzer :=
  mkAnalyzer (isRecording a) (sensorData a) (startTime a) (autoStopBuffer a)
             (lastAutoStopCheck a) (listening a) ls (alerts a)
             (autoStopNotifications a).

Definition processData (a : Analyzer) : Analyzer :=
  if negb (hasData a)
  then mkAnalyzer (isRecording a) (sensorData a) (startTime a)
                  (autoStopBuffer a) (lastAutoStopCheck a) (listening a)
                  (localStorage a)
                  (alerts a ++ ["No sensor data recorded. Please try again."%string])
                  (autoStopNotifications a)
  else with_sensorData a (calculateVelocity (trimToActualThrow (sensorData a))).

Definition showAnalysis (now : Z) (a : Analyzer) : Analyzer :=
  if negb (hasData a) then a
  else
    let analysis := calculateAnalysisMetrics (sensorData a) in
    with_localStorage a (saveThrowToSession now analysis (localStorage a)).

(** [stopRecording]: the flag, the listener, then the pipeline.  The timer,
    the telemetry call and the charts (with the windowed RMS series that
    [createVelocityChart] draws) read the state and write none of the fields
    modelled here. *)
Definition stopRecording (now : Z) (a : Analyzer) : Analyzer :=
  let a1 :=
    mkAnalyzer false (sensorData a) (startTime a) (autoStopBuffer a)
               (lastAutoStopCheck a) false (localStorage a) (alerts a)
               (autoStopNotifications a) in
  showAnalysis now (processData a1).

(** [startRecording], after [requestPermissions] has answered [granted]:
    [clearData(false)] and [startSensorListening]. *)
Definition startRecording (now : Z) (granted : bool) (a : Analyzer) : Analyzer :=
  if negb granted then a
  else mkAnalyzer true emptySensorData now [] 0 true (localStorage a)
                  (alerts a) (autoStopNotifications a).

(** The click listener of the record button. *)
Definition recordBtn_click (now : Z) (granted : bool) (a : Analyzer) : Analyzer :=
  if isRecording a then stopRecording now a else startRecording now granted a.

(** The [visibilitychange] listener; [hidden] is [document.hidden]. *)
Definition visibilitychange (now : Z) (hidden : bool) (a : Analyzer) : Analyzer :=
  if hidden && isRecording a then stopRecording now a else a.

(** ** The motion handler and checkAutoStop *)

Record Vec3 : Type := mkVec3 {
  c1 : option R;     (* x, or alpha *)
  c2 : option R;     (* y, or beta *)
  c3 : option R      (* z, or gamma *)
}.

Record MotionEvent : Type := mkEvent {
  ev_now : Z;                                   (* Date.now() *)
  accelerationIncludingGravity : option Vec3;
  rotationRate : option Vec3
}.

Definition isCalm (point : BufferPoint) : bool :=
  if Rlt_dec (pt_acceleration point) autoStopThreshold then true else false.

Definition isRecent (timestamp : R) (point : BufferPoint) : bool :=
  if Rle_dec (timestamp - pt_timestamp point) autoStopDuration
  then true else false.

Definition checkAutoStop (now : Z) (acc : Vec3) (timestamp : R) (a : Analyzer)
  : Analyzer :=
  let totalAccel :=
    sqrt (or0 (c1 acc) ^ 2 + or0 (c2 acc) ^ 2 + or0 (c3 acc) ^ 2) in
  let buffer :=
    filter (isRecent timestamp)
           (autoStopBuffer a ++ [mkPoint totalAccel timestamp]) in
  let a1 :=
    mkAnalyzer (isRecording a) (sensorData a) (startTime a) buffer
               (lastAutoStopCheck a) (listening a) (localStorage a) (alerts a)
               (autoStopNotifications a) in
  if Rle_dec (autoStopDuration / autoStopCheckInterval) (IZR (len buffer))
  then
    if forallb isCalm buffer
    then
      let a2 := stopRecording now a1 in
      mkAnalyzer (isRecording a2) (sensorData a2) (startTime a2)
                 (autoStopBuffer a2) (lastAutoStopCheck a2) (listening a2)
                 (localStorage a2) (alerts a2) (S (autoStopNotifications a2))
    else a1
  else a1.

Definition pushSample (s : Stream) (vx vy vz t : R) : Stream :=
  mkStream (x s ++ [vx]) (y s ++ [vy]) (z s ++ [vz]) (timestamps s ++ [t]).

Definition eventTimestamp (a : Analyzer) (event : MotionEvent) : R :=
  IZR (ev_now event - startTime a) / 1000.

Definition dueForCheck (a : Analyzer) (timestamp : R) : bool :=
  if Rlt_dec 10 timestamp
  then if Rle_dec autoStopCheckInterval (timestamp - lastAutoStopCheck a)
       then true else false
  else false.

Definition deviceMotionHandler (event : MotionEvent) (a : Analyzer) : Analyzer :=
  if negb (isRecording a) then a
  else
    let timestamp := eventTimestamp a event in
    let a1 :=
      match accelerationIncludingGravity event with
      | None => a
      | Some acc =>
          let d := sensorData a in
          let a' :=
            with_sensorData a
              (mkSensorData
                 (pushSample (acceleration d) (or0 (c1 acc)) (or0 (c2 acc))
                             (or0 (c3 acc)) timestamp)
                 (gyroscope d) (velocity d)) in
          if dueForCheck a' timestamp
          then
            let a'' := checkAutoStop (ev_now event) acc timestamp a' in
            mkAnalyzer (isRecording a'') (sensorData a'') (startTime a'')
                       (autoStopBuffer a'') timestamp (listening a'')
                       (localStorage a'') (alerts a'')
                       (autoStopNotifications a'')
          else a'
      end in
    match rotationRate event with
    | None => a1
    | Some rot =>
        let d := sensorData a1 in
        with_sensorData a1
          (mkSensorData
             (acceleration d)
             (pushSample (gyroscope d)
                         (or0 (c2 rot) * 180 / PI)
                         (or0 (c3 rot) * 180 / PI)
                         (or0 (c1 rot) * 180 / PI) timestamp)
             (velocity d))
    end.

(** The browser delivers an event only while the listener is attached. *)
Definition devicemotion (event : MotionEvent) (a : Analyzer) : Analyzer :=
  if listening a then deviceMotionHandler event a else a.

(** ** The session aggregator (comparison page) *)

Definition show_nat (n : nat) : string :=
  NilZero.string_of_uint (Nat.to_uint n).

Definition calculateCV (values : list R) : R :=
  match values with
  | [] => 0
  | _ :: _ =>
      let mean := sum values / IZR (len values) in
      let variance :=
        fold_left (fun a v => a + (v - mean) ^ 2) values 0 / IZR (len values) in
      let stdDev := sqrt variance in
      if Req_dec_T mean 0 then 0 else stdDev / mean * 100
  end.

Record SessionSummary : Type := mkSummary {
  avgPushoff : R;
  avgVelocity : R;
  avgStability : R;
  bestGlide : string;
  consistency : R;
  improvement : string
}.

Definition glideOrGood (t : StoredThrow) : string :=
  if String.eqb (st_glideEfficiency t) "" then "Good"%string
  else st_glideEfficiency t.

Definition count_label (label : string) (glideQualities : list string) : nat :=
  length (filter (String.eqb label) glideQualities).

Definition stabilityMean (ts : list StoredThrow) : R :=
  fold_left (fun a t => a + or0 (st_stabilityScore t)) ts 0 / IZR (len ts).

(** [None] is the empty object returned for an empty throw list. *)
Definition calculateSessionSummary (throws : list StoredThrow)
  : option SessionSummary :=
  match throws with
  | [] => None
  | _ :: _ =>
      let pushoffs := map (fun t => or0 (st_pushoffStrength t)) throws in
      let velocities := map (fun t => or0 (st_peakVelocity t)) throws in
      let stabilities := map (fun t => or0 (st_stabilityScore t)) throws in
      let glideQualities := map glideOrGood throws in
      let excellentCount := count_label "Excellent" glideQualities in
      let veryGoodCount := count_label "Very Good" glideQualities in
      let pushoffCV := calculateCV pushoffs in
      let velocityCV := calculateCV velocities in
      let stabilityCV := calculateCV stabilities in
      let avgCV := (pushoffCV + velocityCV + stabilityCV) / 3 in
      Some (mkSummary
        (sum pushoffs / IZR (len pushoffs))
        (sum velocities / IZR (len velocities))
        (sum stabilities / IZR (len stabilities))
        (if (0 <? excellentCount)%nat
         then (show_nat excellentCount ++ " Excellent")%string
         else if (0 <? veryGoodCount)%nat
              then (show_nat veryGoodCount ++ " Very Good")%string
              else "Good"%string)
        (Rmax 0 (100 - avgCV * 10))
        (if (3 <=? len throws)%Z
         then
           let recentAvg := stabilityMean (slice_from throws (-3)) in
           let earlyAvg := stabilityMean (slice throws 0 3) in
           if Rlt_dec (earlyAvg + 5) recentAvg then "Improving"%string
           else if Rlt_dec recentAvg (earlyAvg - 5) then "Declining"%string
           else "Stable"%string
         else "Stable"%string))
  end.

(** ** Vocabulary of the specification *)

(** Index [i] is the first one whose magnitude exceeds 2.0. *)
Definition first_exceeding (accel : Stream) (i : Z) : Prop :=
  (0 <= i < len (x accel))%Z /\
  2 < totalAccel accel i /\
  forall j, (0 <= j < i)%Z -> ~ 2 < totalAccel accel j.

(** Scanning from [s + 30], a run of 20 consecutive samples below 1.5
    completes at index [k]: the 20 samples [k - 19 .. k] were all scanned
    and are all calm. *)
Definition run_completes (accel : Stream) (s k : Z) : Prop :=
  (s + 30 <= k - 19)%Z /\ (k < len (x accel))%Z /\
  forall j, (k - 19 <= j <= k)%Z -> totalAccel accel j < 15 / 10.

Definition first_run_completes (accel : Stream) (s k : Z) : Prop :=
  run_completes accel s k /\
  forall k', (k' < k)%Z -> ~ run_completes accel s k'.

(** The sum, the mean and the population variance of a series, as the
    specification uses the words. *)
Definition total (values : list R) : R := fold_right Rplus 0 values.

Definition mean (values : list R) : R := total values / INR (length values).

Definition population_variance (values : list R) : R :=
  match values with
  | [] => 0
  | _ :: _ =>
      total (map (fun v => (v - mean values) ^ 2) values) / INR (length values)
  end.

Definition std_dev (values : list R) : R := sqrt (population_variance values).

Definition coefficient_of_variation (values : list R) : R :=
  if Req_dec_T (mean values) 0 then 0
  else std_dev values / mean values * 100.

(** The strictly negative forward accelerations after the first
    floor(0.2 * n) samples. *)
Definition negatives_after_pushoff (ax : list R) : list R :=
  filter isNegative (skipn (length ax / 5) ax).

(** The invariant of the second loop of the trimmer: [c] calm samples end
    just before [i], all of them scanned, the run cannot be extended to the
    left, and no run of 20 has completed before [i]. *)
Definition end_invariant (accel : Stream) (s i c : Z) : Prop :=
  (s + 30 <= i - c)%Z /\ (0 <= c < 20)%Z /\
  (forall j, (i - c <= j < i)%Z -> totalAccel accel j < 15 / 10) /\
  ((i - c = s + 30)%Z \/ ~ totalAccel accel (i - c - 1) < 15 / 10) /\
  (forall k, (k < i)%Z -> ~ run_completes accel s k).

(** The increment of the trapezoidal rule at index [k]. *)
Definition trapezoid (accel : Stream) (k : Z) : R :=
  (get (x accel) k + get (x accel) (k - 1)) / 2
  * (get (timestamps accel) k - get (timestamps accel) (k - 1)).

(** Every value of the series is [c]. *)
Definition constant_series (c : R) (values : list R) : Prop :=
  forall v, In v values -> v = c.

(** *** The auto-stop detector as seen from outside *)

(** The analyzer after a stream of motion events. *)
Definition run (events : list MotionEvent) (a : Analyzer) : Analyzer :=
  fold_left (fun a' event => devicemotion event a') events a.

(** The stop signal is emitted while [event] is handled in state [a]. *)
Definition emits (event : MotionEvent) (a : Analyzer) : Prop :=
  autoStopNotifications (devicemotion event a) = S (autoStopNotifications a).

Definition accelMagnitude (acc : Vec3) : R :=
  sqrt (or0 (c1 acc) ^ 2 + or0 (c2 acc) ^ 2 + or0 (c3 acc) ^ 2).

(** The buffer once the sample of [event] is added and the entries older
    than 3.0 s are evicted. *)
Definition bufferAfter (a : Analyzer) (event : MotionEvent) (acc : Vec3)
  : list BufferPoint :=
  filter (fun p => if Rle_dec (eventTimestamp a event - pt_timestamp p) 3
                   then true else false)
         (autoStopBuffer a ++
          [mkPoint (accelMagnitude acc) (eventTimestamp a event)]).

(** The condition of the specification: an acceleration sample after the
    grace period, at least 0.5 s after the previous check, and a buffer of at
    least 6 entries that are all below 1.5. *)
Definition auto_stop_condition (a : Analyzer) (event : MotionEvent) : Prop :=
  exists acc,
    accelerationIncludingGravity event = Some acc /\
    10 < eventTimestamp a event /\
    5 / 10 <= eventTimestamp a event - lastAutoStopCheck a /\
    (6 <= length (bufferAfter a event acc))%nat /\
    forall p, In p (bufferAfter a event acc) -> pt_acceleration p < 15 / 10.

(** A check is performed while [event] is handled in state [a]. *)
Definition checkPerformed (event : MotionEvent) (a : Analyzer) : bool :=
  listening a && isRecording a &&
  match accelerationIncludingGravity event with
  | Some _ => dueForCheck a (eventTimestamp a event)
  | None => false
  end.

(** The timestamps of the checks performed along a stream of events. *)
Fixpoint checkTimes (events : list MotionEvent) (a : Analyzer) : list R :=
  match events with
  | [] => []
  | event :: rest =>
      let later := checkTimes rest (devicemotion event a) in
      if checkPerformed event a then eventTimestamp a event :: later else later
  end.

(** Each time is at least 0.5 s after the one before it, [previous] being
    the one before the first. *)
Fixpoint spaced (previous : R) (times : list R) : Prop :=
  match times with
  | [] => True
  | t :: rest => 5 / 10 <= t - previous /\ spaced t rest
  end.

(** The test of checkAutoStop on the buffer. *)
Definition bufferTriggers (buffer : list BufferPoint) : bool :=
  (if Rle_dec (autoStopDuration / autoStopCheckInterval) (IZR (len buffer))
   then true else false) && forallb isCalm buffer.

(** What a motion event that leads to no check leaves as it is. *)
Definition detector_unchanged (a a' : Analyzer) : Prop :=
  autoStopNotifications a' = autoStopNotifications a /\
  isRecording a' = true /\ listening a' = true /\
  lastAutoStopCheck a' = lastAutoStopCheck a /\
  autoStopBuffer a' = autoStopBuffer a.

(** The condition of the specification holds at no event of the stream. *)
Fixpoint never_triggers (events : list MotionEvent) (a : Analyzer) : Prop :=
  match events with
  | [] => True
  | event :: rest =>
      ~ auto_stop_condition a event /\
      never_triggers rest (devicemotion event a)
  end.

(** ** calculateStabilityIndex *)

Definition windowSize : Z := 5.

(** The inner loop: [rmsSum] and [count] over the indices [j], [j + 1], ... *)
Fixpoint rmsWindow (gyro : Stream) (fuel : nat) (j : Z) (rmsSum : R) (count : Z)
  : R * Z :=
  match fuel with
  | O => (rmsSum, count)
  | S fuel' =>
      let pitchSq := get (x gyro) j ^ 2 in
      let rollSq := get (y gyro) j ^ 2 in
      rmsWindow gyro fuel' (j + 1) (rmsSum + (pitchSq + rollSq)) (count + 1)
  end.

(** The body of the outer loop at index [i]. *)
Definition stabilityAt (gyro : Stream) (i : Z) : R :=
  let start := Z.max 0 (i - windowSize / 2) in
  let stop := Z.min (len (x gyro)) (i + windowSize / 2 + 1) in
  let '(rmsSum, count) := rmsWindow gyro (Z.to_nat (stop - start)) start 0 0 in
  sqrt (rmsSum / IZR count).

Fixpoint stabilityLoop (gyro : Stream) (fuel : nat) (i : Z)
         (stabilityIndex : list R) : list R :=
  match fuel with
  | O => stabilityIndex
  | S fuel' =>
      stabilityLoop gyro fuel' (i + 1) (stabilityIndex ++ [stabilityAt gyro i])
  end.

Definition calculateStabilityIndex (d : SensorData) : list R :=
  stabilityLoop (gyroscope d) (length (x (gyroscope d))) 0 [].

(** The integers [start], [start + 1], ..., [n] of them. *)
Fixpoint zrange (start : Z) (n : nat) : list Z :=
  match n with
  | O => []
  | S n' => start :: zrange (start + 1) n'
  end.

(** The mean of pitch^2 + roll^2 over the window of [i], clamped to the
    array: indices max(0, i - 2) to min(n, i + 3) - 1. *)
Definition windowMeanSquare (gyro : Stream) (i : Z) : R :=
  let lo := Z.max 0 (i - 2) in
  let hi := Z.min (len (x gyro)) (i + 3) in
  total (map (fun j => get (x gyro) j ^ 2 + get (y gyro) j ^ 2)
             (zrange lo (Z.to_nat (hi - lo))))
  / IZR (hi - lo).

(** ** The session page: deleteThrow, startNewSession, saveSessionData *)

(** The two fields of the page object that hold data.  A session that is
    [null] is [None], in the object and in storage: the reader of the key
    that is modelled, [saveThrowToSession], treats a key that is not set and
    a key that holds [null] alike. *)
Record SessionPage : Type := mkPage {
  throws : list StoredThrow;
  currentSession : option Session
}.

(** What [arr.splice(index, 1)] leaves in the array. *)
Definition splice1 {A} (arr : list A) (index : Z) : list A :=
  let n := len arr in
  let start := if (index <? 0)%Z then Z.max (n + index) 0 else Z.min index n in
  firstn (Z.to_nat start) arr ++ skipn (Z.to_nat start + 1) arr.

Definition saveSessionData (page : SessionPage) (ls : Storage) : Storage :=
  mkStorage (currentSession page) (Some (throws page)) (curling_latest_throw ls).

(** [confirmed] is the answer of the confirm dialog. *)
Definition deleteThrow (confirmed : bool) (index : Z)
           (page : SessionPage) (ls : Storage) : SessionPage * Storage :=
  if negb confirmed then (page, ls)
  else
    let page' := mkPage (splice1 (throws page) index) (currentSession page) in
    (page', saveSessionData page' ls).

(** The dialog is shown only when there are throws. *)
Definition startNewSession (now : Z) (confirmed : bool)
           (page : SessionPage) (ls : Storage) : SessionPage * Storage :=
  if (0 <? len (throws page))%Z && negb confirmed then (page, ls)
  else
    let page' := mkPage [] (Some (mkSession now now)) in
    (page', saveSessionData page' (mkStorage None None None)).

(** ** The analytics object that the analyzer reports to *)

Section AnalyticsModel.

(** The event object that [track] builds from the session id, the event
    name, the clock, the page address and the caller's data. *)
Variable EventData : Type.

(** [curling_analytics] is the key of [localStorage]; [None] is a key that
    is not set. *)
Record Analytics : Type := mkAnalytics {
  analytics_enabled : bool;
  analytics_events : list EventData;
  curling_analytics : option (list EventData)
}.

Definition autoFlushEvents : list string :=
  ["page_load"; "page_unload"; "recording_start"; "recording_stop"]%string.

(** [track]: the second component tells whether a flush is scheduled. *)
Definition track (event : string) (eventData : EventData) (an : Analytics)
  : Analytics * bool :=
  if negb (analytics_enabled an) then (an, false)
  else
    (mkAnalytics (analytics_enabled an) (analytics_events an ++ [eventData])
                 (curling_analytics an),
     existsb (String.eqb event) autoFlushEvents).

Definition getStoredData (an : Analytics) : list EventData :=
  match curling_analytics an with
  | Some stored => stored
  | None => []
  end.

Definition storeEventsLocally (sent : list EventData) (an : Analytics)
  : Analytics :=
  let stored := getStoredData an ++ sent in
  let trimmed := slice_from stored (-1000) in
  mkAnalytics (analytics_enabled an) (analytics_events an) (Some trimmed).

(** [sendEvents] with the endpoint left at its placeholder: nothing is
    fetched, the events are logged to the console and stored. *)
Definition sendEvents (sent : list EventData) (an : Analytics) : Analytics :=
  storeEventsLocally sent an.

Definition flush (an : Analytics) : Analytics :=
  if negb (analytics_enabled an) || (len (analytics_events an) =? 0)%Z then an
  else
    let eventsToSend := analytics_events an in
    sendEvents eventsToSend
               (mkAnalytics (analytics_enabled an) [] (curling_analytics an)).

Definition clearStoredData (an : Analytics) : Analytics :=
  mkAnalytics (analytics_enabled an) (analytics_events an) None.

Definition analyticsOptOut (an : Analytics) : Analytics :=
  clearStoredData
    (mkAnalytics false (analytics_events an) (curling_analytics an)).

Definition analyticsOptIn (an : Analytics) : Analytics :=
  mkAnalytics true (analytics_events an) (curling_analytics an).

(** A call made on the analytics object. *)
Inductive AnalyticsCall : Type :=
| CallTrack (event : string) (eventData : EventData)
| CallFlush.

Definition analyticsStep (an : Analytics) (call : AnalyticsCall) : Analytics :=
  match call with
  | CallTrack event eventData => fst (track event eventData an)
  | CallFlush => flush an
  end.

Definition analyticsRun (calls : list AnalyticsCall) (an : Analytics)
  : Analytics :=
  fold_left analyticsStep calls an.

End AnalyticsModel.

Arguments mkAnalytics {EventData}.
Arguments analytics_enabled {EventData}.
Arguments analytics_events {EventData}.
Arguments curling_analytics {EventData}.
Arguments track {EventData}.
Arguments getStoredData {EventData}.
Arguments storeEventsLocally {EventData}.
Arguments sendEvents {EventData}.
Arguments flush {EventData}.
Arguments clearStoredData {EventData}.
Arguments analyticsOptOut {EventData}.
Arguments analyticsOptIn {EventData}.
Arguments CallTrack {EventData}.
Arguments CallFlush {EventData}.
Arguments analyticsStep {EventData}.
Arguments analyticsRun {EventData}.

(** ** Vocabulary for the further properties *)

(** The sensor data once the acceleration sample, or the rotation sample, of
    an event is pushed. *)
Definition recordAcceleration (t : R) (acc : Vec3) (d : SensorData)
  : SensorData :=
  mkSensorData
    (pushSample (acceleration d) (or0 (c1 acc)) (or0 (c2 acc)) (or0 (c3 acc)) t)
    (gyroscope d) (velocity d).

Definition recordRotation (t : R) (rot : Vec3) (d : SensorData) : SensorData :=
  mkSensorData
    (acceleration d)
    (pushSample (gyroscope d) (or0 (c2 rot) * 180 / PI)
                (or0 (c3 rot) * 180 / PI) (or0 (c1 rot) * 180 / PI) t)
    (velocity d).

Definition afterAcceleration (event : MotionEvent) (a : Analyzer) : SensorData :=
  match accelerationIncludingGravity event with
  | Some acc => recordAcceleration (eventTimestamp a event) acc (sensorData a)
  | None => sensorData a
  end.

Definition afterRotation (event : MotionEvent) (a : Analyzer) (d : SensorData)
  : SensorData :=
  match rotationRate event with
  | Some rot => recordRotation (eventTimestamp a event) rot d
  | None => d
  end.

(** The event makes a recording analyzer stop by itself. *)
Definition triggers (event : MotionEvent) (a : Analyzer) : bool :=
  match accelerationIncludingGravity event with
  | Some acc =>
      dueForCheck a (eventTimestamp a event)
      && bufferTriggers (bufferAfter a event acc)
  | None => false
  end.

Definition wf_data (d : SensorData) : Prop :=
  wf_stream (acceleration d) /\ wf_stream (gyroscope d).

Definition hasAcceleration (event : MotionEvent) : bool :=
  match accelerationIncludingGravity event with Some _ => true | None => false end.

Definition hasRotation (event : MotionEvent) : bool :=
  match rotationRate event with Some _ => true | None => false end.

(** Two buffer entries, the second made at least 0.5 s after the first. *)
Definition half_second_apart (p q : BufferPoint) : Prop :=
  5 / 10 <= pt_timestamp q - pt_timestamp p.

(** The auto-stop buffer of a recording: entries in the order of the checks
    that made them, at least 0.5 s apart, all made after the grace period,
    none later than the last check and none older than 3.0 s at that check. *)
Definition buffer_ok (a : Analyzer) : Prop :=
  StronglySorted half_second_apart (autoStopBuffer a) /\
  Forall (fun p => 10 < pt_timestamp p /\
                   pt_timestamp p <= lastAutoStopCheck a /\
                   lastAutoStopCheck a - pt_timestamp p <= 3)
         (autoStopBuffer a).

(** The values an event contributes to the streams: null components are
    read as 0, rotation rates are converted to degrees per second. *)
Definition forwardOf (event : MotionEvent) : R :=
  match accelerationIncludingGravity event with
  | Some acc => or0 (c1 acc)
  | None => 0
  end.

Definition pitchOf (event : MotionEvent) : R :=
  match rotationRate event with
  | Some rot => or0 (c2 rot) * 180 / PI
  | None => 0
  end.

(** ** Sample captures *)

(** Eight samples, the push-off spike at index 7: the interval is [2, 7]. *)
Definition spikeStream : Stream :=
  mkStream [0; 0; 0; 0; 0; 0; 0; 3] [0; 0; 0; 0; 0; 0; 0; 0]
           [0; 0; 0; 0; 0; 0; 0; 0] [0; 1; 2; 3; 4; 5; 6; 7].

(** Three samples of constant forward acceleration 2, every 0.1 s. *)
Definition constantStream : Stream :=
  mkStream [2; 2; 2] [0; 0; 0] [0; 0; 0] [0; 1 / 10; 2 / 10].

(** The deceleration scenario of the specification. *)
Definition scenarioData : SensorData :=
  mkSensorData
    (mkStream [5; 5; -1; -2; -1] [0; 0; 0; 0; 0] [0; 0; 0; 0; 0]
              [0; 1 / 10; 2 / 10; 3 / 10; 4 / 10])
    emptyStream (mkVelocity [] []).

(** A capture with acceleration samples and no angular-rate sample. *)
Definition noGyroData : SensorData :=
  mkSensorData constantStream emptyStream (mkVelocity [] []).

(** The same capture with two angular-rate samples of unequal magnitude. *)
Definition wobblyData : SensorData :=
  mkSensorData constantStream
               (mkStream [0; 2] [0; 0] [0; 0] [0; 1 / 10])
               (mkVelocity [] []).

(** Two stored throws with the same three metrics. *)
Definition steadyThrow (n : Z) : StoredThrow :=
  mkStoredThrow n n (Some 3) (Some 2) (Some 1) (Some (1 / 2)) (Some 90)
                "Very Good" 1.

Definition steadySession : list StoredThrow := [steadyThrow 1; steadyThrow 2].

(** Analyzers in the middle of a recording that started at time 0. *)
Definition recordingWith (d : SensorData) : Analyzer :=
  mkAnalyzer true d 0 [] 0 true emptyStorage [] 0.

(** Three acceleration samples and no angular-rate sample. *)
Definition shortRecording : Analyzer := recordingWith noGyroData.

(** One angular-rate sample and no acceleration sample. *)
Definition gyroOnlyData : SensorData :=
  mkSensorData emptyStream (mkStream [1] [0] [0] [0]) (mkVelocity [] []).

Definition gyroOnlyRecording : Analyzer := recordingWith gyroOnlyData.

(** A recording whose last five checks, 0.5 s apart, all saw calm motion,
    and the calm motion event that arrives at 13.0 s. *)
Definition calmRecording : Analyzer :=
  mkAnalyzer true noGyroData 0
             [mkPoint 1 (105 / 10); mkPoint 1 11; mkPoint 1 (115 / 10);
              mkPoint 1 12; mkPoint 1 (125 / 10)]
             (125 / 10) true emptyStorage [] 0.

Definition calmEvent : MotionEvent :=
  mkEvent 13000 (Some (mkVec3 (Some 1) None None)) None.

(** A motion event one second into the recording, with both readings. *)
Definition earlyEvent : MotionEvent :=
  mkEvent 1000 (Some (mkVec3 (Some 2) None None))
          (Some (mkVec3 None (Some 0) None)).

(** A session of three throws whose stability scores rise. *)
Definition risingThrow (n : Z) (score : R) : StoredThrow :=
  mkStoredThrow n n (Some 3) (Some 2) (Some 1) (Some (1 / 2)) (Some score)
                "Good" 1.

Definition risingSession : list StoredThrow :=
  [risingThrow 1 40; risingThrow 2 80; risingThrow 3 85].

(** A calm motion event 10.5 s into the recording. *)
Definition lateEvent : MotionEvent :=
  mkEvent 10500 (Some (mkVec3 (Some 1) None None)) None.

(** * Theorems *)

(** ** DeliveryTrimmer *)

Section Trimmer.

Variable accel : Stream.

Lemma findStart_spec (fuel : nat) (i0 : Z) :
  (0 <= i0)%Z ->
  (i0 + Z.of_nat fuel = len (x accel))%Z ->
  (forall j, (0 <= j < i0)%Z -> ~ 2 < totalAccel accel j) ->
  (exists i, first_exceeding accel i /\
             findStart accel fuel i0 = Z.max 0 (i - 5))
  \/ ((forall j, (0 <= j < len (x accel))%Z -> ~ 2 < totalAccel accel j) /\
      findStart accel fuel i0 = 0%Z).
Proof.
  revert i0. induction fuel as [|fuel IH]; intros i0 Hpos Hlen Hbefore.
  - right. split; [|reflexivity].
    intros j Hj. apply Hbefore. lia.
  - cbn [findStart]. unfold accelThreshold.
    destruct (Rlt_dec 2 (totalAccel accel i0)) as [Hhit|Hmiss].
    + left. exists i0. split; [|reflexivity].
      repeat split; try lia; assumption.
    + apply IH; try lia.
      intros j Hj. destruct (Z.eq_dec j i0) as [->|Hne]; [assumption|].
      apply Hbefore. lia.
Qed.

Lemma first_exceeding_unique (i j : Z) :
  first_exceeding accel i -> first_exceeding accel j -> i = j.
Proof.
  intros (Hi & Hhi & Hfi) (Hj & Hhj & Hfj).
  destruct (Z.lt_trichotomy i j) as [Hlt|[Heq|Hgt]]; [|assumption|].
  - exfalso. apply (Hfj i); [lia|assumption].
  - exfalso. apply (Hfi j); [lia|assumption].
Qed.

Lemma trimStartIndex_cases :
  (exists i, first_exceeding accel i /\
             trimStartIndex accel = Z.max 0 (i - 5))
  \/ ((forall j, (0 <= j < len (x accel))%Z -> ~ 2 < totalAccel accel j) /\
      trimStartIndex accel = 0%Z).
Proof.
  unfold trimStartIndex. apply findStart_spec.
  - lia.
  - unfold len. lia.
  - intros j Hj. lia.
Qed.

Lemma findEnd_spec (s : Z) (fuel : nat) (i c e : Z) :
  fuel = Z.to_nat (len (x accel) - i) ->
  end_invariant accel s i c ->
  (exists k, first_run_completes accel s k /\
             findEnd accel fuel i c e = (k - 20 + 10)%Z)
  \/ ((forall k, ~ run_completes accel s k) /\ findEnd accel fuel i c e = e).
Proof.
  revert i c. induction fuel as [|fuel IH]; intros i c Hfuel Hinv.
  - right. split; [|reflexivity].
    destruct Hinv as (_ & _ & _ & _ & Hnone).
    intros k Hrun. apply (Hnone k); [|assumption].
    destruct Hrun as (_ & Hk & _). lia.
  - destruct Hinv as (Hlo & Hc & Hcalm & Hmax & Hnone).
    cbn [findEnd]. unfold settleThreshold, settlePeriod.
    destruct (Rlt_dec (totalAccel accel i) (15 / 10)) as [Hi|Hi].
    + destruct (Z.leb_spec 20 (c + 1)) as [Hfull|Hshort].
      * left. exists i. split; [|reflexivity].
        split; [|assumption].
        repeat split; try lia.
        intros j Hj. destruct (Z.eq_dec j i) as [->|Hne]; [assumption|].
        apply Hcalm. lia.
      * apply IH; [lia|].
        repeat split; try lia.
        -- intros j Hj. destruct (Z.eq_dec j i) as [->|Hne]; [assumption|].
           apply Hcalm. lia.
        -- destruct Hmax as [Hedge|Hbreak].
           ++ left. lia.
           ++ right. replace (i + 1 - (c + 1) - 1)%Z with (i - c - 1)%Z by lia.
              assumption.
        -- intros k Hk. destruct (Z.eq_dec k i) as [->|Hne].
           ++ intros (Hs & _ & Hall).
              destruct Hmax as [Hedge|Hbreak]; [lia|].
              apply Hbreak. apply Hall. lia.
           ++ apply Hnone. lia.
    + apply IH; [lia|].
      repeat split; try lia.
      * right. replace (i + 1 - 0 - 1)%Z with i by lia. assumption.
      * intros k Hk. destruct (Z.eq_dec k i) as [->|Hne].
        -- intros (_ & _ & Hall). apply Hi. apply Hall. lia.
        -- apply Hnone. lia.
Qed.

Lemma first_run_unique (s k k' : Z) :
  first_run_completes accel s k -> first_run_completes accel s k' -> k = k'.
Proof.
  intros (Hk & Hfk) (Hk' & Hfk').
  destruct (Z.lt_trichotomy k k') as [Hlt|[Heq|Hgt]]; [|assumption|].
  - exfalso. apply (Hfk' k); assumption.
  - exfalso. apply (Hfk k'); assumption.
Qed.

Lemma trimEndIndex_cases :
  (exists k, first_run_completes accel (trimStartIndex accel) k /\
             trimEndIndex accel = (k - 20 + 10)%Z)
  \/ ((forall k, ~ run_completes accel (trimStartIndex accel) k) /\
      trimEndIndex accel = (len (x accel) - 1)%Z).
Proof.
  unfold trimEndIndex. cbv zeta. apply findEnd_spec.
  - f_equal.
  - repeat split; try lia.
    intros k Hk (Hs & _). lia.
Qed.

End Trimmer.

Lemma magnitude_on_axis (v : R) :
  0 <= v -> sqrt (v ^ 2 + 0 ^ 2 + 0 ^ 2) = v.
Proof.
  intros Hv. replace (v ^ 2 + 0 ^ 2 + 0 ^ 2) with (v * v) by ring.
  apply sqrt_square. assumption.
Qed.

(** C2. For a capture with a non-empty acceleration stream the trimmer takes
    startIndex = max(0, i - 5) at the first index i whose magnitude exceeds
    2.0, and startIndex = 0 when no magnitude exceeds 2.0 (so also when all
    stay below 2.0); scanning from startIndex + 30 it takes
    endIndex = k - 20 + 10 at the first index k where a run of 20 consecutive
    magnitudes below 1.5 completes, and the last index when no run completes.
    One of the two cases holds for each index. *)
Theorem trimmer_selects_interval (accel : Stream) :
  wf_stream accel ->
  x accel <> [] ->
  let startIndex := trimStartIndex accel in
  let endIndex := trimEndIndex accel in
  (forall i, first_exceeding accel i -> startIndex = Z.max 0 (i - 5)) /\
  ((forall i, (0 <= i < len (x accel))%Z -> totalAccel accel i <= 2) ->
   startIndex = 0%Z) /\
  ((forall i, (0 <= i < len (x accel))%Z -> totalAccel accel i < 2) ->
   startIndex = 0%Z) /\
  (forall k, first_run_completes accel startIndex k ->
             endIndex = (k - 20 + 10)%Z) /\
  ((forall k, ~ run_completes accel startIndex k) ->
   endIndex = (len (x accel) - 1)%Z) /\
  ((exists i, first_exceeding accel i) \/
   (forall i, (0 <= i < len (x accel))%Z -> totalAccel accel i <= 2)) /\
  ((exists k, first_run_completes accel startIndex k) \/
   (forall k, ~ run_completes accel startIndex k)).
Proof.
  intros _ _ startIndex endIndex. subst startIndex endIndex.
  assert (Hnone : (forall i, (0 <= i < len (x accel))%Z ->
                             totalAccel accel i <= 2) ->
                  trimStartIndex accel = 0%Z).
  { intros Hall.
    destruct (trimStartIndex_cases accel) as [(i & Hfirst & _)|[_ Hs]];
      [|assumption].
    destruct Hfirst as (Hi & Hhit & _). specialize (Hall i Hi). lra. }
  repeat split.
  - intros i Hfirst.
    destruct (trimStartIndex_cases accel) as [(i' & Hfirst' & Hs)|[Hno _]].
    + rewrite (first_exceeding_unique accel i i' Hfirst Hfirst'). assumption.
    + destruct Hfirst as (Hi & Hhit & _). exfalso. exact (Hno i Hi Hhit).
  - assumption.
  - intros Hall. apply Hnone. intros i Hi. specialize (Hall i Hi). lra.
  - intros k Hfirst.
    destruct (trimEndIndex_cases accel) as [(k' & Hfirst' & He)|[Hno _]].
    + rewrite (first_run_unique accel _ k k' Hfirst Hfirst'). assumption.
    + destruct Hfirst as (Hrun & _). exfalso. exact (Hno k Hrun).
  - intros Hno.
    destruct (trimEndIndex_cases accel) as [(k & (Hrun & _) & _)|[_ He]];
      [|assumption].
    exfalso. exact (Hno k Hrun).
  - destruct (trimStartIndex_cases accel) as [(i & Hfirst & _)|[Hno _]].
    + left. exists i. assumption.
    + right. intros i Hi. specialize (Hno i Hi). lra.
  - destruct (trimEndIndex_cases accel) as [(k & Hfirst & _)|[Hno _]].
    + left. exists k. assumption.
    + right. assumption.
Qed.

Lemma spikeStream_first_exceeding : first_exceeding spikeStream 7.
Proof.
  split; [split; [lia|reflexivity]|]. split.
  - change (totalAccel spikeStream 7) with (sqrt (3 ^ 2 + 0 ^ 2 + 0 ^ 2)).
    rewrite magnitude_on_axis; lra.
  - intros j Hj Hhit.
    assert (Hcases : (j = 0 \/ j = 1 \/ j = 2 \/ j = 3 \/ j = 4 \/ j = 5 \/ j = 6)%Z)
      by lia.
    destruct Hcases as [->|[->|[->|[->|[->|[->| ->]]]]]];
      change (totalAccel spikeStream _) with (sqrt (0 ^ 2 + 0 ^ 2 + 0 ^ 2)) in Hhit;
      rewrite magnitude_on_axis in Hhit; lra.
Qed.

Lemma trimmer_selects_interval_witness :
  wf_stream spikeStream /\ x spikeStream <> [] /\
  trimStartIndex spikeStream = 2%Z /\ trimEndIndex spikeStream = 7%Z.
Proof.
  assert (Hwf : wf_stream spikeStream) by (repeat split).
  assert (Hne : x spikeStream <> []) by discriminate.
  destruct (trimmer_selects_interval spikeStream Hwf Hne)
    as (Hstart & _ & _ & _ & Hend & _).
  split; [assumption|]. split; [assumption|]. split.
  - rewrite (Hstart 7%Z spikeStream_first_exceeding). reflexivity.
  - rewrite Hend; [reflexivity|].
    intros k (Hs & Hk & _).
    rewrite (Hstart 7%Z spikeStream_first_exceeding) in Hs.
    unfold len in Hk. cbn in Hk, Hs. lia.
Defined.

(** ** VelocityIntegrator *)

Lemma len_app_one {A} (arr : list A) (v : A) :
  len (arr ++ [v]) = (len arr + 1)%Z.
Proof. unfold len. rewrite length_app. cbn [length]. lia. Qed.

Lemma get_push_old (arr : list R) (v : R) (k : Z) :
  (0 <= k < len arr)%Z -> get (arr ++ [v]) k = get arr k.
Proof.
  intros Hk. unfold get. apply app_nth1. unfold len in Hk. lia.
Qed.

Lemma get_push_new (arr : list R) (v : R) :
  get (arr ++ [v]) (len arr) = v.
Proof.
  unfold get, len. rewrite Nat2Z.id, app_nth2 by lia.
  rewrite Nat.sub_diag. reflexivity.
Qed.

Section Integrator.

Variable accel : Stream.

Lemma integrate_spec (fuel : nat) (i : Z) (vel : Velocity) :
  len (vel_x vel) = i -> len (vel_timestamps vel) = i -> (1 <= i)%Z ->
  let out := integrate accel fuel i vel in
  len (vel_x out) = (i + Z.of_nat fuel)%Z /\
  len (vel_timestamps out) = (i + Z.of_nat fuel)%Z /\
  (forall k, (0 <= k < i)%Z ->
             get (vel_x out) k = get (vel_x vel) k /\
             get (vel_timestamps out) k = get (vel_timestamps vel) k) /\
  (forall k, (i <= k < i + Z.of_nat fuel)%Z ->
             get (vel_x out) k = get (vel_x out) (k - 1) + trapezoid accel k /\
             get (vel_timestamps out) k = get (timestamps accel) k).
Proof.
  revert i vel. induction fuel as [|fuel IH]; intros i vel Hx Ht Hi out.
  - subst out. cbn [integrate]. repeat split; try lia.
  - subst out. cbn [integrate].
    set (newVel := get (vel_x vel) (len (vel_x vel) - 1)
                   + (get (x accel) i + get (x accel) (i - 1)) / 2
                     * (get (timestamps accel) i - get (timestamps accel) (i - 1))).
    set (vel1 := mkVelocity (vel_x vel ++ [newVel])
                            (vel_timestamps vel ++ [get (timestamps accel) i])).
    assert (Hx1 : len (vel_x vel1) = (i + 1)%Z)
      by (unfold vel1; cbn [vel_x]; rewrite len_app_one; lia).
    assert (Ht1 : len (vel_timestamps vel1) = (i + 1)%Z)
      by (unfold vel1; cbn [vel_timestamps]; rewrite len_app_one; lia).
    destruct (IH (i + 1)%Z vel1 Hx1 Ht1 ltac:(lia))
      as (Hlen & Hlent & Hold & Hnew).
    assert (Hprefix : forall k, (0 <= k < i)%Z ->
              get (vel_x (integrate accel fuel (i + 1) vel1)) k
              = get (vel_x vel) k /\
              get (vel_timestamps (integrate accel fuel (i + 1) vel1)) k
              = get (vel_timestamps vel) k).
    { intros k Hk. destruct (Hold k ltac:(lia)) as [Hkx Hkt].
      rewrite Hkx, Hkt. unfold vel1. cbn [vel_x vel_timestamps].
      split; apply get_push_old; lia. }
    split; [lia|]. split; [lia|]. split; [exact Hprefix|].
    intros k Hk. destruct (Z.eq_dec k i) as [->|Hne].
    + destruct (Hold i ltac:(lia)) as [Hix Hit].
      destruct (Hprefix (i - 1)%Z ltac:(lia)) as [Hpx _].
      rewrite Hix, Hit, Hpx. unfold vel1. cbn [vel_x vel_timestamps].
      assert (Ex : get (vel_x vel ++ [newVel]) i = newVel)
        by (rewrite <- Hx; apply get_push_new).
      assert (Et : get (vel_timestamps vel ++ [get (timestamps accel) i]) i
                   = get (timestamps accel) i)
        by (rewrite <- Ht at 2; apply get_push_new).
      rewrite Ex, Et. unfold newVel, trapezoid. rewrite Hx. split; reflexivity.
    + apply Hnew. lia.
Qed.

Lemma velocityOf_spec :
  x accel <> [] ->
  let vel := velocityOf accel in
  len (vel_x vel) = len (x accel) /\
  len (vel_timestamps vel) = len (x accel) /\
  get (vel_x vel) 0 = 0 /\
  (forall k, (1 <= k < len (x accel))%Z ->
             get (vel_x vel) k = get (vel_x vel) (k - 1) + trapezoid accel k) /\
  (forall k, (0 <= k < len (x accel))%Z ->
             get (vel_timestamps vel) k = get (timestamps accel) k).
Proof.
  intros Hne vel. subst vel. unfold velocityOf.
  assert (Hpos : (1 <= len (x accel))%Z).
  { unfold len. destruct (x accel); [congruence|]. cbn [length]. lia. }
  destruct (integrate_spec (length (x accel) - 1) 1
              (mkVelocity [0] [get (timestamps accel) 0])
              eq_refl eq_refl ltac:(lia))
    as (Hlen & Hlent & Hold & Hnew).
  assert (Hfuel : (1 + Z.of_nat (length (x accel) - 1) = len (x accel))%Z)
    by (unfold len in *; lia).
  rewrite Hfuel in *.
  split; [assumption|]. split; [assumption|]. split.
  - destruct (Hold 0%Z ltac:(lia)) as [H0 _]. rewrite H0. reflexivity.
  - split.
    + intros k Hk. apply Hnew. assumption.
    + intros k Hk. destruct (Z.eq_dec k 0) as [->|Hnz].
      * destruct (Hold 0%Z ltac:(lia)) as [_ H0]. rewrite H0. reflexivity.
      * apply Hnew. lia.
Qed.

End Integrator.

(** C3. For a non-empty trimmed acceleration series the integrator returns a
    velocity series of the same length (timestamps copied), velocity[0] = 0,
    velocity[i] = velocity[i-1] + ((ax[i] + ax[i-1]) / 2) * (t[i] - t[i-1])
    for every later index, and hence velocity[i] = i * a * dt for a constant
    acceleration a sampled every dt. *)
Theorem velocity_is_trapezoidal (accel : Stream) :
  wf_stream accel ->
  x accel <> [] ->
  let ax := x accel in
  let t := timestamps accel in
  let vel := vel_x (velocityOf accel) in
  len vel = len ax /\
  len (vel_timestamps (velocityOf accel)) = len ax /\
  (forall i, (0 <= i < len ax)%Z ->
             get (vel_timestamps (velocityOf accel)) i = get t i) /\
  get vel 0 = 0 /\
  (forall i, (1 <= i < len ax)%Z ->
             get vel i
             = get vel (i - 1)
               + ((get ax i + get ax (i - 1)) / 2) * (get t i - get t (i - 1))) /\
  (forall a dt t0,
      (forall i, (0 <= i < len ax)%Z -> get ax i = a) ->
      (forall i, (0 <= i < len ax)%Z -> get t i = t0 + IZR i * dt) ->
      forall i, (0 <= i < len ax)%Z -> get vel i = IZR i * a * dt).
Proof.
  intros _ Hne ax t vel. subst ax t vel.
  destruct (velocityOf_spec accel Hne) as (Hlen & Hlent & H0 & Hstep & Hts).
  split; [assumption|]. split; [assumption|]. split; [assumption|].
  split; [assumption|]. split.
  - intros i Hi. rewrite (Hstep i Hi). reflexivity.
  - intros a dt t0 Hconst Huniform i Hi.
    assert (Hnat : forall n : nat, (Z.of_nat n < len (x accel))%Z ->
              get (vel_x (velocityOf accel)) (Z.of_nat n)
              = IZR (Z.of_nat n) * a * dt).
    { induction n as [|n IHn]; intros Hn.
      - cbn [Z.of_nat]. rewrite H0. ring.
      - rewrite Nat2Z.inj_succ in *. unfold Z.succ in *.
        rewrite (Hstep (Z.of_nat n + 1)%Z) by lia. unfold trapezoid.
        replace (Z.of_nat n + 1 - 1)%Z with (Z.of_nat n) by lia.
        rewrite IHn by lia.
        rewrite !Hconst, !Huniform by lia.
        rewrite plus_IZR. field. }
    rewrite <- (Z2Nat.id i) by lia. apply Hnat. rewrite Z2Nat.id; lia.
Qed.

Lemma velocity_is_trapezoidal_witness :
  wf_stream constantStream /\ x constantStream <> [] /\
  get (vel_x (velocityOf constantStream)) 2 = 2 * 2 * (1 / 10).
Proof.
  assert (Hwf : wf_stream constantStream) by (repeat split).
  assert (Hne : x constantStream <> []) by discriminate.
  destruct (velocity_is_trapezoidal constantStream Hwf Hne)
    as (_ & _ & _ & _ & _ & Hconst).
  split; [assumption|]. split; [assumption|].
  apply (Hconst 2 (1 / 10) 0).
  - intros i Hi.
    assert (Hcases : (i = 0 \/ i = 1 \/ i = 2)%Z)
      by (unfold len in Hi; cbn in Hi; lia).
    destruct Hcases as [->|[->| ->]]; reflexivity.
  - intros i Hi.
    assert (Hcases : (i = 0 \/ i = 1 \/ i = 2)%Z)
      by (unfold len in Hi; cbn in Hi; lia).
    destruct Hcases as [->|[->| ->]];
      [change (get (timestamps constantStream) 0) with 0
      |change (get (timestamps constantStream) 1) with (1 / 10)
      |change (get (timestamps constantStream) 2) with (2 / 10)]; lra.
  - unfold len. cbn. lia.
Defined.

(** ** Reductions of the source against sums *)

Lemma total_cons (v : R) (rest : list R) : total (v :: rest) = v + total rest.
Proof. reflexivity. Qed.

Lemma fold_left_add (f : R -> R) (values : list R) (a : R) :
  fold_left (fun acc val => acc + f val) values a = a + total (map f values).
Proof.
  unfold total.
  revert a. induction values as [|v rest IH]; intros a;
    cbn [fold_left map fold_right].
  - ring.
  - rewrite IH. ring.
Qed.

Lemma sum_total (values : list R) : sum values = total values.
Proof.
  unfold sum.
  change (fold_left Rplus values 0)
    with (fold_left (fun acc val => acc + (fun v : R => v) val) values 0).
  rewrite fold_left_add, map_id. ring.
Qed.

Lemma IZR_len {A} (arr : list A) : IZR (len arr) = INR (length arr).
Proof. unfold len. symmetry. apply INR_IZR_INZ. Qed.

Lemma calculateVariance_population (data : list R) :
  calculateVariance data = population_variance data.
Proof.
  destruct data as [|v rest]; [reflexivity|].
  unfold calculateVariance, population_variance, mean.
  rewrite fold_left_add, sum_total, IZR_len. f_equal. ring.
Qed.

Lemma total_squares_nonneg (m : R) (values : list R) :
  0 <= total (map (fun v => (v - m) ^ 2) values).
Proof.
  induction values as [|v rest IH]; cbn [map].
  - unfold total. cbn [fold_right]. lra.
  - rewrite total_cons.
    assert (0 <= (v - m) ^ 2) by apply pow2_ge_0. lra.
Qed.

Lemma population_variance_nonneg (values : list R) :
  0 <= population_variance values.
Proof.
  destruct values as [|v rest]; [cbn; lra|].
  unfold population_variance.
  apply Rmult_le_pos; [apply total_squares_nonneg|].
  apply Rlt_le, Rinv_0_lt_compat, lt_0_INR. cbn [length]. lia.
Qed.

(** ** StabilityAnalyzer: the scalar score *)

Lemma ln_10_pos : 0 < ln 10.
Proof. rewrite <- ln_1. apply ln_increasing; lra. Qed.

Lemma log10_monotone (u v : R) : 1 <= u -> u <= v -> log10 u <= log10 v.
Proof.
  intros Hu Huv. unfold log10.
  apply Rmult_le_compat_r; [apply Rlt_le, Rinv_0_lt_compat, ln_10_pos|].
  destruct (Req_dec u v) as [->|Hne]; [lra|].
  apply Rlt_le, ln_increasing; lra.
Qed.

Lemma stabilityScoreOf_bounds (v : R) : 0 <= stabilityScoreOf v <= 100.
Proof.
  unfold stabilityScoreOf. split; [apply Rmax_l|].
  apply Rmax_lub; [lra|apply Rmin_l].
Qed.

Lemma stabilityScoreOf_antitone (u v : R) :
  0 <= u -> u <= v -> stabilityScoreOf v <= stabilityScoreOf u.
Proof.
  intros Hu Huv. unfold stabilityScoreOf.
  assert (Hlog : log10 (u + 1) <= log10 (v + 1))
    by (apply log10_monotone; lra).
  apply Rmax_lub; [apply Rmax_l|].
  eapply Rle_trans; [|apply Rmax_r].
  apply Rmin_glb; [apply Rmin_l|].
  eapply Rle_trans; [apply Rmin_r|]. lra.
Qed.

Lemma stabilityScoreOf_zero : stabilityScoreOf 0 = 100.
Proof.
  unfold stabilityScoreOf, log10.
  replace (0 + 1) with 1 by ring. rewrite ln_1.
  replace (100 - 0 / ln 10 * 20) with 100 by (unfold Rdiv; ring).
  rewrite Rmin_left by lra. apply Rmax_right. lra.
Qed.

Lemma mapi_from_spec {A B} (f : A -> Z -> B) (d : B) (arr : list A) (i0 : Z) :
  length (mapi_from f i0 arr) = length arr /\
  forall n, (n < length arr)%nat ->
            forall a, nth n (mapi_from f i0 arr) d
                      = f (nth n arr a) (i0 + Z.of_nat n)%Z.
Proof.
  revert i0. induction arr as [|v rest IH]; intros i0.
  - split; [reflexivity|]. cbn. lia.
  - destruct (IH (i0 + 1)%Z) as [Hlen Hnth].
    split; [cbn; rewrite Hlen; reflexivity|].
    intros [|n] Hn a.
    + cbn. f_equal. lia.
    + cbn [mapi_from nth]. rewrite (Hnth n) with (a := a) by (cbn in Hn; lia).
      f_equal. lia.
Qed.

Lemma pitchRollOf_spec (gyro : Stream) :
  len (pitchRollOf gyro) = len (x gyro) /\
  forall i, (0 <= i < len (x gyro))%Z ->
            get (pitchRollOf gyro) i
            = sqrt (get (x gyro) i ^ 2 + get (y gyro) i ^ 2).
Proof.
  unfold pitchRollOf, mapi.
  set (f := fun (pitch : R) (i : Z) => sqrt (pitch ^ 2 + get (y gyro) i ^ 2)).
  destruct (mapi_from_spec f 0 (x gyro) 0%Z) as [Hlen Hnth].
  split; [unfold len; rewrite Hlen; reflexivity|].
  intros i Hi. unfold get at 1.
  rewrite (Hnth (Z.to_nat i)) with (a := 0) by (unfold len in Hi; lia).
  unfold f, get. rewrite Z.add_0_l, Z2Nat.id by lia. reflexivity.
Qed.

(** C4. The scalar stability score is
    max(0, min(100, 100 - log10(variance + 1) * 20)) for the population
    variance of the magnitudes sqrt(pitch[i]^2 + roll[i]^2); it lies in
    [0, 100], and of two inputs the one with the larger variance gets a score
    that is no greater. *)
Theorem stability_score_formula (d1 d2 : SensorData) :
  wf_stream (gyroscope d1) ->
  wf_stream (gyroscope d2) ->
  let magnitudes := fun d => pitchRollOf (gyroscope d) in
  let score := fun d => stabilityScore (calculateAnalysisMetrics d) in
  (len (magnitudes d1) = len (x (gyroscope d1)) /\
   forall i, (0 <= i < len (x (gyroscope d1)))%Z ->
             get (magnitudes d1) i
             = sqrt (get (x (gyroscope d1)) i ^ 2 + get (y (gyroscope d1)) i ^ 2)) /\
  score d1
  = Rmax 0 (Rmin 100
       (100 - log10 (population_variance (magnitudes d1) + 1) * 20)) /\
  0 <= score d1 <= 100 /\
  (population_variance (magnitudes d1) <= population_variance (magnitudes d2) ->
   score d2 <= score d1).
Proof.
  intros _ _ magnitudes score. subst magnitudes score. cbv beta.
  unfold calculateAnalysisMetrics. cbn [stabilityScore].
  rewrite !calculateVariance_population.
  split; [apply pitchRollOf_spec|].
  split; [reflexivity|].
  split; [apply stabilityScoreOf_bounds|].
  intros Hvar. apply stabilityScoreOf_antitone; [|assumption].
  apply population_variance_nonneg.
Qed.

Lemma stability_score_formula_witness :
  wf_stream (gyroscope noGyroData) /\ wf_stream (gyroscope wobblyData) /\
  stabilityScore (calculateAnalysisMetrics wobblyData)
  <= stabilityScore (calculateAnalysisMetrics noGyroData).
Proof.
  assert (Hwf1 : wf_stream (gyroscope noGyroData)) by (repeat split).
  assert (Hwf2 : wf_stream (gyroscope wobblyData)) by (repeat split).
  destruct (stability_score_formula noGyroData wobblyData Hwf1 Hwf2)
    as (_ & _ & _ & Hmono).
  split; [assumption|]. split; [assumption|].
  apply Hmono.
  change (population_variance (pitchRollOf (gyroscope noGyroData))) with 0.
  apply population_variance_nonneg.
Defined.

(** ** DeliveryMetricsExtractor: deceleration and glide *)

Lemma pushoffPeriodOf_div (accel : Stream) :
  pushoffPeriodOf accel = Z.of_nat (length (x accel) / 5).
Proof.
  unfold pushoffPeriodOf, len. symmetry. apply Int_part_spec.
  set (n := length (x accel)).
  pose proof (Nat.div_mod_eq n 5) as Hdiv.
  pose proof (Nat.mod_upper_bound n 5 ltac:(lia)) as Hmod.
  assert (Hn : IZR (Z.of_nat n)
               = 5 * IZR (Z.of_nat (n / 5)) + IZR (Z.of_nat (n mod 5))).
  { rewrite <- mult_IZR, <- plus_IZR. f_equal. lia. }
  assert (Hr : 0 <= IZR (Z.of_nat (n mod 5)) < 5).
  { split; [apply IZR_le; lia|apply IZR_lt; lia]. }
  rewrite Hn. lra.
Qed.

Lemma slice_from_skipn {A} (arr : list A) (p : nat) :
  (p <= length arr)%nat -> slice_from arr (Z.of_nat p) = skipn p arr.
Proof.
  intros Hp. unfold slice_from, slice, len.
  assert (Hs : (Z.of_nat p <? 0)%Z = false) by (apply Z.ltb_ge; lia).
  assert (Hl : (Z.of_nat (length arr) <? 0)%Z = false) by (apply Z.ltb_ge; lia).
  rewrite Hs, Hl.
  rewrite !Z.min_l by lia. rewrite Nat2Z.id.
  apply firstn_all2. rewrite length_skipn. lia.
Qed.

Lemma signedDecelRate_spec (accel : Stream) :
  signedDecelRate accel
  = match negatives_after_pushoff (x accel) with
    | [] => 0
    | negs => total negs / INR (length negs)
    end.
Proof.
  unfold signedDecelRate, negatives_after_pushoff.
  rewrite pushoffPeriodOf_div, slice_from_skipn
    by (apply Nat.Div0.div_le_upper_bound; lia).
  destruct (filter isNegative (skipn (length (x accel) / 5) (x accel)));
    [reflexivity|].
  rewrite sum_total, IZR_len. reflexivity.
Qed.

Lemma isNegative_true (a : R) : a < 0 -> isNegative a = true.
Proof. intros Ha. unfold isNegative. destruct (Rlt_dec a 0); [reflexivity|lra]. Qed.

Lemma isNegative_false (a : R) : 0 <= a -> isNegative a = false.
Proof. intros Ha. unfold isNegative. destruct (Rlt_dec a 0); [lra|reflexivity]. Qed.

Lemma isNegative_iff (a : R) : isNegative a = true <-> a < 0.
Proof.
  unfold isNegative. destruct (Rlt_dec a 0); split; intros; try assumption;
    try reflexivity; try discriminate; contradiction.
Qed.

Lemma glideEfficiencyOf_cases (decel : R) :
  let d := Rabs decel in
  (2 < d -> glideEfficiencyOf decel = "Poor (High Drag)"%string) /\
  (d < 5 / 10 -> glideEfficiencyOf decel = "Excellent"%string) /\
  (5 / 10 <= d < 1 -> glideEfficiencyOf decel = "Very Good"%string) /\
  (1 <= d <= 2 -> glideEfficiencyOf decel = "Good"%string).
Proof.
  intros d. subst d. unfold glideEfficiencyOf.
  destruct (Rlt_dec 2 (Rabs decel)); destruct (Rlt_dec (Rabs decel) (5 / 10));
    destruct (Rlt_dec (Rabs decel) 1); repeat split; intros;
    try reflexivity; lra.
Qed.

(** C5. decelRate is the absolute value of the mean of the strictly negative
    forward accelerations after the first floor(0.2 * n) samples, 0 when
    there is none; glideEfficiency is read off that absolute value, the
    high-drag check first; the series [5, 5, -1, -2, -1] has decelRate 4/3,
    which is 1.333 to three decimals, and is classified Good. *)
Theorem decel_rate_and_glide (d : SensorData) :
  let ax := x (acceleration d) in
  let m := calculateAnalysisMetrics d in
  pushoffPeriodOf (acceleration d) = Z.of_nat (length ax / 5) /\
  (forall a, In a (negatives_after_pushoff ax)
             <-> In a (skipn (length ax / 5) ax) /\ a < 0) /\
  decelRate m
  = match negatives_after_pushoff ax with
    | [] => 0
    | negs => Rabs (total negs / INR (length negs))
    end /\
  (2 < decelRate m -> glideEfficiency m = "Poor (High Drag)"%string) /\
  (decelRate m < 5 / 10 -> glideEfficiency m = "Excellent"%string) /\
  (5 / 10 <= decelRate m < 1 -> glideEfficiency m = "Very Good"%string) /\
  (1 <= decelRate m <= 2 -> glideEfficiency m = "Good"%string) /\
  (ax = [5; 5; -1; -2; -1] ->
   decelRate m = 4 / 3 /\ Rabs (decelRate m - 1333 / 1000) < 1 / 1000 /\
   glideEfficiency m = "Good"%string).
Proof.
  intros ax m. subst ax m.
  unfold calculateAnalysisMetrics. cbn [decelRate glideEfficiency].
  pose proof (glideEfficiencyOf_cases (signedDecelRate (acceleration d)))
    as (Hpoor & Hexc & Hvery & Hgood). cbv zeta in *.
  split; [apply pushoffPeriodOf_div|].
  split.
  { intros a. unfold negatives_after_pushoff.
    rewrite filter_In, isNegative_iff. reflexivity. }
  assert (Hrate : Rabs (signedDecelRate (acceleration d))
                  = match negatives_after_pushoff (x (acceleration d)) with
                    | [] => 0
                    | negs => Rabs (total negs / INR (length negs))
                    end).
  { rewrite signedDecelRate_spec.
    destruct (negatives_after_pushoff (x (acceleration d)));
      [apply Rabs_R0|reflexivity]. }
  split; [exact Hrate|].
  split; [exact Hpoor|]. split; [exact Hexc|]. split; [exact Hvery|].
  split; [exact Hgood|].
  intros Hax.
  assert (Hval : Rabs (signedDecelRate (acceleration d)) = 4 / 3).
  { rewrite Hrate, Hax. unfold negatives_after_pushoff.
    change (Nat.div (length [5; 5; -1; -2; -1]) 5) with 1%nat.
    cbn [skipn filter].
    rewrite (isNegative_false 5), !(isNegative_true (-1)), (isNegative_true (-2))
      by lra.
    unfold total. cbn [fold_right length INR].
    replace ((-1 + (-2 + (-1 + 0))) / (1 + 1 + 1)) with (- (4 / 3)) by field.
    rewrite Rabs_Ropp. apply Rabs_right. lra. }
  split; [exact Hval|]. split.
  - rewrite Hval. replace (4 / 3 - 1333 / 1000) with (1 / 3000) by field.
    rewrite Rabs_right; lra.
  - apply Hgood. rewrite Hval. lra.
Qed.

Lemma decel_rate_and_glide_witness :
  x (acceleration scenarioData) = [5; 5; -1; -2; -1] /\
  decelRate (calculateAnalysisMetrics scenarioData) = 4 / 3 /\
  glideEfficiency (calculateAnalysisMetrics scenarioData) = "Good"%string.
Proof.
  destruct (decel_rate_and_glide scenarioData)
    as (_ & _ & _ & _ & _ & _ & _ & Hscenario).
  destruct (Hscenario eq_refl) as (Hrate & _ & Hglide).
  split; [reflexivity|]. split; assumption.
Defined.

(** ** SessionAggregator: consistency *)

Lemma mean_nil : mean [] = 0.
Proof. unfold mean, total, Rdiv. cbn [fold_right]. ring. Qed.

Lemma calculateCV_spec (values : list R) :
  calculateCV values = coefficient_of_variation values.
Proof.
  unfold coefficient_of_variation.
  destruct values as [|v rest].
  - cbn [calculateCV]. rewrite mean_nil.
    destruct (Req_dec_T 0 0) as [_|Hne]; [reflexivity|congruence].
  - unfold calculateCV. cbv zeta.
    assert (Hmean : sum (v :: rest) / IZR (len (v :: rest)) = mean (v :: rest))
      by (unfold mean; rewrite sum_total, IZR_len; reflexivity).
    rewrite Hmean.
    assert (Hvar : fold_left (fun a w => a + (w - mean (v :: rest)) ^ 2)
                             (v :: rest) 0 / IZR (len (v :: rest))
                   = population_variance (v :: rest)).
    { unfold population_variance. rewrite fold_left_add, IZR_len.
      f_equal. ring. }
    rewrite Hvar. reflexivity.
Qed.

Section ConstantSeries.

Variable c : R.

Lemma constant_series_tail (v : R) (rest : list R) :
  constant_series c (v :: rest) -> v = c /\ constant_series c rest.
Proof.
  intros Hconst. split.
  - apply Hconst. left. reflexivity.
  - intros w Hw. apply Hconst. right. assumption.
Qed.

Lemma total_deviation_constant (m : R) (values : list R) :
  constant_series c values ->
  total (map (fun v => (v - m) ^ 2) values) = INR (length values) * (c - m) ^ 2.
Proof.
  induction values as [|v rest IH]; intros Hconst.
  - unfold total. cbn. ring.
  - destruct (constant_series_tail v rest Hconst) as [-> Hrest].
    cbn [map]. rewrite total_cons, (IH Hrest).
    change (length (c :: rest)) with (S (length rest)). rewrite S_INR. ring.
Qed.

Lemma total_constant (values : list R) :
  constant_series c values -> total values = INR (length values) * c.
Proof.
  induction values as [|v rest IH]; intros Hconst.
  - unfold total. cbn. ring.
  - destruct (constant_series_tail v rest Hconst) as [-> Hrest].
    rewrite total_cons, (IH Hrest).
    change (length (c :: rest)) with (S (length rest)). rewrite S_INR. ring.
Qed.

Lemma population_variance_constant (values : list R) :
  constant_series c values -> population_variance values = 0.
Proof.
  intros Hconst. unfold population_variance.
  destruct values as [|v rest] eqn:Hvalues; [reflexivity|].
  rewrite <- Hvalues in *.
  assert (Hn : INR (length values) <> 0).
  { rewrite Hvalues. apply not_0_INR. discriminate. }
  rewrite (total_deviation_constant _ _ Hconst). unfold mean.
  rewrite (total_constant _ Hconst). field. assumption.
Qed.

Lemma coefficient_of_variation_constant (values : list R) :
  constant_series c values -> coefficient_of_variation values = 0.
Proof.
  intros Hconst. unfold coefficient_of_variation, std_dev.
  destruct (Req_dec_T (mean values) 0); [reflexivity|].
  rewrite (population_variance_constant _ Hconst), sqrt_0. unfold Rdiv. ring.
Qed.

End ConstantSeries.

(** C9. For a non-empty sequence of throws the summary exists and its
    consistency is max(0, 100 - avgCV * 10), avgCV being the mean of the
    coefficients of variation (stdDev / mean * 100, 0 when the mean is 0) of
    the pushoff, velocity and stability sequences; it is 100 when each of the
    three sequences is constant. *)
Theorem consistency_formula (throws : list StoredThrow) :
  throws <> [] ->
  let pushoffs := map (fun t => or0 (st_pushoffStrength t)) throws in
  let velocities := map (fun t => or0 (st_peakVelocity t)) throws in
  let stabilities := map (fun t => or0 (st_stabilityScore t)) throws in
  let avgCV :=
    (coefficient_of_variation pushoffs + coefficient_of_variation velocities
     + coefficient_of_variation stabilities) / 3 in
  exists summary,
    calculateSessionSummary throws = Some summary /\
    consistency summary = Rmax 0 (100 - avgCV * 10) /\
    (forall p v s,
        (forall a, In a pushoffs -> a = p) ->
        (forall a, In a velocities -> a = v) ->
        (forall a, In a stabilities -> a = s) ->
        consistency summary = 100).
Proof.
  intros Hne pushoffs velocities stabilities avgCV.
  destruct throws as [|t rest]; [congruence|].
  unfold calculateSessionSummary. cbv zeta.
  eexists. split; [reflexivity|]. cbn [consistency].
  fold pushoffs velocities stabilities.
  rewrite !calculateCV_spec. fold avgCV.
  split; [reflexivity|].
  intros p v s Hp Hv Hs. subst avgCV.
  rewrite (coefficient_of_variation_constant p pushoffs Hp),
          (coefficient_of_variation_constant v velocities Hv),
          (coefficient_of_variation_constant s stabilities Hs).
  replace (100 - (0 + 0 + 0) / 3 * 10) with 100 by field.
  apply Rmax_right. lra.
Qed.

Lemma consistency_formula_witness :
  steadySession <> [] /\
  exists summary,
    calculateSessionSummary steadySession = Some summary /\
    consistency summary = 100.
Proof.
  assert (Hne : steadySession <> []) by discriminate.
  split; [assumption|].
  destruct (consistency_formula steadySession Hne)
    as (summary & Hsome & _ & Hconst).
  exists summary. split; [assumption|].
  apply (Hconst 3 2 90).
  - intros a [<-|[<-|[]]]; reflexivity.
  - intros a [<-|[<-|[]]]; reflexivity.
  - intros a [<-|[<-|[]]]; reflexivity.
Defined.

(** ** The pipeline run by stopRecording *)

Lemma trim_range (accel : Stream) :
  x accel <> [] ->
  (0 <= trimStartIndex accel <= trimEndIndex accel)%Z /\
  (trimEndIndex accel < len (x accel))%Z.
Proof.
  intros Hne.
  assert (Hpos : (0 < len (x accel))%Z).
  { unfold len. destruct (x accel); [congruence|]. cbn [length]. lia. }
  assert (Hs : (0 <= trimStartIndex accel < len (x accel))%Z).
  { destruct (trimStartIndex_cases accel) as [(i & (Hi & _) & ->)|[_ ->]]; lia. }
  destruct (trimEndIndex_cases accel)
    as [(k & ((Hlo & Hk & _) & _) & ->)|[_ ->]]; lia.
Qed.

Lemma slice_length {A} (arr : list A) (s e : Z) :
  (0 <= s <= e)%Z -> (e <= len arr)%Z -> len (slice arr s e) = (e - s)%Z.
Proof.
  intros Hs He. unfold slice.
  assert (Hs' : (s <? 0)%Z = false) by (apply Z.ltb_ge; lia).
  assert (He' : (e <? 0)%Z = false) by (apply Z.ltb_ge; lia).
  rewrite Hs', He'. unfold len in *.
  rewrite length_firstn, length_skipn. lia.
Qed.

Lemma slice_length_le {A} (arr : list A) (s e : Z) :
  (length (slice arr s e) <= length arr)%nat.
Proof.
  unfold slice. rewrite length_firstn, length_skipn. lia.
Qed.

(** The trimmed interval is never empty and never longer than the capture. *)
Lemma trimmed_acceleration_length (d : SensorData) :
  x (acceleration d) <> [] ->
  (1 <= len (x (acceleration (trimToActualThrow d))) <= len (x (acceleration d)))%Z.
Proof.
  intros Hne. unfold trimToActualThrow.
  destruct (trim_range (acceleration d) Hne) as [Hs He].
  destruct (x (acceleration d)) as [|v rest] eqn:Hx; [congruence|].
  cbn [acceleration x]. rewrite <- Hx in *.
  rewrite slice_length by lia. lia.
Qed.

Lemma trimmed_acceleration_short (d : SensorData) :
  (length (x (acceleration (trimToActualThrow d)))
   <= length (x (acceleration d)))%nat.
Proof.
  unfold trimToActualThrow.
  destruct (x (acceleration d)) as [|v rest] eqn:Hx.
  - rewrite Hx. cbn. lia.
  - cbn [acceleration x]. rewrite <- Hx. apply slice_length_le.
Qed.

Lemma hasData_sensorData (a b : Analyzer) :
  sensorData a = sensorData b -> hasData a = hasData b.
Proof. intros H. unfold hasData. rewrite H. reflexivity. Qed.

Lemma hasData_processed (a : Analyzer) :
  hasData a = true ->
  hasData (with_sensorData a (calculateVelocity (trimToActualThrow (sensorData a))))
  = true.
Proof.
  intros Hdata. unfold hasData in *.
  cbn [with_sensorData sensorData calculateVelocity acceleration gyroscope].
  destruct (x (acceleration (sensorData a))) as [|v rest] eqn:Hx.
  - unfold trimToActualThrow. rewrite Hx. rewrite Hx. exact Hdata.
  - assert (Hne : x (acceleration (sensorData a)) <> [])
      by (rewrite Hx; discriminate).
    pose proof (trimmed_acceleration_length (sensorData a) Hne) as [Hlen _].
    apply orb_true_iff. left. apply Z.ltb_lt. lia.
Qed.

Lemma stopRecording_with_data (now : Z) (a : Analyzer) :
  hasData a = true ->
  let d := calculateVelocity (trimToActualThrow (sensorData a)) in
  stopRecording now a
  = mkAnalyzer false d (startTime a) (autoStopBuffer a) (lastAutoStopCheck a)
               false
               (saveThrowToSession now (calculateAnalysisMetrics d)
                                   (localStorage a))
               (alerts a) (autoStopNotifications a).
Proof.
  intros Hdata d. unfold stopRecording.
  set (a1 := mkAnalyzer false (sensorData a) (startTime a) (autoStopBuffer a)
                        (lastAutoStopCheck a) false (localStorage a) (alerts a)
                        (autoStopNotifications a)).
  assert (H1 : hasData a1 = true)
    by (rewrite <- Hdata; apply hasData_sensorData; reflexivity).
  unfold processData. rewrite H1. cbn [negb].
  unfold showAnalysis. rewrite (hasData_processed a1 H1). cbn [negb].
  reflexivity.
Qed.

Lemma stopRecording_without_data (now : Z) (a : Analyzer) :
  hasData a = false ->
  stopRecording now a
  = mkAnalyzer false (sensorData a) (startTime a) (autoStopBuffer a)
               (lastAutoStopCheck a) false (localStorage a)
               (alerts a ++ ["No sensor data recorded. Please try again."%string])
               (autoStopNotifications a).
Proof.
  intros Hdata. unfold stopRecording.
  set (a1 := mkAnalyzer false (sensorData a) (startTime a) (autoStopBuffer a)
                        (lastAutoStopCheck a) false (localStorage a) (alerts a)
                        (autoStopNotifications a)).
  assert (H1 : hasData a1 = false)
    by (rewrite <- Hdata; apply hasData_sensorData; reflexivity).
  unfold processData. rewrite H1. cbn [negb].
  unfold showAnalysis.
  match goal with |- context [hasData ?b] =>
    replace (hasData b) with false
      by (rewrite <- H1; apply hasData_sensorData; reflexivity)
  end.
  reflexivity.
Qed.

Lemma isRecording_stopRecording (now : Z) (a : Analyzer) :
  isRecording (stopRecording now a) = false.
Proof.
  destruct (hasData a) eqn:Hdata.
  - rewrite (stopRecording_with_data now a Hdata). reflexivity.
  - rewrite (stopRecording_without_data now a Hdata). reflexivity.
Qed.

Lemma storedThrows_save (now : Z) (analysis : Analysis) (ls : Storage) :
  exists t,
    storedThrows (saveThrowToSession now analysis ls) = storedThrows ls ++ [t] /\
    curling_latest_throw (saveThrowToSession now analysis ls) = Some t /\
    id t = now /\
    st_pushoffStrength t = JSON_number (pushoffStrength analysis) /\
    st_peakVelocity t = JSON_number (peakVelocity analysis) /\
    st_stabilityScore t = Some (stabilityScore analysis).
Proof.
  unfold saveThrowToSession, storedThrows. cbn.
  eexists. repeat split.
Qed.

Lemma slice_same {A} (arr : list A) (s : Z) : slice arr s s = [].
Proof. unfold slice. rewrite Z.sub_diag. reflexivity. Qed.

Lemma pushoff_window_empty (d : SensorData) :
  (length (x (acceleration d)) < 5)%nat ->
  pushoffStrength (calculateAnalysisMetrics d) = NegInfinity.
Proof.
  intros Hshort. unfold calculateAnalysisMetrics. cbn [pushoffStrength].
  rewrite pushoffPeriodOf_div, Nat.div_small by assumption.
  change (Z.of_nat 0) with 0%Z. rewrite slice_same. reflexivity.
Qed.

(** ** Finiteness of the metrics record *)

Lemma Math_max_from_finite (values : list R) (r : R) :
  exists m, fold_left js_max2 values (Finite r) = Finite m.
Proof.
  revert r. induction values as [|v rest IH]; intros r; cbn [fold_left js_max2].
  - exists r. reflexivity.
  - apply IH.
Qed.

Lemma Math_max_finite (values : list R) :
  values <> [] -> isFinite (Math_max values) = true.
Proof.
  intros Hne. destruct values as [|v rest]; [congruence|].
  unfold Math_max. cbn [fold_left js_max2].
  destruct (Math_max_from_finite rest v) as [m ->]. reflexivity.
Qed.

Lemma velocityOf_nonempty (accel : Stream) : vel_x (velocityOf accel) <> [].
Proof.
  unfold velocityOf.
  destruct (integrate_spec accel (length (x accel) - 1) 1
              (mkVelocity [0] [get (timestamps accel) 0])
              eq_refl eq_refl ltac:(lia)) as (Hlen & _).
  intros Hnil. rewrite Hnil in Hlen. unfold len in Hlen.
  cbn [length] in Hlen. lia.
Qed.

(** With five samples or more after trimming, both maxima are finite. *)
Lemma metrics_finite_from_five_samples (d : SensorData) :
  (5 <= length (x (acceleration d)))%nat ->
  let m := calculateAnalysisMetrics (calculateVelocity d) in
  isFinite (pushoffStrength m) = true /\ isFinite (peakVelocity m) = true.
Proof.
  intros Hlong m. subst m. unfold calculateAnalysisMetrics, calculateVelocity.
  cbn [pushoffStrength peakVelocity acceleration velocity].
  split; apply Math_max_finite; intros Hnil; apply map_eq_nil in Hnil.
  - assert (Hlen : len (slice (x (acceleration d)) 0
                          (pushoffPeriodOf (acceleration d)))
                   = (pushoffPeriodOf (acceleration d) - 0)%Z).
    { rewrite pushoffPeriodOf_div. apply slice_length.
      - lia.
      - unfold len. apply inj_le, Nat.Div0.div_le_upper_bound. lia. }
    rewrite Hnil, pushoffPeriodOf_div in Hlen. unfold len in Hlen.
    cbn [length] in Hlen.
    assert (1 <= length (x (acceleration d)) / 5)%nat
      by (apply Nat.div_le_lower_bound; lia).
    lia.
  - exact (velocityOf_nonempty _ Hnil).
Qed.

(** C1 (the code at the failing inputs). When a capture that has data holds
    fewer than five acceleration samples, the record that stopRecording hands
    to persistence has pushoffStrength = -Infinity, and the throw written to
    storage carries null in its place. *)
Theorem short_capture_pushoff_not_finite (now : Z) (a : Analyzer) :
  hasData a = true ->
  (length (x (acceleration (sensorData a))) < 5)%nat ->
  let a' := stopRecording now a in
  let record := calculateAnalysisMetrics (sensorData a') in
  pushoffStrength record = NegInfinity /\
  isFinite (pushoffStrength record) = false /\
  exists t,
    storedThrows (localStorage a') = storedThrows (localStorage a) ++ [t] /\
    curling_latest_throw (localStorage a') = Some t /\
    st_pushoffStrength t = None.
Proof.
  intros Hdata Hshort a' record. subst a' record.
  rewrite (stopRecording_with_data now a Hdata).
  cbn [sensorData localStorage].
  set (d := calculateVelocity (trimToActualThrow (sensorData a))).
  assert (Hneg : pushoffStrength (calculateAnalysisMetrics d) = NegInfinity).
  { apply pushoff_window_empty. unfold d. cbn [calculateVelocity acceleration].
    pose proof (trimmed_acceleration_short (sensorData a)). lia. }
  split; [exact Hneg|]. split; [rewrite Hneg; reflexivity|].
  destruct (storedThrows_save now (calculateAnalysisMetrics d) (localStorage a))
    as (t & Hthrows & Hlatest & _ & Hpush & _).
  exists t. split; [exact Hthrows|]. split; [exact Hlatest|].
  rewrite Hpush, Hneg. reflexivity.
Qed.

Lemma short_capture_pushoff_not_finite_witness :
  hasData shortRecording = true /\
  (length (x (acceleration (sensorData shortRecording))) < 5)%nat /\
  pushoffStrength
    (calculateAnalysisMetrics (sensorData (stopRecording 1 shortRecording)))
  = NegInfinity.
Proof.
  assert (Hdata : hasData shortRecording = true) by reflexivity.
  assert (Hshort : (length (x (acceleration (sensorData shortRecording))) < 5)%nat)
    by (cbn; lia).
  split; [assumption|]. split; [assumption|].
  exact (proj1 (short_capture_pushoff_not_finite 1 shortRecording Hdata Hshort)).
Defined.

(** ** NoData *)

(** C7 (as amended). When the acceleration stream and the angular-rate
    stream are both empty, stopRecording reports the missing data by an alert
    and returns: the sensor data are untouched and no throw record is created
    or written to storage. *)
Theorem no_data_no_record (now : Z) (a : Analyzer) :
  x (acceleration (sensorData a)) = [] ->
  x (gyroscope (sensorData a)) = [] ->
  let a' := stopRecording now a in
  localStorage a' = localStorage a /\
  sensorData a' = sensorData a /\
  alerts a' = alerts a ++ ["No sensor data recorded. Please try again."%string] /\
  isRecording a' = false.
Proof.
  intros Hacc Hgyro a'. subst a'.
  assert (Hdata : hasData a = false)
    by (unfold hasData; rewrite Hacc, Hgyro; reflexivity).
  rewrite (stopRecording_without_data now a Hdata).
  repeat split.
Qed.

Lemma no_data_no_record_witness :
  x (acceleration (sensorData (recordingWith emptySensorData))) = [] /\
  x (gyroscope (sensorData (recordingWith emptySensorData))) = [] /\
  localStorage (stopRecording 1 (recordingWith emptySensorData)) = emptyStorage.
Proof.
  split; [reflexivity|]. split; [reflexivity|].
  exact (proj1 (no_data_no_record 1 (recordingWith emptySensorData)
                                  eq_refl eq_refl)).
Defined.

(** C7 fails as stated: one angular-rate sample and no acceleration sample.
    The trimmed acceleration stream is empty, and yet a throw is written. *)
Lemma gyro_only_capture_is_persisted :
  x (acceleration (sensorData (stopRecording 1 gyroOnlyRecording))) = [] /\
  storedThrows (localStorage gyroOnlyRecording) = [] /\
  length (storedThrows (localStorage (stopRecording 1 gyroOnlyRecording))) = 1%nat /\
  alerts (stopRecording 1 gyroOnlyRecording) = [].
Proof.
  assert (Hdata : hasData gyroOnlyRecording = true) by reflexivity.
  rewrite (stopRecording_with_data 1 gyroOnlyRecording Hdata).
  cbn [sensorData localStorage alerts].
  split; [reflexivity|]. split; [reflexivity|]. split; [|reflexivity].
  destruct (storedThrows_save 1
              (calculateAnalysisMetrics
                 (calculateVelocity
                    (trimToActualThrow (sensorData gyroOnlyRecording))))
              (localStorage gyroOnlyRecording)) as (t & -> & _).
  reflexivity.
Qed.

(** ** Stopping twice *)

Lemma hasData_stopRecording (now : Z) (a : Analyzer) :
  hasData a = true -> hasData (stopRecording now a) = true.
Proof.
  intros Hdata. rewrite (stopRecording_with_data now a Hdata).
  rewrite <- (hasData_processed a Hdata).
  apply hasData_sensorData. reflexivity.
Qed.

Lemma stopRecording_appends (now : Z) (a : Analyzer) :
  hasData a = true ->
  exists t,
    storedThrows (localStorage (stopRecording now a))
    = storedThrows (localStorage a) ++ [t] /\
    id t = now /\
    st_stabilityScore t
    = Some (stabilityScore
              (calculateAnalysisMetrics (sensorData (stopRecording now a)))).
Proof.
  intros Hdata. rewrite (stopRecording_with_data now a Hdata).
  cbn [localStorage sensorData].
  destruct (storedThrows_save now
              (calculateAnalysisMetrics
                 (calculateVelocity (trimToActualThrow (sensorData a))))
              (localStorage a)) as (t & Hthrows & _ & Hid & _ & _ & Hscore).
  exists t. repeat split; assumption.
Qed.

(** C8 (as amended). Every trigger of a stop is gated on isRecording, and
    stopRecording leaves isRecording false and the motion listener detached:
    after a stop, a page-hidden stop command and any further motion event,
    hence any auto-stop signal, leave the whole analyzer, with its sensor
    data, derived series and stored throws, as it is, and the record button
    issues a start. *)
Theorem stop_triggers_are_gated (now : Z) (a : Analyzer) :
  let a' := stopRecording now a in
  isRecording a' = false /\
  listening a' = false /\
  (forall now' hidden, visibilitychange now' hidden a' = a') /\
  (forall event, deviceMotionHandler event a' = a') /\
  (forall event, devicemotion event a' = a') /\
  (forall now' granted,
      recordBtn_click now' granted a' = startRecording now' granted a').
Proof.
  intros a'.
  assert (Hrec : isRecording a' = false) by apply isRecording_stopRecording.
  assert (Hlis : listening a' = false).
  { subst a'. destruct (hasData a) eqn:Hdata.
    - rewrite (stopRecording_with_data now a Hdata). reflexivity.
    - rewrite (stopRecording_without_data now a Hdata). reflexivity. }
  split; [exact Hrec|]. split; [exact Hlis|]. split; [|split; [|split]].
  - intros now' hidden. unfold visibilitychange. rewrite Hrec.
    rewrite andb_false_r. reflexivity.
  - intros event. unfold deviceMotionHandler. rewrite Hrec. reflexivity.
  - intros event. unfold devicemotion. rewrite Hlis. reflexivity.
  - intros now' granted. unfold recordBtn_click. rewrite Hrec. reflexivity.
Qed.

(** C8 fails as stated: a second call of stopRecording is not a no-op, it
    runs the pipeline again and appends a second throw; and a second click
    on the record button starts a recording, which empties the sensor data
    the first click left. *)
Lemma second_stopRecording_appends_a_throw :
  length (storedThrows (localStorage (stopRecording 1 shortRecording))) = 1%nat /\
  length (storedThrows
            (localStorage (stopRecording 2 (stopRecording 1 shortRecording))))
  = 2%nat /\
  stopRecording 2 (stopRecording 1 shortRecording)
  <> stopRecording 1 shortRecording /\
  sensorData (recordBtn_click 1 true shortRecording) <> emptySensorData /\
  sensorData (recordBtn_click 2 true (recordBtn_click 1 true shortRecording))
  = emptySensorData.
Proof.
  assert (Hdata : hasData shortRecording = true) by reflexivity.
  pose proof (hasData_stopRecording 1 shortRecording Hdata) as Hdata'.
  destruct (stopRecording_appends 1 shortRecording Hdata) as (t1 & H1 & _).
  destruct (stopRecording_appends 2 _ Hdata') as (t2 & H2 & _).
  assert (Hone : length (storedThrows (localStorage (stopRecording 1 shortRecording)))
                 = 1%nat) by (rewrite H1; reflexivity).
  assert (Htwo : length (storedThrows
                   (localStorage (stopRecording 2 (stopRecording 1 shortRecording))))
                 = 2%nat)
    by (rewrite H2, length_app, Hone; reflexivity).
  split; [exact Hone|]. split; [exact Htwo|]. split.
  { intros Heq. rewrite Heq, Hone in Htwo. discriminate. }
  change (recordBtn_click 1 true shortRecording)
    with (stopRecording 1 shortRecording).
  split.
  - intros Hempty.
    assert (Hhas : hasData (stopRecording 1 shortRecording) = false)
      by (unfold hasData; rewrite Hempty; reflexivity).
    congruence.
  - unfold recordBtn_click. rewrite isRecording_stopRecording. reflexivity.
Qed.

(** ** A delivery without angular-rate samples *)

Lemma trimmed_gyroscope_empty (d : SensorData) :
  x (gyroscope d) = [] -> x (gyroscope (trimToActualThrow d)) = [].
Proof.
  intros Hgyro. unfold trimToActualThrow.
  destruct (x (acceleration d)); [assumption|].
  cbn [gyroscope]. rewrite Hgyro. assumption.
Qed.

(** C10. When the trimmed angular-rate stream of a delivery is empty, the
    variance of the magnitude series is 0 and the record the extractor builds
    has stabilityScore exactly 100; the capture having acceleration samples,
    stopRecording analyses those data and writes a throw with that score to
    storage. *)
Theorem no_gyro_scores_100 (now : Z) (a : Analyzer) :
  x (gyroscope (trimToActualThrow (sensorData a))) = [] ->
  let d := calculateVelocity (trimToActualThrow (sensorData a)) in
  calculateVariance (pitchRollOf (gyroscope d)) = 0 /\
  stabilityScore (calculateAnalysisMetrics d) = 100 /\
  (x (acceleration (sensorData a)) <> [] ->
   sensorData (stopRecording now a) = d /\
   exists t,
     storedThrows (localStorage (stopRecording now a))
     = storedThrows (localStorage a) ++ [t] /\
     st_stabilityScore t = Some 100).
Proof.
  intros Hgyro d.
  assert (Hvar : calculateVariance (pitchRollOf (gyroscope d)) = 0).
  { unfold pitchRollOf, d. cbn [calculateVelocity gyroscope].
    rewrite Hgyro. reflexivity. }
  assert (Hscore : stabilityScore (calculateAnalysisMetrics d) = 100).
  { unfold calculateAnalysisMetrics. cbn [stabilityScore].
    rewrite Hvar. apply stabilityScoreOf_zero. }
  split; [exact Hvar|]. split; [exact Hscore|].
  intros Hacc.
  assert (Hdata : hasData a = true).
  { unfold hasData. apply orb_true_iff. left. apply Z.ltb_lt.
    unfold len. destruct (x (acceleration (sensorData a))); [congruence|].
    cbn [length]. lia. }
  assert (Hd : sensorData (stopRecording now a) = d)
    by (rewrite (stopRecording_with_data now a Hdata); reflexivity).
  split; [exact Hd|].
  destruct (stopRecording_appends now a Hdata) as (t & Hthrows & _ & Ht).
  exists t. split; [exact Hthrows|]. rewrite Ht, Hd, Hscore. reflexivity.
Qed.

Lemma no_gyro_scores_100_witness :
  x (gyroscope (trimToActualThrow (sensorData shortRecording))) = [] /\
  x (acceleration (sensorData shortRecording)) <> [] /\
  exists t,
    storedThrows (localStorage (stopRecording 1 shortRecording)) = [t] /\
    st_stabilityScore t = Some 100.
Proof.
  assert (Hgyro : x (gyroscope (trimToActualThrow (sensorData shortRecording))) = [])
    by (apply trimmed_gyroscope_empty; reflexivity).
  assert (Hacc : x (acceleration (sensorData shortRecording)) <> [])
    by discriminate.
  split; [assumption|]. split; [assumption|].
  destruct (no_gyro_scores_100 1 shortRecording Hgyro) as (_ & _ & Hstored).
  destruct (Hstored Hacc) as (_ & t & Hthrows & Ht).
  exists t. split; [exact Hthrows|exact Ht].
Defined.

(** ** AutoStopDetector *)

Lemma stopRecording_fields (now : Z) (a : Analyzer) :
  isRecording (stopRecording now a) = false /\
  listening (stopRecording now a) = false /\
  startTime (stopRecording now a) = startTime a /\
  autoStopBuffer (stopRecording now a) = autoStopBuffer a /\
  lastAutoStopCheck (stopRecording now a) = lastAutoStopCheck a /\
  autoStopNotifications (stopRecording now a) = autoStopNotifications a.
Proof.
  destruct (hasData a) eqn:Hdata.
  - rewrite (stopRecording_with_data now a Hdata). repeat split.
  - rewrite (stopRecording_without_data now a Hdata). repeat split.
Qed.

Lemma devicemotion_stopped (event : MotionEvent) (a : Analyzer) :
  isRecording a = false -> devicemotion event a = a.
Proof.
  intros Hrec. unfold devicemotion, deviceMotionHandler. rewrite Hrec.
  destruct (listening a); reflexivity.
Qed.

Lemma devicemotion_detached (event : MotionEvent) (a : Analyzer) :
  listening a = false -> devicemotion event a = a.
Proof. intros Hlis. unfold devicemotion. rewrite Hlis. reflexivity. Qed.

Lemma handler_step (event : MotionEvent) (a : Analyzer) :
  isRecording a = true -> listening a = true ->
  let a' := devicemotion event a in
  let t := eventTimestamp a event in
  startTime a' = startTime a /\
  match accelerationIncludingGravity event with
  | Some acc =>
      if dueForCheck a t
      then
        lastAutoStopCheck a' = t /\
        if bufferTriggers (bufferAfter a event acc)
        then autoStopNotifications a' = S (autoStopNotifications a) /\
             isRecording a' = false /\ listening a' = false
        else autoStopNotifications a' = autoStopNotifications a /\
             isRecording a' = true /\ listening a' = true /\
             autoStopBuffer a' = bufferAfter a event acc
      else detector_unchanged a a'
  | None => detector_unchanged a a'
  end.
Proof.
  intros Hrec Hlis a' t. subst a' t.
  unfold devicemotion. rewrite Hlis.
  unfold deviceMotionHandler. rewrite Hrec. cbn [negb].
  destruct (accelerationIncludingGravity event) as [acc|].
  - match goal with |- context [dueForCheck ?b ?t] =>
      change (dueForCheck b t) with (dueForCheck a t)
    end.
    destruct (dueForCheck a (eventTimestamp a event)).
    + unfold checkAutoStop.
      match goal with |- context [filter ?f ?l] =>
        change (filter f l) with (bufferAfter a event acc)
      end.
      unfold bufferTriggers.
      destruct (Rle_dec (autoStopDuration / autoStopCheckInterval)
                        (IZR (len (bufferAfter a event acc)))).
      * cbn [andb].
        destruct (forallb isCalm (bufferAfter a event acc)).
        -- match goal with |- context [stopRecording ?n ?b] =>
             pose proof (stopRecording_fields n b)
               as (Hr & Hl & Hs & _ & _ & Hn)
           end.
           destruct (rotationRate event);
             cbn [with_sensorData startTime lastAutoStopCheck
                  autoStopNotifications isRecording listening] in *;
             rewrite ?Hr, ?Hl, ?Hs, ?Hn; repeat split; reflexivity.
        -- destruct (rotationRate event); cbn; repeat split; assumption.
      * cbn [andb].
        destruct (rotationRate event); cbn; repeat split; assumption.
    + unfold detector_unchanged.
      destruct (rotationRate event); cbn; repeat split; assumption.
  - unfold detector_unchanged.
    destruct (rotationRate event); cbn; repeat split; assumption.
Qed.

Lemma bufferTriggers_iff (buffer : list BufferPoint) :
  bufferTriggers buffer = true <->
  (6 <= length buffer)%nat /\
  forall p, In p buffer -> pt_acceleration p < 15 / 10.
Proof.
  unfold bufferTriggers. rewrite andb_true_iff, forallb_forall.
  assert (Hsix : autoStopDuration / autoStopCheckInterval = IZR 6)
    by (unfold autoStopDuration, autoStopCheckInterval; field).
  rewrite Hsix. unfold len.
  assert (Hcalm : forall p, isCalm p = true <-> pt_acceleration p < 15 / 10).
  { intros p. unfold isCalm, autoStopThreshold.
    destruct (Rlt_dec (pt_acceleration p) (15 / 10)); split; intros;
      try assumption; try reflexivity; try discriminate; contradiction. }
  split.
  - intros [Hlen Hall]. split.
    + destruct (Rle_dec (IZR 6) (IZR (Z.of_nat (length buffer)))) as [Hle|];
        [|discriminate].
      apply le_IZR in Hle. lia.
    + intros p Hp. apply Hcalm, Hall, Hp.
  - intros [Hlen Hall]. split.
    + destruct (Rle_dec (IZR 6) (IZR (Z.of_nat (length buffer)))) as [|Hn];
        [reflexivity|].
      exfalso. apply Hn. apply IZR_le. lia.
    + intros p Hp. apply Hcalm, Hall, Hp.
Qed.

Lemma dueForCheck_iff (a : Analyzer) (t : R) :
  dueForCheck a t = true <-> 10 < t /\ 5 / 10 <= t - lastAutoStopCheck a.
Proof.
  unfold dueForCheck, autoStopCheckInterval.
  destruct (Rlt_dec 10 t);
    [destruct (Rle_dec (5 / 10) (t - lastAutoStopCheck a))|];
    split; intros H; try discriminate; try reflexivity;
    try (split; assumption); destruct H; contradiction.
Qed.

Lemma emits_iff (event : MotionEvent) (a : Analyzer) :
  isRecording a = true -> listening a = true ->
  (emits event a <-> auto_stop_condition a event).
Proof.
  intros Hrec Hlis. unfold emits, auto_stop_condition.
  destruct (handler_step event a Hrec Hlis) as [_ Hstep].
  destruct (accelerationIncludingGravity event) as [acc|].
  - destruct (dueForCheck a (eventTimestamp a event)) eqn:Hdue.
    + apply dueForCheck_iff in Hdue. destruct Hdue as [Hgrace Hgap].
      destruct Hstep as [_ Hstep].
      destruct (bufferTriggers (bufferAfter a event acc)) eqn:Htrig.
      * apply bufferTriggers_iff in Htrig. destruct Htrig as [Hlen Hall].
        destruct Hstep as (Hn & _). split; [|intros _; exact Hn].
        intros _. exists acc. repeat split; assumption.
      * destruct Hstep as (Hn & _). split; [intros He; lia|].
        intros (acc' & Hacc & _ & _ & Hlen & Hall).
        injection Hacc as <-.
        assert (Htrue : bufferTriggers (bufferAfter a event acc) = true)
          by (apply bufferTriggers_iff; split; assumption).
        congruence.
    + destruct Hstep as (Hn & _). split; [intros He; lia|].
      intros (acc' & _ & Hgrace & Hgap & _).
      assert (Htrue : dueForCheck a (eventTimestamp a event) = true)
        by (apply dueForCheck_iff; split; assumption).
      congruence.
  - destruct Hstep as (Hn & _). split; [intros He; lia|].
    intros (acc' & Hacc & _). discriminate.
Qed.

(** One step either keeps the counter, or emits the signal and stops. *)
Lemma step_counter (event : MotionEvent) (a : Analyzer) :
  (autoStopNotifications (devicemotion event a) = autoStopNotifications a /\
   (isRecording a = true -> listening a = true ->
    isRecording (devicemotion event a) = true /\
    listening (devicemotion event a) = true))
  \/ (autoStopNotifications (devicemotion event a)
      = S (autoStopNotifications a) /\
      isRecording (devicemotion event a) = false).
Proof.
  destruct (isRecording a) eqn:Hrec.
  2:{ left. rewrite (devicemotion_stopped event a Hrec).
      split; [reflexivity|]. intros H. discriminate. }
  destruct (listening a) eqn:Hlis.
  2:{ left. rewrite (devicemotion_detached event a Hlis).
      split; [reflexivity|]. intros _ H. discriminate. }
  destruct (handler_step event a Hrec Hlis) as [_ Hstep].
  destruct (accelerationIncludingGravity event) as [acc|].
  - destruct (dueForCheck a (eventTimestamp a event)).
    + destruct Hstep as [_ Hstep].
      destruct (bufferTriggers (bufferAfter a event acc)).
      * right. destruct Hstep as (Hn & Hr & _). split; assumption.
      * left. destruct Hstep as (Hn & Hr & Hl & _). split; [assumption|].
        intros _ _. split; assumption.
    + left. destruct Hstep as (Hn & Hr & Hl & _). split; [assumption|].
      intros _ _. split; assumption.
  - left. destruct Hstep as (Hn & Hr & Hl & _). split; [assumption|].
    intros _ _. split; assumption.
Qed.

Lemma run_stopped (events : list MotionEvent) (a : Analyzer) :
  isRecording a = false -> run events a = a.
Proof.
  revert a. induction events as [|event rest IH]; intros a Hrec;
    [reflexivity|].
  unfold run. cbn [fold_left]. rewrite (devicemotion_stopped event a Hrec).
  apply IH. assumption.
Qed.

Lemma run_at_most_once (events : list MotionEvent) (a : Analyzer) :
  (autoStopNotifications a <= autoStopNotifications (run events a)
   <= S (autoStopNotifications a))%nat.
Proof.
  revert a. induction events as [|event rest IH]; intros a.
  - unfold run. cbn [fold_left]. lia.
  - change (run (event :: rest) a) with (run rest (devicemotion event a)).
    destruct (step_counter event a) as [[Hn _]|[Hn Hrec]].
    + specialize (IH (devicemotion event a)). lia.
    + rewrite (run_stopped rest _ Hrec). lia.
Qed.

Lemma devicemotion_startTime (event : MotionEvent) (a : Analyzer) :
  startTime (devicemotion event a) = startTime a.
Proof.
  destruct (isRecording a) eqn:Hrec.
  2:{ rewrite (devicemotion_stopped event a Hrec). reflexivity. }
  destruct (listening a) eqn:Hlis.
  2:{ rewrite (devicemotion_detached event a Hlis). reflexivity. }
  exact (proj1 (handler_step event a Hrec Hlis)).
Qed.

Lemma checkTimes_spaced (events : list MotionEvent) (a : Analyzer) :
  spaced (lastAutoStopCheck a) (checkTimes events a).
Proof.
  revert a. induction events as [|event rest IH]; intros a; [exact I|].
  cbn [checkTimes]. unfold checkPerformed.
  destruct (listening a) eqn:Hlis.
  2:{ cbn [andb]. rewrite (devicemotion_detached event a Hlis). apply IH. }
  destruct (isRecording a) eqn:Hrec.
  2:{ cbn [andb]. rewrite (devicemotion_stopped event a Hrec). apply IH. }
  cbn [andb].
  destruct (handler_step event a Hrec Hlis) as [_ Hstep].
  destruct (accelerationIncludingGravity event) as [acc|].
  - destruct (dueForCheck a (eventTimestamp a event)) eqn:Hdue.
    + destruct Hstep as [Hlast _].
      apply dueForCheck_iff in Hdue. destruct Hdue as [_ Hgap].
      cbn [spaced]. split; [exact Hgap|].
      rewrite <- Hlast. apply IH.
    + destruct Hstep as (_ & _ & _ & Hlast & _). rewrite <- Hlast. apply IH.
  - destruct Hstep as (_ & _ & _ & Hlast & _). rewrite <- Hlast. apply IH.
Qed.

Lemma run_in_grace_period (events : list MotionEvent) (a : Analyzer) :
  isRecording a = true -> listening a = true ->
  (forall event, In event events -> eventTimestamp a event <= 10) ->
  autoStopNotifications (run events a) = autoStopNotifications a /\
  isRecording (run events a) = true.
Proof.
  revert a. induction events as [|event rest IH]; intros a Hrec Hlis Hgrace.
  - unfold run. cbn [fold_left]. split; [reflexivity|assumption].
  - change (run (event :: rest) a) with (run rest (devicemotion event a)).
    destruct (handler_step event a Hrec Hlis) as [Hstart Hstep].
    assert (Hnot : dueForCheck a (eventTimestamp a event) = false).
    { destruct (dueForCheck a (eventTimestamp a event)) eqn:Hdue;
        [|reflexivity].
      apply dueForCheck_iff in Hdue. destruct Hdue as [Hlate _].
      specialize (Hgrace event (or_introl eq_refl)). lra. }
    rewrite Hnot in Hstep.
    assert (Hsame : detector_unchanged a (devicemotion event a))
      by (destruct (accelerationIncludingGravity event); assumption).
    destruct Hsame as (Hn & Hr & Hl & _).
    destruct (IH (devicemotion event a) Hr Hl) as [Hcount Hrun].
    + intros e He. unfold eventTimestamp. rewrite Hstart.
      apply (Hgrace e). right. assumption.
    + split; [lia|assumption].
Qed.

Lemma run_never_triggers (events : list MotionEvent) (a : Analyzer) :
  isRecording a = true -> listening a = true ->
  never_triggers events a ->
  autoStopNotifications (run events a) = autoStopNotifications a /\
  isRecording (run events a) = true.
Proof.
  revert a. induction events as [|event rest IH]; intros a Hrec Hlis Hnever.
  - unfold run. cbn [fold_left]. split; [reflexivity|assumption].
  - change (run (event :: rest) a) with (run rest (devicemotion event a)).
    destruct Hnever as [Hnot Hrest].
    destruct (step_counter event a) as [[Hn Hkeep]|[Hn _]].
    + destruct (Hkeep Hrec Hlis) as [Hr Hl].
      destruct (IH (devicemotion event a) Hr Hl Hrest) as [Hcount Hrun].
      split; [lia|assumption].
    + exfalso. apply Hnot. apply (emits_iff event a Hrec Hlis). exact Hn.
Qed.

(** C6. While a recording runs, the auto-stop signal is emitted on a motion
    event exactly when the event carries an acceleration sample with
    timestamp above 10.0 s, at least 0.5 s after the previous check, and the
    buffer, once entries older than 3.0 s are evicted, holds at least 6
    entries all below 1.5; the emission stops the recording, after which no
    event changes anything, so the signal is emitted at most once; checks
    are at least 0.5 s apart; and a stream wholly inside the grace period, or
    one on which the condition never holds, emits nothing and leaves the
    recording running. *)
Theorem auto_stop_is_one_shot (a : Analyzer) :
  isRecording a = true ->
  listening a = true ->
  (forall event, emits event a <-> auto_stop_condition a event) /\
  (forall event, emits event a ->
      isRecording (devicemotion event a) = false /\
      forall later, run later (devicemotion event a) = devicemotion event a) /\
  (forall events,
      (autoStopNotifications (run events a) <= S (autoStopNotifications a))%nat) /\
  (forall events, spaced (lastAutoStopCheck a) (checkTimes events a)) /\
  (forall events,
      (forall event, In event events -> eventTimestamp a event <= 10) ->
      autoStopNotifications (run events a) = autoStopNotifications a /\
      isRecording (run events a) = true) /\
  (forall events,
      never_triggers events a ->
      autoStopNotifications (run events a) = autoStopNotifications a /\
      isRecording (run events a) = true).
Proof.
  intros Hrec Hlis.
  split; [intros event; apply emits_iff; assumption|].
  split.
  { intros event Hemit.
    assert (Hstop : isRecording (devicemotion event a) = false).
    { destruct (step_counter event a) as [[Hn _]|[_ Hr]]; [|exact Hr].
      unfold emits in Hemit. lia. }
    split; [exact Hstop|]. intros later. apply run_stopped. exact Hstop. }
  split; [intros events; apply run_at_most_once|].
  split; [intros events; apply checkTimes_spaced|].
  split.
  - intros events Hgrace. apply run_in_grace_period; assumption.
  - intros events Hnever. apply run_never_triggers; assumption.
Qed.

Lemma filter_keeps_all {A} (f : A -> bool) (l : list A) :
  (forall v, In v l -> f v = true) -> filter f l = l.
Proof.
  induction l as [|v rest IH]; intros Hall; [reflexivity|].
  cbn [filter]. rewrite (Hall v (or_introl eq_refl)).
  f_equal. apply IH. intros w Hw. apply Hall. right. assumption.
Qed.

Lemma calmEvent_buffer :
  bufferAfter calmRecording calmEvent (mkVec3 (Some 1) None None)
  = autoStopBuffer calmRecording ++ [mkPoint 1 13].
Proof.
  unfold bufferAfter.
  assert (Ht : eventTimestamp calmRecording calmEvent = 13).
  { unfold eventTimestamp. cbn [ev_now calmEvent startTime calmRecording].
    change (13000 - 0)%Z with 13000%Z. lra. }
  assert (Hm : accelMagnitude (mkVec3 (Some 1) None None) = 1).
  { unfold accelMagnitude. cbn [c1 c2 c3 or0].
    apply magnitude_on_axis. lra. }
  rewrite Ht, Hm. apply filter_keeps_all.
  intros p Hp.
  destruct (Rle_dec (13 - pt_timestamp p) 3) as [|Hold]; [reflexivity|].
  exfalso. apply Hold.
  cbn in Hp.
  destruct Hp as [<-|[<-|[<-|[<-|[<-|[<-|[]]]]]]]; cbn [pt_timestamp]; lra.
Qed.

Lemma auto_stop_is_one_shot_witness :
  isRecording calmRecording = true /\ listening calmRecording = true /\
  emits calmEvent calmRecording /\
  isRecording (devicemotion calmEvent calmRecording) = false.
Proof.
  assert (Hrec : isRecording calmRecording = true) by reflexivity.
  assert (Hlis : listening calmRecording = true) by reflexivity.
  destruct (auto_stop_is_one_shot calmRecording Hrec Hlis)
    as (Hiff & Hstop & _).
  assert (Hemit : emits calmEvent calmRecording).
  { apply Hiff. exists (mkVec3 (Some 1) None None).
    assert (Ht : eventTimestamp calmRecording calmEvent = 13).
    { unfold eventTimestamp. cbn [ev_now calmEvent startTime calmRecording].
      change (13000 - 0)%Z with 13000%Z. lra. }
    rewrite calmEvent_buffer, Ht.
    split; [reflexivity|]. split; [lra|].
    split; [cbn [lastAutoStopCheck calmRecording]; lra|].
    split; [cbn; lia|].
    intros p Hp. cbn in Hp.
    destruct Hp as [<-|[<-|[<-|[<-|[<-|[<-|[]]]]]]]; cbn [pt_acceleration]; lra. }
  split; [assumption|]. split; [assumption|]. split; [assumption|].
  exact (proj1 (Hstop calmEvent Hemit)).
Defined.

(** * Further properties of the code *)

(** ** Slices *)

Lemma slice_in_range {A} (arr : list A) (s e : Z) :
  (0 <= s <= e)%Z -> (e <= len arr)%Z ->
  slice arr s e
  = firstn (Z.to_nat (e - s)) (skipn (Z.to_nat s) arr).
Proof.
  intros Hs He. unfold slice.
  assert (Hs' : (s <? 0)%Z = false) by (apply Z.ltb_ge; lia).
  assert (He' : (e <? 0)%Z = false) by (apply Z.ltb_ge; lia).
  rewrite Hs', He', !Z.min_l by lia.
  rewrite Z.max_l by lia. reflexivity.
Qed.

Lemma get_slice (arr : list R) (s e j : Z) :
  (0 <= s <= e)%Z -> (e <= len arr)%Z -> (0 <= j < e - s)%Z ->
  get (slice arr s e) j = get arr (s + j).
Proof.
  intros Hs He Hj. rewrite slice_in_range by assumption.
  unfold get. rewrite nth_firstn.
  destruct (Nat.ltb_spec (Z.to_nat j) (Z.to_nat (e - s))) as [_|Hge]; [|lia].
  rewrite nth_skipn. f_equal. lia.
Qed.

Lemma slice_whole {A} (arr : list A) (e : Z) :
  (len arr <= e)%Z -> slice arr 0 e = arr.
Proof.
  intros He. unfold slice. unfold len in *.
  assert (He' : (e <? 0)%Z = false) by (apply Z.ltb_ge; lia).
  rewrite He'. cbn [Z.ltb Z.compare].
  rewrite (Z.min_l 0), (Z.min_r e) by lia.
  change (Z.to_nat 0) with 0%nat. cbn [skipn].
  apply firstn_all2. lia.
Qed.

Lemma slice_length_same {A B} (a : list A) (b : list B) (s e : Z) :
  length a = length b -> length (slice a s e) = length (slice b s e).
Proof.
  intros Hlen. unfold slice, len.
  rewrite !length_firstn, !length_skipn, Hlen. reflexivity.
Qed.

Lemma slice_length_bound {A} (arr : list A) (s e : Z) :
  (0 <= s <= e)%Z -> (len (slice arr s e) <= e - s)%Z.
Proof.
  intros Hs. unfold slice, len.
  assert (Hs' : (s <? 0)%Z = false) by (apply Z.ltb_ge; lia).
  assert (He' : (e <? 0)%Z = false) by (apply Z.ltb_ge; lia).
  rewrite Hs', He', length_firstn, length_skipn. lia.
Qed.

Lemma get_map_shift (arr : list R) (c : R) (j : Z) :
  (0 <= j < len arr)%Z ->
  get (map (fun t => t - c) arr) j = get arr j - c.
Proof.
  intros Hj. unfold get.
  rewrite (nth_indep _ 0 (0 - c)) by (rewrite length_map; unfold len in Hj; lia).
  apply (map_nth (fun t => t - c)).
Qed.

(** ** The trimmed capture *)

Lemma trimToActualThrow_nonempty (d : SensorData) :
  x (acceleration d) <> [] ->
  let accel := acceleration d in
  let gyro := gyroscope d in
  let cut := fun arr : list R =>
               slice arr (trimStartIndex accel) (trimEndIndex accel + 1) in
  let shift := fun t => t - get (cut (timestamps accel)) 0 in
  trimToActualThrow d
  = mkSensorData
      (mkStream (cut (x accel)) (cut (y accel)) (cut (z accel))
                (map shift (cut (timestamps accel))))
      (match x gyro with
       | [] => gyro
       | _ :: _ => mkStream (cut (x gyro)) (cut (y gyro)) (cut (z gyro))
                            (map shift (cut (timestamps gyro)))
       end)
      (velocity d).
Proof.
  intros Hne. cbv zeta. unfold trimToActualThrow.
  destruct (x (acceleration d)) eqn:Hx; [congruence|].
  rewrite <- Hx. reflexivity.
Qed.

Lemma tail_cut_keeps_forty (accel : Stream) :
  x accel <> [] ->
  (trimEndIndex accel < len (x accel) - 1)%Z ->
  (trimStartIndex accel + 39 <= trimEndIndex accel)%Z.
Proof.
  intros Hne Hcut.
  destruct (trimEndIndex_cases accel)
    as [(k & ((Hlo & _) & _) & He)|[_ He]]; lia.
Qed.

Lemma trimmed_capture_facts (d : SensorData) :
  wf_stream (acceleration d) ->
  x (acceleration d) <> [] ->
  let accel := acceleration d in
  let accel' := acceleration (trimToActualThrow d) in
  let s := trimStartIndex accel in
  let e := trimEndIndex accel in
  (0 <= s <= e)%Z /\ (e < len (x accel))%Z /\
  wf_stream accel' /\
  len (x accel') = (e - s + 1)%Z /\
  (forall j, (0 <= j <= e - s)%Z ->
     get (x accel') j = get (x accel) (s + j) /\
     get (y accel') j = get (y accel) (s + j) /\
     get (z accel') j = get (z accel) (s + j) /\
     get (timestamps accel') j
     = get (timestamps accel) (s + j) - get (timestamps accel) s) /\
  get (timestamps accel') 0 = 0 /\
  ((e < len (x accel) - 1)%Z -> (40 <= len (x accel'))%Z) /\
  velocity (trimToActualThrow d) = velocity d.
Proof.
  intros (Hy & Hz & Ht) Hne accel accel' s e.
  subst accel' s e accel.
  destruct (trim_range (acceleration d) Hne) as [Hs He].
  rewrite (trimToActualThrow_nonempty d Hne). cbv zeta.
  cbn [acceleration velocity x y z timestamps].
  set (accel := acceleration d) in *.
  set (s := trimStartIndex accel) in *.
  set (e := trimEndIndex accel) in *.
  assert (Hly : len (y accel) = len (x accel)) by (unfold len; lia).
  assert (Hlz : len (z accel) = len (x accel)) by (unfold len; lia).
  assert (Hlt : len (timestamps accel) = len (x accel)) by (unfold len; lia).
  assert (Hlen : len (slice (x accel) s (e + 1)) = (e - s + 1)%Z)
    by (rewrite slice_length by lia; lia).
  assert (Hlent : len (slice (timestamps accel) s (e + 1)) = (e - s + 1)%Z)
    by (rewrite slice_length by lia; lia).
  assert (Hpoint : forall j, (0 <= j <= e - s)%Z ->
            get (map (fun t => t - get (slice (timestamps accel) s (e + 1)) 0)
                     (slice (timestamps accel) s (e + 1))) j
            = get (timestamps accel) (s + j) - get (timestamps accel) s).
  { intros j Hj. rewrite get_map_shift by lia.
    rewrite !get_slice by lia. replace (s + 0)%Z with s by lia. reflexivity. }
  split; [exact Hs|]. split; [exact He|]. split.
  { unfold wf_stream. cbn [x y z timestamps]. rewrite length_map.
    repeat split; apply slice_length_same; assumption. }
  split; [exact Hlen|]. split.
  { intros j Hj.
    split; [apply get_slice; lia|]. split; [apply get_slice; lia|].
    split; [apply get_slice; lia|]. apply Hpoint. exact Hj. }
  split.
  { rewrite (Hpoint 0%Z) by lia. replace (s + 0)%Z with s by lia. ring. }
  split; [|reflexivity].
  intros Hcut. pose proof (tail_cut_keeps_forty accel Hne Hcut). lia.
Qed.

(** The interval kept by the trimmer lies inside the capture and is not
    empty; the four arrays of the trimmed acceleration stream have its
    length and hold the samples of the interval, timestamps counted from the
    first one kept, which becomes 0; when the tail is cut at least 40 samples
    are kept; the velocity series is not touched. *)
Theorem trimmed_capture_shape (d : SensorData) :
  wf_stream (acceleration d) ->
  x (acceleration d) <> [] ->
  let accel := acceleration d in
  let accel' := acceleration (trimToActualThrow d) in
  let s := trimStartIndex accel in
  let e := trimEndIndex accel in
  (0 <= s <= e)%Z /\ (e < len (x accel))%Z /\
  wf_stream accel' /\
  len (x accel') = (e - s + 1)%Z /\
  (forall j, (0 <= j <= e - s)%Z ->
     get (x accel') j = get (x accel) (s + j) /\
     get (y accel') j = get (y accel) (s + j) /\
     get (z accel') j = get (z accel) (s + j) /\
     get (timestamps accel') j
     = get (timestamps accel) (s + j) - get (timestamps accel) s) /\
  get (timestamps accel') 0 = 0 /\
  ((e < len (x accel) - 1)%Z -> (40 <= len (x accel'))%Z) /\
  velocity (trimToActualThrow d) = velocity d.
Proof. exact (trimmed_capture_facts d). Qed.

Lemma spikeStream_indices :
  trimStartIndex spikeStream = 2%Z /\ trimEndIndex spikeStream = 7%Z.
Proof.
  assert (Hstart : trimStartIndex spikeStream = 2%Z).
  { destruct (trimStartIndex_cases spikeStream) as [(i & Hi & ->)|[Hno _]].
    - rewrite <- (first_exceeding_unique spikeStream 7 i
                    spikeStream_first_exceeding Hi). reflexivity.
    - destruct spikeStream_first_exceeding as (Hr & Hhit & _).
      exfalso. exact (Hno 7%Z Hr Hhit). }
  split; [exact Hstart|].
  destruct (trimEndIndex_cases spikeStream)
    as [(k & ((Hlo & Hk & _) & _) & _)|[_ ->]]; [|reflexivity].
  rewrite Hstart in Hlo. unfold len in Hk. cbn in Hk. lia.
Qed.

Lemma trimmed_capture_shape_witness :
  wf_stream (acceleration (mkSensorData spikeStream emptyStream (mkVelocity [] []))) /\
  x spikeStream <> [] /\
  len (x (acceleration
            (trimToActualThrow
               (mkSensorData spikeStream emptyStream (mkVelocity [] [])))))
  = 6%Z.
Proof.
  assert (Hwf : wf_stream spikeStream) by (repeat split).
  assert (Hne : x spikeStream <> []) by discriminate.
  split; [exact Hwf|]. split; [exact Hne|].
  destruct (trimmed_capture_shape
              (mkSensorData spikeStream emptyStream (mkVelocity [] [])) Hwf Hne)
    as (_ & _ & _ & Hlen & _).
  rewrite Hlen. cbn [acceleration].
  destruct spikeStream_indices as [-> ->]. reflexivity.
Defined.

(** ** Trimming what is already trimmed *)

Section TrimTwice.

Variable d : SensorData.
Hypothesis Hwf : wf_stream (acceleration d).
Hypothesis Hne : x (acceleration d) <> [].

Local Abbreviation accel := (acceleration d).
Local Abbreviation accel' := (acceleration (trimToActualThrow d)).
Local Abbreviation s := (trimStartIndex (acceleration d)).
Local Abbreviation e := (trimEndIndex (acceleration d)).

Lemma trimmed_totalAccel (j : Z) :
  (0 <= j <= e - s)%Z -> totalAccel accel' j = totalAccel accel (s + j).
Proof.
  intros Hj.
  destruct (trimmed_capture_facts d Hwf Hne) as (_ & _ & _ & _ & Hpt & _).
  destruct (Hpt j Hj) as (Hx & Hy & Hz & _).
  unfold totalAccel.
  rewrite Hx, Hy, Hz. reflexivity.
Qed.

Lemma trimmed_len : len (x accel') = (e - s + 1)%Z.
Proof.
  destruct (trimmed_capture_facts d Hwf Hne) as (_ & _ & _ & Hlen & _).
  exact Hlen.
Qed.

Lemma trimmed_start_is_zero : trimStartIndex accel' = 0%Z.
Proof.
  pose proof trimmed_len as Hlen.
  destruct (trim_range accel Hne) as [Hs He].
  destruct (trimStartIndex_cases accel') as [(i' & Hfirst' & ->)|[_ ->]];
    [|reflexivity].
  destruct Hfirst' as (Hi' & Hhit' & Hbefore').
  rewrite trimmed_totalAccel in Hhit' by lia.
  destruct (trimStartIndex_cases accel) as [(i & Hfirst & Hsi)|[Hno _]].
  - destruct Hfirst as (Hi & Hhit & Hbefore).
    assert (Hie : (i <= e)%Z).
    { destruct (trimEndIndex_cases accel)
        as [(k & ((Hlo & _) & _) & Hk)|[_ Hk]]; lia. }
    assert (Hle : (i' <= i - s)%Z).
    { destruct (Z.le_gt_cases i' (i - s)) as [|Hgt]; [assumption|].
      exfalso. apply (Hbefore' (i - s)%Z); [lia|].
      rewrite trimmed_totalAccel by lia.
      replace (s + (i - s))%Z with i by lia. exact Hhit. }
    lia.
  - exfalso. apply (Hno (s + i')%Z); [lia|exact Hhit'].
Qed.

Lemma trimmed_end_is_last : trimEndIndex accel' = (len (x accel') - 1)%Z.
Proof.
  pose proof trimmed_len as Hlen.
  destruct (trim_range accel Hne) as [Hs He].
  destruct (trimEndIndex_cases accel')
    as [(k' & ((Hlo' & Hk' & Hcalm') & _) & _)|[_ Hlast]]; [|exact Hlast].
  exfalso. rewrite trimmed_start_is_zero in Hlo'.
  assert (Hrun : run_completes accel s (s + k')).
  { split; [lia|]. split; [lia|].
    intros j Hj. replace j with (s + (j - s))%Z by lia.
    rewrite <- trimmed_totalAccel by lia. apply Hcalm'. lia. }
  destruct (trimEndIndex_cases accel)
    as [(k & (_ & Hfirst) & Hk)|[Hno _]].
  - apply (Hfirst (s + k')%Z); [lia|exact Hrun].
  - exact (Hno _ Hrun).
Qed.

End TrimTwice.

Lemma map_shift_zero (arr : list R) : map (fun t => t - 0) arr = arr.
Proof.
  rewrite <- (map_id arr) at 2. apply map_ext. intros t. ring.
Qed.

Lemma trimmed_gyroscope_bound (d : SensorData) :
  x (acceleration d) <> [] ->
  x (gyroscope d) <> [] ->
  let n := len (x (acceleration (trimToActualThrow d))) in
  let gyro' := gyroscope (trimToActualThrow d) in
  (len (x gyro') <= n)%Z /\ (len (y gyro') <= n)%Z /\
  (len (z gyro') <= n)%Z /\ (len (timestamps gyro') <= n)%Z.
Proof.
  intros Hne Hraw. cbv zeta.
  destruct (trim_range (acceleration d) Hne) as [Hs He].
  rewrite (trimToActualThrow_nonempty d Hne). cbv zeta.
  cbn [acceleration gyroscope x].
  destruct (x (gyroscope d)) eqn:Hx; [congruence|].
  cbn [x y z timestamps].
  rewrite (slice_length (x (acceleration d))) by lia.
  unfold len at 4. rewrite length_map.
  pose proof (fun arr : list R =>
                slice_length_bound arr (trimStartIndex (acceleration d))
                  (trimEndIndex (acceleration d) + 1) ltac:(lia)) as Hb.
  repeat split; apply Hb.
Qed.

Lemma trimToActualThrow_twice (d : SensorData) :
  wf_stream (acceleration d) ->
  trimToActualThrow (trimToActualThrow d) = trimToActualThrow d.
Proof.
  intros Hwf.
  destruct (x (acceleration d)) as [|v rest] eqn:Hx.
  { unfold trimToActualThrow at 2. rewrite Hx.
    unfold trimToActualThrow. rewrite Hx. reflexivity. }
  assert (Hne : x (acceleration d) <> []) by (rewrite Hx; discriminate).
  clear Hx v rest.
  destruct (trimmed_capture_facts d Hwf Hne)
    as (Hs & He & (Hy' & Hz' & Ht') & Hlen & _ & Hzero & _ & _).
  assert (Hne' : x (acceleration (trimToActualThrow d)) <> []).
  { intros Hnil. rewrite Hnil in Hlen. unfold len in Hlen. cbn in Hlen. lia. }
  rewrite (trimToActualThrow_nonempty (trimToActualThrow d) Hne'). cbv zeta.
  rewrite (trimmed_start_is_zero d Hwf Hne), (trimmed_end_is_last d Hwf Hne).
  set (d' := trimToActualThrow d) in *.
  set (n := len (x (acceleration d'))) in *.
  replace (n - 1 + 1)%Z with n by lia.
  assert (Hwhole : forall arr : list R, (len arr <= n)%Z -> slice arr 0 n = arr)
    by (intros arr Harr; apply slice_whole; exact Harr).
  rewrite (Hwhole (x (acceleration d'))) by (unfold n; lia).
  rewrite (Hwhole (y (acceleration d'))) by (unfold n, len; lia).
  rewrite (Hwhole (z (acceleration d'))) by (unfold n, len; lia).
  rewrite (Hwhole (timestamps (acceleration d'))) by (unfold n, len; lia).
  rewrite Hzero, map_shift_zero.
  assert (Hgyro :
            match x (gyroscope d') with
            | [] => gyroscope d'
            | _ :: _ =>
                mkStream (slice (x (gyroscope d')) 0 n)
                         (slice (y (gyroscope d')) 0 n)
                         (slice (z (gyroscope d')) 0 n)
                         (map (fun t => t - 0)
                              (slice (timestamps (gyroscope d')) 0 n))
            end = gyroscope d').
  { destruct (x (gyroscope d')) eqn:Hxg; [reflexivity|]. rewrite <- Hxg.
    assert (Hraw : x (gyroscope d) <> []).
    { intros Hnil. apply trimmed_gyroscope_empty in Hnil.
      fold d' in Hnil. rewrite Hnil in Hxg. discriminate. }
    pose proof (trimmed_gyroscope_bound d Hne Hraw) as Hbound.
    cbv zeta in Hbound. fold d' in Hbound. fold n in Hbound.
    destruct Hbound as (Hbx & Hby & Hbz & Hbt).
    rewrite !Hwhole, map_shift_zero by assumption.
    destruct (gyroscope d'). reflexivity. }
  rewrite Hgyro.
  destruct d' as [[xa ya za ta] g v]. reflexivity.
Qed.

(** Running the trimmer on a capture it has already trimmed changes nothing:
    the start index found is 0, no run of calm samples completes, and the
    timestamps are already counted from 0. *)
Theorem trimming_is_idempotent (d : SensorData) :
  wf_stream (acceleration d) ->
  trimToActualThrow (trimToActualThrow d) = trimToActualThrow d.
Proof. exact (trimToActualThrow_twice d). Qed.

Lemma trimming_is_idempotent_witness :
  wf_stream (acceleration scenarioData) /\
  trimToActualThrow (trimToActualThrow scenarioData)
  = trimToActualThrow scenarioData.
Proof.
  assert (Hwf : wf_stream (acceleration scenarioData)) by (repeat split).
  split; [exact Hwf|]. exact (trimming_is_idempotent scenarioData Hwf).
Defined.

Lemma trimToActualThrow_velocity (acc gyro : Stream) (v w : Velocity) :
  acceleration (trimToActualThrow (mkSensorData acc gyro v))
  = acceleration (trimToActualThrow (mkSensorData acc gyro w)) /\
  gyroscope (trimToActualThrow (mkSensorData acc gyro v))
  = gyroscope (trimToActualThrow (mkSensorData acc gyro w)).
Proof.
  unfold trimToActualThrow. cbn [acceleration gyroscope velocity].
  destruct (x acc); split; reflexivity.
Qed.

Lemma processing_twice (d : SensorData) :
  wf_stream (acceleration d) ->
  calculateVelocity (trimToActualThrow (calculateVelocity (trimToActualThrow d)))
  = calculateVelocity (trimToActualThrow d).
Proof.
  intros Hwf. pose proof (trimToActualThrow_twice d Hwf) as Htwice.
  destruct (trimToActualThrow d) as [acc gyro v] eqn:Htrim.
  unfold calculateVelocity at 2. cbn [acceleration gyroscope].
  destruct (trimToActualThrow_velocity acc gyro (velocityOf acc) v)
    as [Hacc Hgyro].
  unfold calculateVelocity. rewrite Hacc, Hgyro, Htwice.
  reflexivity.
Qed.

(** A second call of stopRecording keeps the sensor data and the velocity
    series exactly as the first call left them (what it adds is the second
    stored throw). *)
Theorem second_stop_keeps_sensor_data (now1 now2 : Z) (a : Analyzer) :
  wf_stream (acceleration (sensorData a)) ->
  sensorData (stopRecording now2 (stopRecording now1 a))
  = sensorData (stopRecording now1 a).
Proof.
  intros Hwf. destruct (hasData a) eqn:Hdata.
  - pose proof (hasData_stopRecording now1 a Hdata) as Hdata'.
    rewrite (stopRecording_with_data now2 _ Hdata').
    rewrite (stopRecording_with_data now1 a Hdata).
    cbn [sensorData]. apply processing_twice. exact Hwf.
  - assert (Hdata' : hasData (stopRecording now1 a) = false).
    { rewrite <- Hdata. apply hasData_sensorData.
      rewrite (stopRecording_without_data now1 a Hdata). reflexivity. }
    rewrite (stopRecording_without_data now2 _ Hdata').
    reflexivity.
Qed.

Lemma second_stop_keeps_sensor_data_witness :
  wf_stream (acceleration (sensorData shortRecording)) /\
  sensorData (stopRecording 2 (stopRecording 1 shortRecording))
  = sensorData (stopRecording 1 shortRecording).
Proof.
  assert (Hwf : wf_stream (acceleration (sensorData shortRecording)))
    by (repeat split).
  split; [exact Hwf|].
  exact (second_stop_keeps_sensor_data 1 2 shortRecording Hwf).
Defined.

(** ** What one motion event does to the data and to storage *)

Lemma hasData_after_push (a : Analyzer) (d : SensorData) (vx vy vz t : R) :
  hasData (with_sensorData a
             (mkSensorData (pushSample (acceleration d) vx vy vz t)
                           (gyroscope d) (velocity d))) = true.
Proof.
  unfold hasData. cbn [with_sensorData sensorData acceleration pushSample x].
  apply orb_true_iff. left. apply Z.ltb_lt. rewrite len_app_one.
  unfold len. lia.
Qed.

Lemma handler_effect (event : MotionEvent) (a : Analyzer) :
  isRecording a = true -> listening a = true ->
  let a' := devicemotion event a in
  let processed :=
    calculateVelocity (trimToActualThrow (afterAcceleration event a)) in
  alerts a' = alerts a /\
  if triggers event a
  then sensorData a' = afterRotation event a processed /\
       localStorage a'
       = saveThrowToSession (ev_now event) (calculateAnalysisMetrics processed)
                            (localStorage a)
  else sensorData a' = afterRotation event a (afterAcceleration event a) /\
       localStorage a' = localStorage a.
Proof.
  intros Hrec Hlis a' processed. subst a' processed.
  unfold devicemotion. rewrite Hlis.
  unfold deviceMotionHandler. rewrite Hrec. cbn [negb].
  unfold triggers, afterAcceleration, afterRotation.
  destruct (accelerationIncludingGravity event) as [acc|].
  - match goal with |- context [dueForCheck ?b ?t] =>
      change (dueForCheck b t) with (dueForCheck a t)
    end.
    destruct (dueForCheck a (eventTimestamp a event)); cbn [andb].
    + unfold checkAutoStop.
      match goal with |- context [filter ?f ?l] =>
        change (filter f l) with (bufferAfter a event acc)
      end.
      unfold bufferTriggers.
      destruct (Rle_dec (autoStopDuration / autoStopCheckInterval)
                        (IZR (len (bufferAfter a event acc)))); cbn [andb].
      * destruct (forallb isCalm (bufferAfter a event acc)).
        -- match goal with |- context [stopRecording ?n ?b] =>
             assert (Hdata : hasData b = true)
               by (rewrite <- (hasData_after_push a (sensorData a)
                                 (or0 (c1 acc)) (or0 (c2 acc)) (or0 (c3 acc))
                                 (eventTimestamp a event));
                   apply hasData_sensorData; reflexivity);
             rewrite (stopRecording_with_data n b Hdata)
           end.
           destruct (rotationRate event); cbn; repeat split; reflexivity.
        -- destruct (rotationRate event); cbn; repeat split; reflexivity.
      * destruct (rotationRate event); cbn; repeat split; reflexivity.
    + destruct (rotationRate event); cbn; repeat split; reflexivity.
  - destruct (rotationRate event); cbn; repeat split; reflexivity.
Qed.

Lemma triggers_emits (event : MotionEvent) (a : Analyzer) :
  isRecording a = true -> listening a = true ->
  (triggers event a = true <-> emits event a).
Proof.
  intros Hrec Hlis. unfold emits, triggers.
  destruct (handler_step event a Hrec Hlis) as [_ Hstep].
  destruct (accelerationIncludingGravity event) as [acc|].
  - destruct (dueForCheck a (eventTimestamp a event)); cbn [andb].
    + destruct Hstep as [_ Hstep].
      destruct (bufferTriggers (bufferAfter a event acc)).
      * destruct Hstep as (Hn & _). split; [intros _; exact Hn|reflexivity].
      * destruct Hstep as (Hn & _). split; [discriminate|intros He; lia].
    + destruct Hstep as (Hn & _). split; [discriminate|intros He; lia].
  - destruct Hstep as (Hn & _). split; [discriminate|intros He; lia].
Qed.

(** ** The parallel arrays stay parallel *)

Lemma wf_pushSample (s : Stream) (vx vy vz t : R) :
  wf_stream s -> wf_stream (pushSample s vx vy vz t).
Proof.
  intros (Hy & Hz & Ht). unfold wf_stream, pushSample. cbn [x y z timestamps].
  rewrite !length_app. cbn [length]. lia.
Qed.

Lemma wf_trimToActualThrow (d : SensorData) :
  wf_data d -> wf_data (trimToActualThrow d).
Proof.
  intros [Hacc Hgyro]. unfold trimToActualThrow.
  destruct (x (acceleration d)) eqn:Hx; [split; assumption|].
  rewrite <- Hx. unfold wf_data. cbn [acceleration gyroscope]. split.
  - destruct Hacc as (Hy & Hz & Ht). unfold wf_stream. cbn [x y z timestamps].
    rewrite length_map. repeat split; apply slice_length_same; assumption.
  - destruct (x (gyroscope d)) eqn:Hg; [assumption|]. rewrite <- Hg.
    destruct Hgyro as (Hy & Hz & Ht). unfold wf_stream. cbn [x y z timestamps].
    rewrite length_map. repeat split; apply slice_length_same; assumption.
Qed.

Lemma wf_afterAcceleration (event : MotionEvent) (a : Analyzer) :
  wf_data (sensorData a) -> wf_data (afterAcceleration event a).
Proof.
  intros [Hacc Hgyro]. unfold afterAcceleration.
  destruct (accelerationIncludingGravity event); [|split; assumption].
  split; [apply wf_pushSample; assumption|assumption].
Qed.

Lemma wf_afterRotation (event : MotionEvent) (a : Analyzer) (d : SensorData) :
  wf_data d -> wf_data (afterRotation event a d).
Proof.
  intros [Hacc Hgyro]. unfold afterRotation.
  destruct (rotationRate event); [|split; assumption].
  split; [assumption|apply wf_pushSample; assumption].
Qed.

Lemma wf_devicemotion (event : MotionEvent) (a : Analyzer) :
  wf_data (sensorData a) -> wf_data (sensorData (devicemotion event a)).
Proof.
  intros Hwf.
  destruct (isRecording a) eqn:Hrec.
  2:{ rewrite (devicemotion_stopped event a Hrec). exact Hwf. }
  destruct (listening a) eqn:Hlis.
  2:{ rewrite (devicemotion_detached event a Hlis). exact Hwf. }
  destruct (handler_effect event a Hrec Hlis) as [_ Heff].
  destruct (triggers event a); destruct Heff as [-> _];
    apply wf_afterRotation.
  - apply (wf_trimToActualThrow (afterAcceleration event a)).
    apply wf_afterAcceleration. exact Hwf.
  - apply wf_afterAcceleration. exact Hwf.
Qed.

Lemma wf_stopRecording (now : Z) (a : Analyzer) :
  wf_data (sensorData a) -> wf_data (sensorData (stopRecording now a)).
Proof.
  intros Hwf. destruct (hasData a) eqn:Hdata.
  - rewrite (stopRecording_with_data now a Hdata). cbn [sensorData].
    apply (wf_trimToActualThrow (sensorData a)). exact Hwf.
  - rewrite (stopRecording_without_data now a Hdata). exact Hwf.
Qed.

(** From the start of a recording on, whatever motion events arrive and
    whenever the recording is stopped, by itself or by a stop command, the
    four arrays of the acceleration stream have one length and so have the
    four of the angular-rate stream. *)
Theorem streams_stay_parallel
  (now stop : Z) (a : Analyzer) (events later : list MotionEvent) :
  let recording := run events (startRecording now true a) in
  wf_data (sensorData recording) /\
  wf_data (sensorData (stopRecording stop recording)) /\
  wf_data (sensorData (run later (stopRecording stop recording))).
Proof.
  assert (Hrun : forall evs b, wf_data (sensorData b) ->
                               wf_data (sensorData (run evs b))).
  { induction evs as [|event rest IH]; intros b Hb; [exact Hb|].
    change (run (event :: rest) b) with (run rest (devicemotion event b)).
    apply IH, wf_devicemotion, Hb. }
  intros recording.
  assert (Hrec : wf_data (sensorData recording)).
  { apply Hrun. cbn. repeat split. }
  split; [exact Hrec|].
  split; [|apply Hrun]; apply wf_stopRecording; exact Hrec.
Qed.

(** ** The streams as a log of the events *)

Lemma quiet_step (event : MotionEvent) (a : Analyzer) :
  isRecording a = true -> listening a = true ->
  ~ auto_stop_condition a event ->
  let a' := devicemotion event a in
  isRecording a' = true /\ listening a' = true /\
  startTime a' = startTime a /\
  localStorage a' = localStorage a /\ alerts a' = alerts a /\
  sensorData a' = afterRotation event a (afterAcceleration event a).
Proof.
  intros Hrec Hlis Hnot a'. subst a'.
  assert (Htrig : triggers event a = false).
  { destruct (triggers event a) eqn:Ht; [|reflexivity].
    exfalso. apply Hnot. apply (emits_iff event a Hrec Hlis).
    apply (triggers_emits event a Hrec Hlis). exact Ht. }
  destruct (handler_effect event a Hrec Hlis) as [Halerts Heff].
  rewrite Htrig in Heff. destruct Heff as [Hdata Hstore].
  destruct (step_counter event a) as [[_ Hkeep]|[Hn _]].
  - destruct (Hkeep Hrec Hlis) as [Hr Hl].
    repeat split; try assumption. apply devicemotion_startTime.
  - exfalso. apply Hnot. apply (emits_iff event a Hrec Hlis). exact Hn.
Qed.

Lemma quiet_step_streams (event : MotionEvent) (a : Analyzer) :
  let d := afterRotation event a (afterAcceleration event a) in
  x (acceleration d)
  = x (acceleration (sensorData a))
    ++ map forwardOf (filter hasAcceleration [event]) /\
  timestamps (acceleration d)
  = timestamps (acceleration (sensorData a))
    ++ map (eventTimestamp a) (filter hasAcceleration [event]) /\
  x (gyroscope d)
  = x (gyroscope (sensorData a)) ++ map pitchOf (filter hasRotation [event]) /\
  timestamps (gyroscope d)
  = timestamps (gyroscope (sensorData a))
    ++ map (eventTimestamp a) (filter hasRotation [event]).
Proof.
  unfold afterRotation, afterAcceleration, forwardOf, pitchOf,
    hasAcceleration, hasRotation. cbn [filter].
  destruct (accelerationIncludingGravity event) as [acc|] eqn:Hacc;
    destruct (rotationRate event) as [rot|] eqn:Hrot;
    cbn [map recordRotation recordAcceleration acceleration gyroscope
         pushSample x timestamps];
    rewrite ?Hacc, ?Hrot, ?app_nil_r; repeat split; reflexivity.
Qed.

(** While no auto-stop fires, a stream of motion events is logged as it
    comes: the forward accelerations and the pitch rates recorded are the
    ones already there followed by those of the events that carry them, in
    order, each with the event's timestamp; nothing is written to storage,
    no alert is raised and the recording goes on. *)
Theorem events_are_logged_in_order (events : list MotionEvent) (a : Analyzer) :
  isRecording a = true -> listening a = true ->
  never_triggers events a ->
  let before := sensorData a in
  let after := sensorData (run events a) in
  x (acceleration after)
  = x (acceleration before) ++ map forwardOf (filter hasAcceleration events) /\
  timestamps (acceleration after)
  = timestamps (acceleration before)
    ++ map (eventTimestamp a) (filter hasAcceleration events) /\
  x (gyroscope after)
  = x (gyroscope before) ++ map pitchOf (filter hasRotation events) /\
  timestamps (gyroscope after)
  = timestamps (gyroscope before)
    ++ map (eventTimestamp a) (filter hasRotation events) /\
  localStorage (run events a) = localStorage a /\
  alerts (run events a) = alerts a /\
  isRecording (run events a) = true.
Proof.
  revert a. induction events as [|event rest IH]; intros a Hrec Hlis Hnever.
  - cbn [filter map]. rewrite !app_nil_r. unfold run. cbn [fold_left].
    repeat split; try reflexivity. exact Hrec.
  - destruct Hnever as [Hnot Hrest].
    destruct (quiet_step event a Hrec Hlis Hnot)
      as (Hr & Hl & Hstart & Hstore & Halerts & Hdata).
    destruct (IH (devicemotion event a) Hr Hl Hrest)
      as (Hx & Ht & Hgx & Hgt & Hs & Hal & Hrun).
    change (run (event :: rest) a) with (run rest (devicemotion event a)).
    cbv zeta in *.
    assert (Hstamp : forall evs,
              map (eventTimestamp (devicemotion event a)) evs
              = map (eventTimestamp a) evs).
    { intros evs. apply map_ext. intros ev. unfold eventTimestamp.
      rewrite Hstart. reflexivity. }
    rewrite Hstamp in Ht, Hgt.
    rewrite Hx, Ht, Hgx, Hgt, Hs, Hal, Hdata, Hstore, Halerts.
    destruct (quiet_step_streams event a) as (Ex & Et & Egx & Egt).
    cbv zeta in Ex, Et, Egx, Egt. rewrite Ex, Et, Egx, Egt.
    change (event :: rest) with ([event] ++ rest).
    rewrite !filter_app, !map_app, <- !app_assoc.
    repeat split; try reflexivity. exact Hrun.
Qed.

Lemma earlyEvent_in_grace_period (a : Analyzer) :
  startTime a = 0%Z -> ~ auto_stop_condition a earlyEvent.
Proof.
  intros Hstart (acc & _ & Hlate & _).
  unfold eventTimestamp in Hlate. rewrite Hstart in Hlate.
  cbn [ev_now earlyEvent] in Hlate.
  change (1000 - 0)%Z with 1000%Z in Hlate. lra.
Qed.

Lemma events_are_logged_in_order_witness :
  isRecording shortRecording = true /\ listening shortRecording = true /\
  never_triggers [earlyEvent] shortRecording /\
  x (acceleration (sensorData (run [earlyEvent] shortRecording)))
  = [2; 2; 2; 2].
Proof.
  assert (Hrec : isRecording shortRecording = true) by reflexivity.
  assert (Hlis : listening shortRecording = true) by reflexivity.
  assert (Hnever : never_triggers [earlyEvent] shortRecording).
  { split; [|exact I]. apply earlyEvent_in_grace_period. reflexivity. }
  split; [exact Hrec|]. split; [exact Hlis|]. split; [exact Hnever|].
  destruct (events_are_logged_in_order [earlyEvent] shortRecording
              Hrec Hlis Hnever) as (Hx & _).
  rewrite Hx. reflexivity.
Defined.

(** ** What an auto-stop leaves behind *)



(** ** The auto-stop buffer *)

Lemma dueForCheck_with_sensorData (a : Analyzer) (d : SensorData) (t : R) :
  dueForCheck (with_sensorData a d) t = dueForCheck a t.
Proof. reflexivity. Qed.

Lemma handler_buffer (event : MotionEvent) (a : Analyzer) :
  isRecording a = true -> listening a = true ->
  let a' := devicemotion event a in
  match accelerationIncludingGravity event with
  | Some acc =>
      if dueForCheck a (eventTimestamp a event)
      then autoStopBuffer a' = bufferAfter a event acc /\
           lastAutoStopCheck a' = eventTimestamp a event
      else autoStopBuffer a' = autoStopBuffer a /\
           lastAutoStopCheck a' = lastAutoStopCheck a
  | None => autoStopBuffer a' = autoStopBuffer a /\
            lastAutoStopCheck a' = lastAutoStopCheck a
  end.
Proof.
  intros Hrec Hlis a'. subst a'.
  unfold devicemotion. rewrite Hlis.
  unfold deviceMotionHandler. rewrite Hrec. cbn [negb].
  destruct (accelerationIncludingGravity event) as [acc|].
  - rewrite dueForCheck_with_sensorData.
    destruct (dueForCheck a (eventTimestamp a event)).
    + unfold checkAutoStop.
      match goal with |- context [filter ?f ?l] =>
        change (filter f l) with (bufferAfter a event acc)
      end.
      destruct (Rle_dec (autoStopDuration / autoStopCheckInterval)
                        (IZR (len (bufferAfter a event acc)))).
      * destruct (forallb isCalm (bufferAfter a event acc)).
        -- match goal with |- context [stopRecording ?n ?b] =>
             pose proof (stopRecording_fields n b)
               as (_ & _ & _ & Hb & _ & _)
           end.
           destruct (rotationRate event);
             cbn [with_sensorData startTime lastAutoStopCheck autoStopBuffer
                  autoStopNotifications isRecording listening] in *;
             rewrite ?Hb; split; reflexivity.
        -- destruct (rotationRate event); cbn; split; reflexivity.
      * destruct (rotationRate event); cbn; split; reflexivity.
    + destruct (rotationRate event); cbn; split; reflexivity.
  - destruct (rotationRate event); cbn; split; reflexivity.
Qed.

Lemma StronglySorted_snoc {A} (R : A -> A -> Prop) (l : list A) (q : A) :
  StronglySorted R l -> Forall (fun p => R p q) l ->
  StronglySorted R (l ++ [q]).
Proof.
  induction l as [|p rest IH]; intros Hsorted Hall; cbn [app].
  - constructor; constructor.
  - apply StronglySorted_inv in Hsorted. destruct Hsorted as [Hrest Hp].
    inversion Hall as [|? ? Hpq Hall']; subst.
    constructor; [apply IH; assumption|].
    apply Forall_app. split; [assumption|]. constructor; [assumption|constructor].
Qed.

Lemma StronglySorted_filter {A} (R : A -> A -> Prop) (f : A -> bool)
      (l : list A) :
  StronglySorted R l -> StronglySorted R (filter f l).
Proof.
  induction l as [|p rest IH]; intros Hsorted; cbn [filter]; [constructor|].
  apply StronglySorted_inv in Hsorted. destruct Hsorted as [Hrest Hp].
  destruct (f p); [|apply IH; assumption].
  constructor; [apply IH; assumption|].
  apply Forall_forall. intros q Hq. apply filter_In in Hq.
  rewrite Forall_forall in Hp. apply Hp. tauto.
Qed.

Lemma bufferAfter_ok (event : MotionEvent) (a : Analyzer) (acc : Vec3) :
  buffer_ok a ->
  10 < eventTimestamp a event ->
  5 / 10 <= eventTimestamp a event - lastAutoStopCheck a ->
  StronglySorted half_second_apart (bufferAfter a event acc) /\
  Forall (fun p => 10 < pt_timestamp p /\
                   pt_timestamp p <= eventTimestamp a event /\
                   eventTimestamp a event - pt_timestamp p <= 3)
         (bufferAfter a event acc).
Proof.
  intros [Hsorted Hall] Hlate Hgap. unfold bufferAfter.
  set (t := eventTimestamp a event) in *.
  rewrite Forall_forall in Hall.
  split.
  - apply StronglySorted_filter, StronglySorted_snoc; [assumption|].
    apply Forall_forall. intros p Hp. unfold half_second_apart.
    cbn [pt_timestamp]. destruct (Hall p Hp) as (_ & Hle & _). lra.
  - apply Forall_forall. intros p Hp. apply filter_In in Hp.
    destruct Hp as [Hin Hrecent].
    destruct (Rle_dec (t - pt_timestamp p) 3) as [Hr|]; [|discriminate].
    apply in_app_or in Hin. destruct Hin as [Hold|[<-|[]]].
    + destruct (Hall p Hold) as (H10 & Hle & _). repeat split; lra.
    + cbn [pt_timestamp] in *. repeat split; lra.
Qed.

Lemma buffer_ok_devicemotion (event : MotionEvent) (a : Analyzer) :
  buffer_ok a -> buffer_ok (devicemotion event a).
Proof.
  intros Hok.
  destruct (isRecording a) eqn:Hrec.
  2:{ rewrite (devicemotion_stopped event a Hrec). exact Hok. }
  destruct (listening a) eqn:Hlis.
  2:{ rewrite (devicemotion_detached event a Hlis). exact Hok. }
  pose proof (handler_buffer event a Hrec Hlis) as Hbuf. cbv zeta in Hbuf.
  unfold buffer_ok.
  destruct (accelerationIncludingGravity event) as [acc|].
  - destruct (dueForCheck a (eventTimestamp a event)) eqn:Hdue.
    + destruct Hbuf as [-> ->].
      apply dueForCheck_iff in Hdue. destruct Hdue as [Hlate Hgap].
      apply bufferAfter_ok; assumption.
    + destruct Hbuf as [-> ->]. exact Hok.
  - destruct Hbuf as [-> ->]. exact Hok.
Qed.

Lemma buffer_ok_run (events : list MotionEvent) (a : Analyzer) :
  buffer_ok a -> buffer_ok (run events a).
Proof.
  revert a. induction events as [|event rest IH]; intros a Hok; [exact Hok|].
  change (run (event :: rest) a) with (run rest (devicemotion event a)).
  apply IH, buffer_ok_devicemotion, Hok.
Qed.

Lemma buffer_ok_startRecording (now : Z) (a : Analyzer) :
  buffer_ok (startRecording now true a).
Proof. split; constructor. Qed.

(** A chain of entries made at least 0.5 s apart, none later than [t]: the
    first was made at least 0.5 s times the number of the others before. *)
Lemma chain_span (t : R) (p : BufferPoint) (l : list BufferPoint) :
  StronglySorted half_second_apart (p :: l) ->
  Forall (fun q => pt_timestamp q <= t) (p :: l) ->
  pt_timestamp p + 5 / 10 * INR (length l) <= t.
Proof.
  revert p. induction l as [|q rest IH]; intros p Hsorted Hall.
  - inversion Hall; subst. cbn [length INR]. lra.
  - apply StronglySorted_inv in Hsorted. destruct Hsorted as [Hrest Hp].
    inversion Hall as [|? ? _ Hall']; subst.
    inversion Hp as [|? ? Hpq _]; subst. unfold half_second_apart in Hpq.
    specialize (IH q Hrest Hall').
    change (length (q :: rest)) with (S (length rest)). rewrite S_INR. lra.
Qed.

Lemma buffer_ok_length (a : Analyzer) :
  buffer_ok a -> (length (autoStopBuffer a) <= 7)%nat.
Proof.
  intros [Hsorted Hall].
  destruct (autoStopBuffer a) as [|p rest]; [cbn; lia|].
  assert (Hspan : pt_timestamp p + 5 / 10 * INR (length rest)
                  <= lastAutoStopCheck a).
  { apply chain_span; [assumption|].
    eapply Forall_impl; [|exact Hall]. cbv beta. intros q Hq. tauto. }
  inversion Hall as [|? ? (_ & _ & Hp) _]; subst.
  assert (Hsix : INR (length rest) <= INR 6) by (cbn [INR]; lra).
  apply INR_le in Hsix. cbn [length]. lia.
Qed.

Lemma run_startTime (events : list MotionEvent) (a : Analyzer) :
  startTime (run events a) = startTime a.
Proof.
  revert a. induction events as [|event rest IH]; intros a; [reflexivity|].
  change (run (event :: rest) a) with (run rest (devicemotion event a)).
  rewrite IH. apply devicemotion_startTime.
Qed.

Lemma emits_needs_recording (event : MotionEvent) (a : Analyzer) :
  emits event a -> isRecording a = true /\ listening a = true.
Proof.
  unfold emits. intros Hemit.
  destruct (isRecording a) eqn:Hrec.
  2:{ rewrite (devicemotion_stopped event a Hrec) in Hemit. lia. }
  destruct (listening a) eqn:Hlis.
  2:{ rewrite (devicemotion_detached event a Hlis) in Hemit. lia. }
  split; reflexivity.
Qed.

(** Whatever events arrive after a recording is started, the auto-stop
    buffer never holds more than 7 entries: they were made at checks at
    least 0.5 s apart and none is older than 3.0 s at the last check. *)
Theorem auto_stop_buffer_is_bounded
  (now : Z) (a : Analyzer) (events : list MotionEvent) :
  let r := run events (startRecording now true a) in
  (length (autoStopBuffer r) <= 7)%nat /\
  StronglySorted half_second_apart (autoStopBuffer r) /\
  forall p, In p (autoStopBuffer r) ->
            10 < pt_timestamp p /\
            lastAutoStopCheck r - 3 <= pt_timestamp p <= lastAutoStopCheck r.
Proof.
  intros r.
  assert (Hok : buffer_ok r)
    by (apply buffer_ok_run, buffer_ok_startRecording).
  split; [apply buffer_ok_length; exact Hok|].
  destruct Hok as [Hsorted Hall]. split; [exact Hsorted|].
  rewrite Forall_forall in Hall. intros p Hp.
  destruct (Hall p Hp) as (H10 & Hle & Hold). repeat split; lra.
Qed.

Lemma emission_is_late (event : MotionEvent) (a : Analyzer) :
  buffer_ok a -> emits event a -> 125 / 10 < eventTimestamp a event.
Proof.
  intros Hok Hemit.
  destruct (emits_needs_recording event a Hemit) as [Hrec Hlis].
  apply (emits_iff event a Hrec Hlis) in Hemit.
  destruct Hemit as (acc & _ & Hlate & Hgap & Hlen & _).
  destruct (bufferAfter_ok event a acc Hok Hlate Hgap) as [Hsorted Hall].
  destruct (bufferAfter a event acc) as [|p rest]; [cbn in Hlen; lia|].
  assert (Hspan : pt_timestamp p + 5 / 10 * INR (length rest)
                  <= eventTimestamp a event).
  { apply chain_span; [assumption|].
    eapply Forall_impl; [|exact Hall]. cbv beta. intros q Hq. tauto. }
  inversion Hall as [|? ? (Hp & _) _]; subst.
  assert (Hfive : INR 5 <= INR (length rest))
    by (apply le_INR; cbn [length] in Hlen; lia).
  cbn [INR] in Hfive. lra.
Qed.

(** A recording never stops by itself in its first 12.5 s: the signal needs
    six checks, the first after the grace period of 10 s and each at least
    0.5 s after the one before.  So a motion event whose timestamp, counted
    from the start of the recording, is 12.5 s or less emits no signal,
    whatever events came before it. *)
Theorem no_auto_stop_before_12_5_seconds
  (now : Z) (a : Analyzer) (events : list MotionEvent) (event : MotionEvent) :
  let r := run events (startRecording now true a) in
  eventTimestamp r event = IZR (ev_now event - now) / 1000 /\
  (eventTimestamp r event <= 125 / 10 -> ~ emits event r).
Proof.
  intros r. split.
  { unfold eventTimestamp, r. rewrite run_startTime. reflexivity. }
  intros Hearly Hemit.
  assert (Hok : buffer_ok r)
    by (apply buffer_ok_run, buffer_ok_startRecording).
  pose proof (emission_is_late event r Hok Hemit). lra.
Qed.

Lemma no_auto_stop_before_12_5_seconds_witness :
  eventTimestamp (run [earlyEvent] (startRecording 0 true shortRecording))
                 earlyEvent <= 125 / 10 /\
  ~ emits earlyEvent (run [earlyEvent] (startRecording 0 true shortRecording)).
Proof.
  destruct (no_auto_stop_before_12_5_seconds 0 shortRecording [earlyEvent]
                                             earlyEvent) as [Ht Hquiet].
  cbv zeta in Ht, Hquiet.
  assert (Hearly : eventTimestamp
                     (run [earlyEvent] (startRecording 0 true shortRecording))
                     earlyEvent <= 125 / 10).
  { rewrite Ht. cbn [ev_now earlyEvent].
    change (1000 - 0)%Z with 1000%Z. lra. }
  split; [exact Hearly|exact (Hquiet Hearly)].
Defined.


(** ** The two maxima of the metrics record *)

Lemma fold_js_max2_spec (values : list R) (r : R) :
  exists m,
    fold_left js_max2 values (Finite r) = Finite m /\
    (m = r \/ In m values) /\ r <= m /\ forall v, In v values -> v <= m.
Proof.
  revert r. induction values as [|v rest IH]; intros r; cbn [fold_left js_max2].
  - exists r. split; [reflexivity|]. split; [left; reflexivity|].
    split; [lra|]. intros v [].
  - destruct (IH (Rmax r v)) as (m & Hm & Hin & Hle & Hall).
    exists m. split; [exact Hm|].
    pose proof (Rmax_l r v). pose proof (Rmax_r r v).
    split.
    + destruct Hin as [->|Hin]; [|right; right; exact Hin].
      unfold Rmax. destruct (Rle_dec r v); [right; left|left]; reflexivity.
    + split; [lra|]. intros w [<-|Hw]; [lra|apply Hall; exact Hw].
Qed.

Lemma Math_max_spec (values : list R) :
  values <> [] ->
  exists m, Math_max values = Finite m /\ In m values /\
            forall v, In v values -> v <= m.
Proof.
  intros Hne. destruct values as [|v rest]; [congruence|].
  unfold Math_max. cbn [fold_left js_max2].
  destruct (fold_js_max2_spec rest v) as (m & Hm & Hin & Hle & Hall).
  exists m. split; [exact Hm|]. split.
  - destruct Hin as [->|Hin]; [left; reflexivity|right; exact Hin].
  - intros w [<-|Hw]; [exact Hle|apply Hall; exact Hw].
Qed.

Lemma In_map_Rabs_firstn (arr : list R) (p : nat) (v : R) :
  (p <= length arr)%nat ->
  (In v (map Rabs (firstn p arr)) <->
   exists i, (0 <= i < Z.of_nat p)%Z /\ v = Rabs (get arr i)).
Proof.
  intros Hp. rewrite in_map_iff. split.
  - intros (w & <- & Hw).
    destruct (In_nth _ _ 0 Hw) as (n & Hn & Hnth).
    rewrite length_firstn in Hn.
    exists (Z.of_nat n). split; [lia|].
    unfold get. rewrite Nat2Z.id. rewrite <- Hnth, nth_firstn.
    destruct (Nat.ltb_spec n p); [reflexivity|lia].
  - intros (i & Hi & ->). exists (get arr i). split; [reflexivity|].
    unfold get.
    replace (nth (Z.to_nat i) arr 0) with (nth (Z.to_nat i) (firstn p arr) 0).
    + apply nth_In. rewrite length_firstn. lia.
    + rewrite nth_firstn. destruct (Nat.ltb_spec (Z.to_nat i) p); [reflexivity|lia].
Qed.


Lemma slice_prefix {A} (arr : list A) (p : nat) :
  (p <= length arr)%nat -> slice arr 0 (Z.of_nat p) = firstn p arr.
Proof.
  intros Hp. rewrite slice_in_range by (unfold len; lia).
  rewrite Z.sub_0_r, Nat2Z.id. reflexivity.
Qed.

(** With five acceleration samples or more, pushoffStrength is a finite
    number: the largest absolute forward acceleration among the first
    floor(n / 5) samples. *)
Theorem pushoff_is_the_window_maximum (d : SensorData) :
  (5 <= length (x (acceleration d)))%nat ->
  let ax := x (acceleration d) in
  let window := Z.of_nat (length ax / 5) in
  exists m,
    pushoffStrength (calculateAnalysisMetrics d) = Finite m /\
    (exists i, (0 <= i < window)%Z /\ m = Rabs (get ax i)) /\
    (forall i, (0 <= i < window)%Z -> Rabs (get ax i) <= m) /\
    0 <= m.
Proof.
  intros Hlong ax window. subst ax window.
  set (ax := x (acceleration d)) in *.
  assert (Hp : (length ax / 5 <= length ax)%nat)
    by (apply Nat.Div0.div_le_upper_bound; lia).
  assert (Hpos : (1 <= length ax / 5)%nat)
    by (apply Nat.div_le_lower_bound; lia).
  unfold calculateAnalysisMetrics. cbn [pushoffStrength].
  rewrite pushoffPeriodOf_div. fold ax. rewrite (slice_prefix ax _ Hp).
  assert (Hne : map Rabs (firstn (length ax / 5) ax) <> []).
  { intros Hnil. apply (f_equal (@length R)) in Hnil.
    rewrite length_map, length_firstn in Hnil. cbn [length] in Hnil. lia. }
  destruct (Math_max_spec _ Hne) as (m & Hm & Hin & Hall).
  exists m. split; [exact Hm|].
  apply (In_map_Rabs_firstn ax _ m Hp) in Hin.
  split; [exact Hin|]. split.
  - intros i Hi. apply Hall. apply (In_map_Rabs_firstn ax _ _ Hp).
    exists i. split; [exact Hi|reflexivity].
  - destruct Hin as (i & _ & ->). apply Rabs_pos.
Qed.

Lemma pushoff_is_the_window_maximum_witness :
  (5 <= length (x (acceleration scenarioData)))%nat /\
  pushoffStrength (calculateAnalysisMetrics scenarioData) = Finite 5.
Proof.
  assert (Hlong : (5 <= length (x (acceleration scenarioData)))%nat)
    by (cbn; lia).
  split; [exact Hlong|].
  destruct (pushoff_is_the_window_maximum scenarioData Hlong)
    as (m & Hm & (i & Hi & Hmi) & _).
  rewrite Hm. f_equal. rewrite Hmi.
  assert (i = 0%Z) as -> by (cbn in Hi; lia).
  change (get (x (acceleration scenarioData)) 0) with 5.
  apply Rabs_right. lra.
Defined.



(** ** Slide duration *)

(** For a capture with acceleration samples, the slideDuration of the
    processed capture is the time between the first and the last sample the
    trimmer keeps; it is not negative when the timestamps do not decrease. *)
Theorem slide_duration_spans_the_interval (d : SensorData) :
  wf_stream (acceleration d) ->
  x (acceleration d) <> [] ->
  let accel := acceleration d in
  let t := timestamps accel in
  let m := calculateAnalysisMetrics (calculateVelocity (trimToActualThrow d)) in
  slideDuration m
  = get t (trimEndIndex accel) - get t (trimStartIndex accel) /\
  ((forall i j, (0 <= i <= j)%Z -> (j < len t)%Z -> get t i <= get t j) ->
   0 <= slideDuration m).
Proof.
  intros Hwf Hne accel t m. subst accel t m.
  destruct (trimmed_capture_facts d Hwf Hne)
    as (Hs & He & (_ & _ & Ht') & Hlen & Hpt & Hzero & _ & _).
  set (accel := acceleration d) in *.
  set (accel' := acceleration (trimToActualThrow d)) in *.
  set (s := trimStartIndex accel) in *.
  set (e := trimEndIndex accel) in *.
  assert (Hlent : len (timestamps accel') = (e - s + 1)%Z)
    by (unfold len in *; lia).
  assert (Hdur : slideDuration
                   (calculateAnalysisMetrics
                      (calculateVelocity (trimToActualThrow d)))
                 = get (timestamps accel) e - get (timestamps accel) s).
  { unfold calculateAnalysisMetrics.
    cbn [slideDuration calculateVelocity acceleration]. fold accel'.
    assert (Hmatch : forall ts : list R, ts <> [] ->
              match ts with
              | [] => 0
              | _ :: _ => get ts (len ts - 1) - get ts 0
              end = get ts (len ts - 1) - get ts 0)
      by (intros [|t0 rest] Hts; [congruence|reflexivity]).
    rewrite Hmatch.
    - rewrite Hlent, Hzero.
      replace (e - s + 1 - 1)%Z with (e - s)%Z by lia.
      destruct (Hpt (e - s)%Z ltac:(lia)) as (_ & _ & _ & Hlast).
      rewrite Hlast. replace (s + (e - s))%Z with e by lia. ring.
    - intros Hnil. rewrite Hnil in Hlent. unfold len in Hlent.
      cbn [length] in Hlent. lia. }
  split; [exact Hdur|].
  intros Hmono. rewrite Hdur.
  assert (Hwft : len (timestamps accel) = len (x accel))
    by (destruct Hwf as (_ & _ & Hw); unfold len; lia).
  specialize (Hmono s e ltac:(lia) ltac:(lia)). lra.
Qed.

Lemma slide_duration_spans_the_interval_witness :
  wf_stream (acceleration scenarioData) /\
  x (acceleration scenarioData) <> [] /\
  0 <= slideDuration
         (calculateAnalysisMetrics
            (calculateVelocity (trimToActualThrow scenarioData))).
Proof.
  assert (Hwf : wf_stream (acceleration scenarioData)) by (repeat split).
  assert (Hne : x (acceleration scenarioData) <> []) by discriminate.
  split; [exact Hwf|]. split; [exact Hne|].
  destruct (slide_duration_spans_the_interval scenarioData Hwf Hne)
    as [_ Hpos].
  apply Hpos. intros i j Hi Hj.
  assert (Hj' : (j < 5)%Z) by exact Hj.
  assert (Hcases : forall k, (0 <= k < 5)%Z ->
            get (timestamps (acceleration scenarioData)) k = IZR k / 10).
  { intros k Hk.
    assert (Hk' : (k = 0 \/ k = 1 \/ k = 2 \/ k = 3 \/ k = 4)%Z) by lia.
    destruct Hk' as [->|[->|[->|[->| ->]]]];
      [change (get (timestamps (acceleration scenarioData)) 0) with 0
      |change (get (timestamps (acceleration scenarioData)) 1) with (1 / 10)
      |change (get (timestamps (acceleration scenarioData)) 2) with (2 / 10)
      |change (get (timestamps (acceleration scenarioData)) 3) with (3 / 10)
      |change (get (timestamps (acceleration scenarioData)) 4) with (4 / 10)];
      lra. }
  rewrite !Hcases by lia.
  assert (IZR i <= IZR j) by (apply IZR_le; lia). lra.
Defined.

(** ** What the analyzer stores *)

Lemma JSON_Math_max_abs_nonneg (values : list R) :
  0 <= or0 (JSON_number (Math_max (map Rabs values))).
Proof.
  destruct values as [|v rest].
  - cbn. lra.
  - assert (Hne : map Rabs (v :: rest) <> []) by discriminate.
    destruct (Math_max_spec _ Hne) as (m & -> & Hin & _).
    cbn [JSON_number or0]. apply in_map_iff in Hin.
    destruct Hin as (w & <- & _). apply Rabs_pos.
Qed.

(** Every throw the analyzer writes to storage reads back, on the session
    page, with pushoff, velocity, deceleration and stability values that are
    not negative, the stability at most 100, and a glide label that is one
    of the four the classification has. *)
Theorem stored_throw_is_in_range (now : Z) (a : Analyzer) :
  hasData a = true ->
  exists t,
    storedThrows (localStorage (stopRecording now a))
    = storedThrows (localStorage a) ++ [t] /\
    0 <= or0 (st_pushoffStrength t) /\
    0 <= or0 (st_peakVelocity t) /\
    0 <= or0 (st_decelRate t) /\
    0 <= or0 (st_stabilityScore t) <= 100 /\
    (st_glideEfficiency t = "Poor (High Drag)"%string \/
     st_glideEfficiency t = "Excellent"%string \/
     st_glideEfficiency t = "Very Good"%string \/
     st_glideEfficiency t = "Good"%string).
Proof.
  intros Hdata. rewrite (stopRecording_with_data now a Hdata).
  cbn [localStorage].
  set (d := calculateVelocity (trimToActualThrow (sensorData a))).
  unfold saveThrowToSession, storedThrows.
  cbn [curling_session_throws].
  eexists. split; [reflexivity|].
  cbn [st_pushoffStrength st_peakVelocity st_decelRate st_stabilityScore
       st_glideEfficiency or0].
  unfold calculateAnalysisMetrics.
  cbn [pushoffStrength peakVelocity decelRate stabilityScore glideEfficiency].
  split; [apply JSON_Math_max_abs_nonneg|].
  split; [apply JSON_Math_max_abs_nonneg|].
  split; [apply Rabs_pos|].
  split; [apply stabilityScoreOf_bounds|].
  unfold glideEfficiencyOf.
  repeat match goal with |- context [Rlt_dec ?u ?v] =>
    destruct (Rlt_dec u v) end; tauto.
Qed.

Lemma stored_throw_is_in_range_witness :
  hasData shortRecording = true /\
  exists t,
    storedThrows (localStorage (stopRecording 1 shortRecording)) = [t] /\
    0 <= or0 (st_pushoffStrength t).
Proof.
  assert (Hdata : hasData shortRecording = true) by reflexivity.
  split; [exact Hdata|].
  destruct (stored_throw_is_in_range 1 shortRecording Hdata)
    as (t & Hthrows & Hpush & _).
  exists t. split; [exact Hthrows|exact Hpush].
Defined.

(** ** The session summary *)

Lemma total_nonneg (values : list R) :
  (forall v, In v values -> 0 <= v) -> 0 <= total values.
Proof.
  induction values as [|v rest IH]; intros Hall.
  - unfold total. cbn. lra.
  - rewrite total_cons.
    assert (0 <= v) by (apply Hall; left; reflexivity).
    assert (0 <= total rest) by (apply IH; intros w Hw; apply Hall; right; exact Hw).
    lra.
Qed.

Lemma total_upper (values : list R) (b : R) :
  (forall v, In v values -> v <= b) -> total values <= INR (length values) * b.
Proof.
  induction values as [|v rest IH]; intros Hall.
  - unfold total. cbn. lra.
  - rewrite total_cons. change (length (v :: rest)) with (S (length rest)).
    rewrite S_INR.
    assert (v <= b) by (apply Hall; left; reflexivity).
    assert (total rest <= INR (length rest) * b)
      by (apply IH; intros w Hw; apply Hall; right; exact Hw).
    lra.
Qed.

Lemma mean_bounds (values : list R) (b : R) :
  values <> [] ->
  (forall v, In v values -> 0 <= v <= b) ->
  0 <= mean values <= b.
Proof.
  intros Hne Hall.
  assert (Hn : 0 < INR (length values)).
  { apply lt_0_INR. destruct values; [congruence|cbn; lia]. }
  assert (Hlo : 0 <= total values)
    by (apply total_nonneg; intros v Hv; apply Hall; exact Hv).
  assert (Hhi : total values <= INR (length values) * b)
    by (apply total_upper; intros v Hv; apply Hall; exact Hv).
  unfold mean. split.
  - apply Rmult_le_pos; [exact Hlo|]. apply Rlt_le, Rinv_0_lt_compat, Hn.
  - apply (Rmult_le_reg_r (INR (length values))); [exact Hn|].
    unfold Rdiv. rewrite Rmult_assoc, Rinv_l by lra. lra.
Qed.

Lemma coefficient_of_variation_nonneg (values : list R) :
  (forall v, In v values -> 0 <= v) -> 0 <= coefficient_of_variation values.
Proof.
  intros Hall. unfold coefficient_of_variation.
  destruct (Req_dec_T (mean values) 0) as [|Hnz]; [lra|].
  assert (Hmean : 0 < mean values).
  { destruct values as [|v rest]; [rewrite mean_nil in Hnz; congruence|].
    assert (Hn : 0 < INR (length (v :: rest))) by (apply lt_0_INR; cbn; lia).
    assert (Hlo : 0 <= mean (v :: rest)).
    { unfold mean. apply Rmult_le_pos; [apply total_nonneg; exact Hall|].
      apply Rlt_le, Rinv_0_lt_compat, Hn. }
    lra. }
  unfold std_dev.
  apply Rmult_le_pos; [|lra].
  apply Rmult_le_pos; [apply sqrt_pos|].
  apply Rlt_le, Rinv_0_lt_compat, Hmean.
Qed.

(** The consistency of a session is never negative; when no throw of the
    session has a negative pushoff, velocity or stability value, as is the
    case for the throws the analyzer stores, it is at most 100, and when the
    stability scores lie in [0, 100] so does their average. *)
Theorem consistency_is_a_percentage (throws : list StoredThrow) :
  throws <> [] ->
  exists summary,
    calculateSessionSummary throws = Some summary /\
    0 <= consistency summary /\
    ((forall t, In t throws ->
                0 <= or0 (st_pushoffStrength t) /\
                0 <= or0 (st_peakVelocity t) /\
                0 <= or0 (st_stabilityScore t)) ->
     consistency summary <= 100) /\
    ((forall t, In t throws -> 0 <= or0 (st_stabilityScore t) <= 100) ->
     0 <= avgStability summary <= 100).
Proof.
  intros Hne. destruct throws as [|t0 rest] eqn:Hthrows; [congruence|].
  rewrite <- Hthrows in *.
  assert (Hsome : exists summary, calculateSessionSummary throws = Some summary)
    by (rewrite Hthrows; eexists; reflexivity).
  destruct Hsome as [summary Hsome]. exists summary.
  split; [exact Hsome|].
  assert (Hcons : consistency summary
                  = Rmax 0 (100 - (calculateCV (map (fun t => or0 (st_pushoffStrength t)) throws)
                                   + calculateCV (map (fun t => or0 (st_peakVelocity t)) throws)
                                   + calculateCV (map (fun t => or0 (st_stabilityScore t)) throws))
                                  / 3 * 10)).
  { rewrite Hthrows in Hsome |- *. injection Hsome as <-. reflexivity. }
  assert (Havg : avgStability summary
                 = mean (map (fun t => or0 (st_stabilityScore t)) throws)).
  { rewrite Hthrows in Hsome |- *. injection Hsome as <-.
    cbn [avgStability]. unfold mean. rewrite sum_total, IZR_len. reflexivity. }
  split; [rewrite Hcons; apply Rmax_l|]. split.
  - intros Hall. rewrite Hcons, !calculateCV_spec.
    assert (Hp : 0 <= coefficient_of_variation
                        (map (fun t => or0 (st_pushoffStrength t)) throws)).
    { apply coefficient_of_variation_nonneg. intros v Hv.
      apply in_map_iff in Hv. destruct Hv as (t & <- & Ht).
      apply (Hall t Ht). }
    assert (Hv : 0 <= coefficient_of_variation
                        (map (fun t => or0 (st_peakVelocity t)) throws)).
    { apply coefficient_of_variation_nonneg. intros v Hv.
      apply in_map_iff in Hv. destruct Hv as (t & <- & Ht).
      apply (Hall t Ht). }
    assert (Hs : 0 <= coefficient_of_variation
                        (map (fun t => or0 (st_stabilityScore t)) throws)).
    { apply coefficient_of_variation_nonneg. intros v Hv'.
      apply in_map_iff in Hv'. destruct Hv' as (t & <- & Ht).
      apply (Hall t Ht). }
    apply Rmax_lub; lra.
  - intros Hall. rewrite Havg. apply mean_bounds.
    + rewrite Hthrows. discriminate.
    + intros v Hv. apply in_map_iff in Hv. destruct Hv as (t & <- & Ht).
      apply (Hall t Ht).
Qed.

Lemma consistency_is_a_percentage_witness :
  risingSession <> [] /\
  exists summary,
    calculateSessionSummary risingSession = Some summary /\
    0 <= consistency summary <= 100.
Proof.
  assert (Hne : risingSession <> []) by discriminate.
  split; [exact Hne|].
  destruct (consistency_is_a_percentage risingSession Hne)
    as (summary & Hsome & Hlo & Hhi & _).
  exists summary. split; [exact Hsome|]. split; [exact Hlo|].
  apply Hhi. intros t Ht. cbn in Ht.
  destruct Ht as [<-|[<-|[<-|[]]]]; cbn [risingThrow st_pushoffStrength
    st_peakVelocity st_stabilityScore or0]; repeat split; lra.
Defined.

Lemma fold_left_add_gen {A} (f : A -> R) (l : list A) (a : R) :
  fold_left (fun acc v => acc + f v) l a = a + total (map f l).
Proof.
  revert a. induction l as [|v rest IH]; intros a; cbn [fold_left map].
  - unfold total. cbn [fold_right]. ring.
  - rewrite IH, total_cons. ring.
Qed.

Lemma slice_last_three {A} (arr : list A) :
  (3 <= length arr)%nat ->
  slice_from arr (-3) = skipn (length arr - 3) arr.
Proof.
  intros Hlen. unfold slice_from, slice, len.
  change (-3 <? 0)%Z with true. cbv iota.
  assert (Hn : (Z.of_nat (length arr) <? 0)%Z = false)
    by (apply Z.ltb_ge; lia).
  rewrite Hn, Z.min_id.
  replace (Z.to_nat (Z.max (Z.of_nat (length arr) + -3) 0))
    with (length arr - 3)%nat by lia.
  apply firstn_all2. rewrite length_skipn. lia.
Qed.

Lemma stabilityMean_mean (ts : list StoredThrow) :
  stabilityMean ts = mean (map (fun t => or0 (st_stabilityScore t)) ts).
Proof.
  unfold stabilityMean, mean.
  rewrite (fold_left_add_gen (fun t => or0 (st_stabilityScore t))).
  rewrite IZR_len, length_map. f_equal. ring.
Qed.

(** The trend of a session compares the mean stability of its last three
    throws with that of its first three: Improving when the later mean is
    more than 5 above, Declining when it is more than 5 below, Stable
    otherwise; a session of one, two or three throws is always Stable, the
    two windows of three throws being the same. *)
Theorem improvement_compares_three_and_three (throws : list StoredThrow) :
  throws <> [] ->
  let stability := map (fun t => or0 (st_stabilityScore t)) in
  let early := mean (stability (firstn 3 throws)) in
  let recent := mean (stability (skipn (length throws - 3) throws)) in
  exists summary,
    calculateSessionSummary throws = Some summary /\
    ((length throws <= 3)%nat -> improvement summary = "Stable"%string) /\
    ((3 <= length throws)%nat ->
     (early + 5 < recent -> improvement summary = "Improving"%string) /\
     (recent < early - 5 -> improvement summary = "Declining"%string) /\
     (early - 5 <= recent <= early + 5 ->
      improvement summary = "Stable"%string)).
Proof.
  intros Hne stability early recent.
  assert (Himp : exists summary,
             calculateSessionSummary throws = Some summary /\
             improvement summary
             = if (3 <=? len throws)%Z
               then if Rlt_dec (stabilityMean (slice throws 0 3) + 5)
                               (stabilityMean (slice_from throws (-3)))
                    then "Improving"%string
                    else if Rlt_dec (stabilityMean (slice_from throws (-3)))
                                    (stabilityMean (slice throws 0 3) - 5)
                         then "Declining"%string else "Stable"%string
               else "Stable"%string).
  { destruct throws as [|t0 rest]; [congruence|].
    eexists. split; reflexivity. }
  destruct Himp as (summary & Hsome & Himp).
  exists summary. split; [exact Hsome|].
  assert (Hlong : (3 <= length throws)%nat ->
            stabilityMean (slice throws 0 3) = early /\
            stabilityMean (slice_from throws (-3)) = recent /\
            (3 <=? len throws)%Z = true).
  { intros Hlen. split; [|split].
    - change 3%Z with (Z.of_nat 3).
      rewrite (slice_prefix throws 3 Hlen). apply stabilityMean_mean.
    - rewrite (slice_last_three throws Hlen). apply stabilityMean_mean.
    - apply Z.leb_le. unfold len. lia. }
  split.
  - intros Hshort. rewrite Himp.
    destruct (Z.leb_spec 3 (len throws)) as [Hthree|]; [|reflexivity].
    assert (Hlen : length throws = 3%nat) by (unfold len in Hthree; lia).
    destruct (Hlong ltac:(lia)) as (-> & -> & _).
    assert (Hsame : recent = early).
    { unfold recent, early. rewrite Hlen. cbn [Nat.sub skipn].
      rewrite firstn_all2 by lia. reflexivity. }
    rewrite Hsame.
    destruct (Rlt_dec (early + 5) early); [lra|].
    destruct (Rlt_dec early (early - 5)); [lra|reflexivity].
  - intros Hlen. destruct (Hlong Hlen) as (He & Hr & Hb).
    rewrite Himp, Hb, He, Hr.
    destruct (Rlt_dec (early + 5) recent);
      destruct (Rlt_dec recent (early - 5));
      repeat split; intros; try reflexivity; lra.
Qed.

Lemma improvement_compares_three_and_three_witness :
  risingSession <> [] /\ (length risingSession <= 3)%nat /\
  exists summary,
    calculateSessionSummary risingSession = Some summary /\
    improvement summary = "Stable"%string.
Proof.
  assert (Hne : risingSession <> []) by discriminate.
  assert (Hshort : (length risingSession <= 3)%nat) by (cbn; lia).
  split; [exact Hne|]. split; [exact Hshort|].
  destruct (improvement_compares_three_and_three risingSession Hne)
    as (summary & Hsome & Hstable & _).
  exists summary. split; [exact Hsome|exact (Hstable Hshort)].
Defined.

(** ** The stability index drawn on the velocity chart *)

Lemma rmsWindow_spec (gyro : Stream) (fuel : nat) (j : Z) (rmsSum : R) (count : Z) :
  rmsWindow gyro fuel j rmsSum count
  = (rmsSum + total (map (fun k => get (x gyro) k ^ 2 + get (y gyro) k ^ 2)
                         (zrange j fuel)),
     (count + Z.of_nat fuel)%Z).
Proof.
  revert j rmsSum count. induction fuel as [|fuel IH]; intros j rmsSum count.
  - cbn [rmsWindow zrange map]. unfold total. cbn [fold_right].
    f_equal; [ring|lia].
  - cbn [rmsWindow zrange map]. rewrite IH, total_cons.
    f_equal; [ring|lia].
Qed.

Lemma stabilityAt_spec (gyro : Stream) (i : Z) :
  stabilityAt gyro i = sqrt (windowMeanSquare gyro i).
Proof.
  unfold stabilityAt, windowMeanSquare.
  change (windowSize / 2)%Z with 2%Z.
  replace (i + 2 + 1)%Z with (i + 3)%Z by lia.
  rewrite rmsWindow_spec.
  set (lo := Z.max 0 (i - 2)). set (hi := Z.min (len (x gyro)) (i + 3)).
  replace (0 + Z.of_nat (Z.to_nat (hi - lo)))%Z with (Z.max 0 (hi - lo)) by lia.
  destruct (Z.le_gt_cases 0 (hi - lo)) as [Hpos|Hneg].
  - rewrite (Z.max_r 0 (hi - lo)) by lia. f_equal. f_equal. ring.
  - rewrite (Z.max_l 0 (hi - lo)) by lia.
    replace (Z.to_nat (hi - lo)) with 0%nat by lia.
    cbn [zrange map]. unfold total. cbn [fold_right].
    f_equal. unfold Rdiv. ring.
Qed.

Lemma stabilityLoop_spec (gyro : Stream) (fuel : nat) (i : Z) (acc : list R) :
  stabilityLoop gyro fuel i acc = acc ++ map (stabilityAt gyro) (zrange i fuel).
Proof.
  revert i acc. induction fuel as [|fuel IH]; intros i acc.
  - cbn [stabilityLoop zrange map]. rewrite app_nil_r. reflexivity.
  - cbn [stabilityLoop zrange map]. rewrite IH, <- app_assoc. reflexivity.
Qed.

Lemma zrange_length (start : Z) (n : nat) : length (zrange start n) = n.
Proof.
  revert start. induction n as [|n IH]; intros start; cbn [zrange length];
    [reflexivity|]. rewrite IH. reflexivity.
Qed.

Lemma zrange_nth (start : Z) (n k : nat) (d : Z) :
  (k < n)%nat -> nth k (zrange start n) d = (start + Z.of_nat k)%Z.
Proof.
  revert start k. induction n as [|n IH]; intros start k Hk; [lia|].
  destruct k as [|k]; cbn [zrange nth]; [lia|].
  rewrite IH by lia. lia.
Qed.

Lemma zrange_In (start : Z) (n : nat) (j : Z) :
  In j (zrange start n) <-> (start <= j < start + Z.of_nat n)%Z.
Proof.
  revert start. induction n as [|n IH]; intros start; cbn [zrange In].
  - split; [intros []|lia].
  - rewrite IH. lia.
Qed.

(** The stability index has one entry per angular-rate sample; the entry at
    [i] is the root of the mean of pitch^2 + roll^2 over the indices
    max(0, i - 2) .. min(n, i + 3) - 1, a window that contains [i], never
    leaves the array and is divided by the number of samples it really
    holds; so it is not negative, and where pitch and roll are the same at
    every sample it is sqrt(pitch^2 + roll^2) at the edges as in the
    middle. *)
Theorem stability_index_is_a_windowed_rms (d : SensorData) :
  let gyro := gyroscope d in
  let n := len (x gyro) in
  let index := calculateStabilityIndex d in
  len index = n /\
  forall i, (0 <= i < n)%Z ->
    (0 <= Z.max 0 (i - 2) <= i)%Z /\ (i < Z.min n (i + 3) <= n)%Z /\
    get index i = sqrt (windowMeanSquare gyro i) /\
    0 <= get index i /\
    (forall pitch roll,
        (forall j, (0 <= j < n)%Z ->
                   get (x gyro) j = pitch /\ get (y gyro) j = roll) ->
        get index i = sqrt (pitch ^ 2 + roll ^ 2)).
Proof.
  intros gyro n index. subst index. unfold calculateStabilityIndex.
  fold gyro. rewrite stabilityLoop_spec. cbn [app].
  split.
  { unfold len. rewrite length_map, zrange_length. reflexivity. }
  intros i Hi.
  assert (Hget : get (map (stabilityAt gyro) (zrange 0 (length (x gyro)))) i
                 = sqrt (windowMeanSquare gyro i)).
  { unfold get.
    rewrite (nth_indep _ 0 (stabilityAt gyro 0))
      by (rewrite length_map, zrange_length; unfold n, len in Hi; lia).
    rewrite map_nth, zrange_nth by (unfold n, len in Hi; lia).
    rewrite Z.add_0_l, Z2Nat.id by lia. apply stabilityAt_spec. }
  split; [lia|]. split; [lia|]. split; [exact Hget|].
  split; [rewrite Hget; apply sqrt_pos|].
  intros pitch roll Hconst. rewrite Hget. f_equal.
  unfold windowMeanSquare. fold n.
  set (lo := Z.max 0 (i - 2)). set (hi := Z.min n (i + 3)).
  assert (Hmap : map (fun j => get (x gyro) j ^ 2 + get (y gyro) j ^ 2)
                     (zrange lo (Z.to_nat (hi - lo)))
                 = map (fun _ => pitch ^ 2 + roll ^ 2)
                       (zrange lo (Z.to_nat (hi - lo)))).
  { apply map_ext_in. intros j Hj. apply zrange_In in Hj.
    destruct (Hconst j ltac:(lia)) as [-> ->]. reflexivity. }
  rewrite Hmap.
  assert (Htotal : forall (c : R) (l : list Z),
            total (map (fun _ => c) l) = INR (length l) * c).
  { intros c l. induction l as [|v rest IH].
    - unfold total. cbn. ring.
    - cbn [map]. rewrite total_cons, IH.
      change (length (v :: rest)) with (S (length rest)). rewrite S_INR. ring. }
  rewrite Htotal, zrange_length, INR_IZR_INZ, Z2Nat.id by lia.
  field. apply not_0_IZR. lia.
Qed.

(** ** The session page *)

Lemma splice1_in_range {A} (arr : list A) (i : nat) :
  (i < length arr)%nat ->
  splice1 arr (Z.of_nat i) = firstn i arr ++ skipn (S i) arr.
Proof.
  intros Hi. unfold splice1, len.
  assert (Hneg : (Z.of_nat i <? 0)%Z = false) by (apply Z.ltb_ge; lia).
  rewrite Hneg, Z.min_l, Nat2Z.id by lia.
  replace (i + 1)%nat with (S i) by lia. reflexivity.
Qed.

Lemma splice1_past_end {A} (arr : list A) (index : Z) :
  (len arr <= index)%Z -> splice1 arr index = arr.
Proof.
  intros Hi. unfold splice1. unfold len in *.
  assert (Hneg : (index <? 0)%Z = false) by (apply Z.ltb_ge; lia).
  rewrite Hneg, Z.min_r, Nat2Z.id by lia.
  rewrite firstn_all, skipn_all2 by lia. apply app_nil_r.
Qed.

(** A confirmed deleteThrow at an index of the table removes that throw and
    no other: the throws before it keep their places, those after it move
    down by one, and the list that is left is what storage then holds, so
    that the next throw the analyzer saves is appended to it.  An index past
    the end removes nothing, and a dialog that is not confirmed changes
    neither the page nor storage. *)
Theorem delete_removes_one_throw
  (index : nat) (page : SessionPage) (ls : Storage) :
  let after := deleteThrow true (Z.of_nat index) page ls in
  ((index < length (throws page))%nat ->
   throws (fst after)
   = firstn index (throws page) ++ skipn (S index) (throws page) /\
   S (length (throws (fst after))) = length (throws page) /\
   (forall j d, (j < index)%nat ->
                nth j (throws (fst after)) d = nth j (throws page) d) /\
   (forall j d, (index <= j)%nat ->
                nth j (throws (fst after)) d = nth (S j) (throws page) d)) /\
  ((length (throws page) <= index)%nat ->
   throws (fst after) = throws page) /\
  storedThrows (snd after) = throws (fst after) /\
  curling_latest_throw (snd after) = curling_latest_throw ls /\
  currentSession (fst after) = currentSession page /\
  (forall now analysis,
      exists t,
        storedThrows (saveThrowToSession now analysis (snd after))
        = throws (fst after) ++ [t] /\ id t = now) /\
  deleteThrow false (Z.of_nat index) page ls = (page, ls).
Proof.
  intros after. subst after. unfold deleteThrow. cbn [negb fst snd throws].
  split; [|split; [|split; [|split; [|split; [|split]]]]]; try reflexivity.
  - intros Hi. rewrite (splice1_in_range _ _ Hi).
    assert (Hfirst : length (firstn index (throws page)) = index)
      by (rewrite length_firstn; lia).
    split; [reflexivity|]. split.
    { rewrite length_app, Hfirst, length_skipn. lia. }
    split.
    + intros j d Hj. rewrite app_nth1 by lia. rewrite nth_firstn.
      destruct (Nat.ltb_spec j index); [reflexivity|lia].
    + intros j d Hj. rewrite app_nth2 by lia. rewrite Hfirst, nth_skipn.
      f_equal. lia.
  - intros Hi. apply splice1_past_end. unfold len. lia.
  - intros now analysis.
    destruct (storedThrows_save now analysis
                (saveSessionData
                   (mkPage (splice1 (throws page) (Z.of_nat index))
                           (currentSession page)) ls))
      as (t & Hthrows & _ & Hid & _).
    exists t. split; [exact Hthrows|exact Hid].
Qed.

Lemma delete_removes_one_throw_witness :
  (1 < length (throws (mkPage risingSession None)))%nat /\
  throws (fst (deleteThrow true 1 (mkPage risingSession None) emptyStorage))
  = [risingThrow 1 40; risingThrow 3 85].
Proof.
  assert (Hin : (1 < length (throws (mkPage risingSession None)))%nat)
    by (cbn; lia).
  split; [exact Hin|].
  destruct (delete_removes_one_throw 1 (mkPage risingSession None) emptyStorage)
    as (Hdel & _).
  destruct (Hdel Hin) as (Hthrows & _).
  exact Hthrows.
Defined.

(** startNewSession, when the page holds no throw or the dialog is
    confirmed, leaves a session with no throw that is stamped with the
    clock, in the page and in storage, and clears the latest throw; the
    next throw the analyzer saves is then the only one stored and carries
    the id of that session.  When the page holds throws and the dialog is
    not confirmed, nothing changes. *)
Theorem new_session_starts_empty
  (now : Z) (confirmed : bool) (page : SessionPage) (ls : Storage) :
  let after := startNewSession now confirmed page ls in
  ((throws page = [] \/ confirmed = true) ->
   throws (fst after) = [] /\
   currentSession (fst after) = Some (mkSession now now) /\
   snd after = mkStorage (Some (mkSession now now)) (Some []) None /\
   forall later analysis,
     exists t,
       storedThrows (saveThrowToSession later analysis (snd after)) = [t] /\
       id t = later /\ sessionId t = now /\
       curling_current_session (saveThrowToSession later analysis (snd after))
       = Some (mkSession now now)) /\
  (throws page <> [] -> confirmed = false -> after = (page, ls)).
Proof.
  intros after. subst after. unfold startNewSession. split.
  - intros Hgo.
    assert (Hcond : (0 <? len (throws page))%Z && negb confirmed = false).
    { destruct Hgo as [Hnil| ->]; [rewrite Hnil; reflexivity|].
      apply andb_false_r. }
    rewrite Hcond. cbn [fst snd throws currentSession].
    split; [reflexivity|]. split; [reflexivity|]. split; [reflexivity|].
    intros later analysis. eexists. repeat split.
  - intros Hne ->.
    assert (Hcond : (0 <? len (throws page))%Z && negb false = true).
    { rewrite andb_true_r. apply Z.ltb_lt. unfold len.
      destruct (throws page); [congruence|cbn [length]; lia]. }
    rewrite Hcond. reflexivity.
Qed.

Lemma new_session_starts_empty_witness :
  (throws (mkPage risingSession None) = [] \/ true = true) /\
  snd (startNewSession 7 true (mkPage risingSession None) emptyStorage)
  = mkStorage (Some (mkSession 7 7)) (Some []) None.
Proof.
  assert (Hgo : throws (mkPage risingSession None) = [] \/ true = true)
    by (right; reflexivity).
  split; [exact Hgo|].
  destruct (new_session_starts_empty 7 true (mkPage risingSession None)
                                     emptyStorage) as (Hnew & _).
  destruct (Hnew Hgo) as (_ & _ & Hstore & _). exact Hstore.
Defined.

(** ** The analytics log *)

Lemma slice_last {A} (arr : list A) (k : nat) :
  (0 < k)%nat ->
  slice_from arr (- Z.of_nat k) = skipn (length arr - k) arr.
Proof.
  intros Hk. unfold slice_from, slice, len.
  assert (Hneg : (- Z.of_nat k <? 0)%Z = true) by (apply Z.ltb_lt; lia).
  assert (Hn : (Z.of_nat (length arr) <? 0)%Z = false)
    by (apply Z.ltb_ge; lia).
  rewrite Hneg, Hn, Z.min_id.
  replace (Z.to_nat (Z.max (Z.of_nat (length arr) + - Z.of_nat k) 0))
    with (length arr - k)%nat by lia.
  apply firstn_all2. rewrite length_skipn. lia.
Qed.

Section AnalyticsLog.

Context {EventData : Type}.

Lemma storeEventsLocally_spec (sent : list EventData) (an : Analytics EventData) :
  getStoredData (storeEventsLocally sent an)
  = skipn (length (getStoredData an ++ sent) - 1000) (getStoredData an ++ sent).
Proof.
  unfold storeEventsLocally. cbn [getStoredData curling_analytics].
  change (-1000)%Z with (- Z.of_nat 1000)%Z.
  apply slice_last. lia.
Qed.

(** A flush of an enabled analytics object with events in its queue empties
    the queue and stores the events behind those already stored, keeping
    the last 1000 of the whole: the stored log never holds more than 1000
    events, nothing is dropped while it holds fewer, and the events just
    sent are its end.  A flush with an empty queue, or of a disabled
    object, changes nothing. *)
Theorem flush_keeps_the_last_1000 (an : Analytics EventData) :
  (analytics_enabled an = true -> analytics_events an <> [] ->
   let log := getStoredData an ++ analytics_events an in
   analytics_events (flush an) = [] /\
   getStoredData (flush an) = skipn (length log - 1000) log /\
   (length (getStoredData (flush an)) <= 1000)%nat /\
   ((length log <= 1000)%nat -> getStoredData (flush an) = log) /\
   ((length (analytics_events an) <= 1000)%nat ->
    exists older, getStoredData (flush an) = older ++ analytics_events an)) /\
  (analytics_events an = [] -> flush an = an) /\
  (analytics_enabled an = false -> flush an = an).
Proof.
  split; [|split].
  - intros Hen Hne log.
    assert (Hflush : flush an
                     = storeEventsLocally (analytics_events an)
                         (mkAnalytics true [] (curling_analytics an))).
    { unfold flush. rewrite Hen. cbn [negb orb].
      destruct (Z.eqb_spec (len (analytics_events an)) 0) as [Hz|_].
      - unfold len in Hz. destruct (analytics_events an); [congruence|].
        cbn [length] in Hz. lia.
      - reflexivity. }
    rewrite Hflush.
    split; [reflexivity|].
    rewrite storeEventsLocally_spec.
    change (getStoredData (mkAnalytics true [] (curling_analytics an))
            ++ analytics_events an) with log.
    split; [reflexivity|]. split; [rewrite length_skipn; lia|]. split.
    + intros Hshort. replace (length log - 1000)%nat with 0%nat by lia.
      reflexivity.
    + intros Hfew. unfold log.
      set (old := getStoredData an). set (new := analytics_events an) in *.
      rewrite skipn_app.
      replace (length (old ++ new) - 1000 - length old)%nat with 0%nat
        by (rewrite length_app; lia).
      exists (skipn (length (old ++ new) - 1000) old). reflexivity.
  - intros Hnil. unfold flush. rewrite Hnil.
    rewrite orb_true_r. reflexivity.
  - intros Hoff. unfold flush. rewrite Hoff. reflexivity.
Qed.

(** After analyticsOptOut nothing is recorded: the stored log is removed,
    and whatever is tracked or flushed afterwards leaves the object as the
    opt-out left it, with no stored log and with the queue it had. *)
Theorem opted_out_analytics_records_nothing
  (an : Analytics EventData) (calls : list (AnalyticsCall EventData)) :
  let out := analyticsOptOut an in
  curling_analytics out = None /\
  analytics_events out = analytics_events an /\
  analyticsRun calls out = out /\
  forall event eventData, track event eventData out = (out, false).
Proof.
  intros out. split; [reflexivity|]. split; [reflexivity|].
  assert (Hstep : forall call, analyticsStep out call = out).
  { intros [event eventData|]; reflexivity. }
  split; [|reflexivity].
  induction calls as [|call rest IH]; [reflexivity|].
  unfold analyticsRun in *. cbn [fold_left]. rewrite Hstep. exact IH.
Qed.

End AnalyticsLog.

Lemma flush_keeps_the_last_1000_witness :
  analytics_enabled (mkAnalytics true [1%nat; 2%nat] (Some [0%nat])) = true /\
  analytics_events (mkAnalytics true [1%nat; 2%nat] (Some [0%nat])) <> [] /\
  getStoredData (flush (mkAnalytics true [1%nat; 2%nat] (Some [0%nat])))
  = [0%nat; 1%nat; 2%nat].
Proof.
  assert (Hne : analytics_events (mkAnalytics true [1%nat; 2%nat] (Some [0%nat]))
                <> []) by discriminate.
  split; [reflexivity|]. split; [exact Hne|].
  destruct (flush_keeps_the_last_1000
              (mkAnalytics true [1%nat; 2%nat] (Some [0%nat]))) as (Hflush & _).
  destruct (Hflush eq_refl Hne) as (_ & _ & _ & Hall & _).
  apply Hall. cbn. lia.
Defined.

(** ** The best glide of a session *)

Lemma count_label_zero (label : string) (labels : list string) :
  (forall l, In l labels -> l <> label) -> count_label label labels = 0%nat.
Proof.
  intros Hnone. unfold count_label.
  induction labels as [|l rest IH]; [reflexivity|].
  cbn [filter]. destruct (String.eqb_spec label l) as [Heq|_].
  - exfalso. apply (Hnone l); [left; reflexivity|]. symmetry. exact Heq.
  - apply IH. intros l' Hl'. apply Hnone. right. exact Hl'.
Qed.

Lemma count_label_positive (label : string) (labels : list string) :
  In label labels -> (0 < count_label label labels)%nat.
Proof.
  intros Hin. unfold count_label.
  assert (Hf : In label (filter (String.eqb label) labels)).
  { apply filter_In. split; [exact Hin|]. apply String.eqb_refl. }
  destruct (filter (String.eqb label) labels); [contradiction|cbn; lia].
Qed.

(** bestGlide counts the throws labelled Excellent as soon as there is one,
    whatever the other labels; and it reads Good whenever no throw is
    labelled Excellent or Very Good, so also for a session in which every
    throw is Poor (High Drag). *)
Theorem best_glide_names_the_best_label (throws : list StoredThrow) :
  throws <> [] ->
  exists summary,
    calculateSessionSummary throws = Some summary /\
    ((exists t, In t throws /\ st_glideEfficiency t = "Excellent"%string) ->
     exists n, (0 < n)%nat /\
               n = count_label "Excellent" (map glideOrGood throws) /\
               bestGlide summary = (show_nat n ++ " Excellent")%string) /\
    ((forall t, In t throws ->
                st_glideEfficiency t <> "Excellent"%string /\
                st_glideEfficiency t <> "Very Good"%string) ->
     bestGlide summary = "Good"%string) /\
    ((forall t, In t throws ->
                st_glideEfficiency t = "Poor (High Drag)"%string) ->
     bestGlide summary = "Good"%string).
Proof.
  intros Hne.
  assert (Hbest : exists summary,
             calculateSessionSummary throws = Some summary /\
             bestGlide summary
             = if (0 <? count_label "Excellent" (map glideOrGood throws))%nat
               then (show_nat (count_label "Excellent" (map glideOrGood throws))
                     ++ " Excellent")%string
               else if (0 <? count_label "Very Good" (map glideOrGood throws))%nat
                    then (show_nat (count_label "Very Good"
                                                (map glideOrGood throws))
                          ++ " Very Good")%string
                    else "Good"%string).
  { destruct throws as [|t0 rest]; [congruence|].
    eexists. split; reflexivity. }
  destruct Hbest as (summary & Hsome & Hbest).
  exists summary. split; [exact Hsome|].
  assert (Hnone : (forall t, In t throws ->
                      st_glideEfficiency t <> "Excellent"%string /\
                      st_glideEfficiency t <> "Very Good"%string) ->
                  bestGlide summary = "Good"%string).
  { intros Hall. rewrite Hbest.
    assert (Hlabels : forall label,
              (label = "Excellent" \/ label = "Very Good")%string ->
              count_label label (map glideOrGood throws) = 0%nat).
    { intros label Hlabel. apply count_label_zero. intros l Hl.
      apply in_map_iff in Hl. destruct Hl as (t & <- & Ht).
      destruct (Hall t Ht) as [He Hv]. unfold glideOrGood.
      destruct (String.eqb_spec (st_glideEfficiency t) "") as [_|_].
      - destruct Hlabel as [-> | ->]; discriminate.
      - destruct Hlabel as [-> | ->]; assumption. }
    rewrite (Hlabels "Excellent"%string), (Hlabels "Very Good"%string)
      by tauto.
    reflexivity. }
  split; [|split; [exact Hnone|]].
  - intros (t & Ht & Hlabel).
    exists (count_label "Excellent" (map glideOrGood throws)).
    assert (Hpos : (0 < count_label "Excellent" (map glideOrGood throws))%nat).
    { apply count_label_positive. apply in_map_iff. exists t.
      split; [|exact Ht]. unfold glideOrGood. rewrite Hlabel. reflexivity. }
    split; [exact Hpos|]. split; [reflexivity|].
    rewrite Hbest. apply Nat.ltb_lt in Hpos. rewrite Hpos. reflexivity.
  - intros Hpoor. apply Hnone. intros t Ht. rewrite (Hpoor t Ht).
    split; discriminate.
Qed.

Lemma best_glide_names_the_best_label_witness :
  risingSession <> [] /\
  exists summary,
    calculateSessionSummary risingSession = Some summary /\
    bestGlide summary = "Good"%string.
Proof.
  assert (Hne : risingSession <> []) by discriminate.
  split; [exact Hne|].
  destruct (best_glide_names_the_best_label risingSession Hne)
    as (summary & Hsome & _ & Hnone & _).
  exists summary. split; [exact Hsome|].
  apply Hnone. intros t Ht. cbn in Ht.
  destruct Ht as [<-|[<-|[<-|[]]]]; split; discriminate.
Defined.

(** ** Instances *)

Lemma lateEvent_buffer :
  autoStopBuffer (run [lateEvent] (startRecording 0 true shortRecording))
  = [mkPoint 1 (105 / 10)].
Proof.
  set (a := startRecording 0 true shortRecording).
  assert (Ht : eventTimestamp a lateEvent = 105 / 10).
  { unfold eventTimestamp. cbn [ev_now lateEvent startTime a startRecording negb].
    change (10500 - 0)%Z with 10500%Z. lra. }
  assert (Hdue : dueForCheck a (eventTimestamp a lateEvent) = true).
  { apply dueForCheck_iff. rewrite Ht.
    cbn [lastAutoStopCheck a startRecording negb]. split; lra. }
  pose proof (handler_buffer lateEvent a eq_refl eq_refl) as Hbuf.
  cbv zeta in Hbuf. cbn [accelerationIncludingGravity lateEvent] in Hbuf.
  rewrite Hdue in Hbuf. destruct Hbuf as [Hbuf _].
  change (run [lateEvent] a) with (devicemotion lateEvent a).
  rewrite Hbuf. unfold bufferAfter. rewrite Ht.
  assert (Hm : accelMagnitude (mkVec3 (Some 1) None None) = 1).
  { unfold accelMagnitude. cbn [c1 c2 c3 or0]. apply magnitude_on_axis. lra. }
  rewrite Hm. cbn [autoStopBuffer a startRecording negb app filter pt_timestamp].
  destruct (Rle_dec (105 / 10 - 105 / 10) 3) as [_|Hn]; [reflexivity|].
  exfalso. apply Hn. lra.
Qed.

Lemma auto_stop_buffer_is_bounded_witness :
  In (mkPoint 1 (105 / 10))
     (autoStopBuffer (run [lateEvent] (startRecording 0 true shortRecording))) /\
  10 < pt_timestamp (mkPoint 1 (105 / 10)).
Proof.
  assert (Hin : In (mkPoint 1 (105 / 10))
                   (autoStopBuffer
                      (run [lateEvent] (startRecording 0 true shortRecording))))
    by (rewrite lateEvent_buffer; left; reflexivity).
  split; [exact Hin|].
  destruct (auto_stop_buffer_is_bounded 0 shortRecording [lateEvent])
    as (_ & _ & Hall).
  exact (proj1 (Hall _ Hin)).
Defined.

Lemma stability_index_is_a_windowed_rms_witness :
  (0 <= 0 < len (x (gyroscope wobblyData)))%Z /\
  0 <= get (calculateStabilityIndex wobblyData) 0.
Proof.
  assert (Hi : (0 <= 0 < len (x (gyroscope wobblyData)))%Z)
    by (unfold len; cbn; lia).
  split; [exact Hi|].
  destruct (stability_index_is_a_windowed_rms wobblyData) as [_ Hat].
  destruct (Hat 0%Z Hi) as (_ & _ & _ & Hpos & _). exact Hpos.
Defined.
